(* ===== verification/_CoqProject ===== *)
-Q . S2P
Prelude.v
Float64.v
Utf8.v
Types.v
Viewport.v
Search.v
PrettyTime.v
RepaintQueue.v
PropertyListener.v
PlaylistView.v
RenderLoop.v
InputListener.v
System.v
Startup.v
Locking.v
Threads.v
