(* ===== verification/Prelude.v ===== *)
(** * ncmpvc: a verification development

    ncmpvc is a terminal front end for the mpv media player, written in Rust
    as a single file, [src/src/main.rs].  Three threads share two mutex
    protected records and one channel:

    - the _property observer_ (main.rs 151-303) blocks on mpv's event stream,
      stores each changed property in the shared [Player] record and sends a
      [Repaint] request;
    - the _input listener_ (main.rs 311-679) blocks on [getch], moves the
      playlist viewport ([PlaylistCanvas]) or issues a player command, and
      sends a [Repaint] request; [/] enters a nested loop that edits a search
      pattern;
    - the _render loop_ (main.rs 691-857, the main thread) is the only
      receiver of the channel; for each request it reads the records and
      redraws one of three ncurses windows.

    The free functions at the end of main.rs ([print_playlist],
    [get_pretty_time], [jump_to_current], [search_playlist], [try_center_id])
    are the pure core that the threads call.

    ** How the development is laid out

    Every file models one part of main.rs; a definition keeps the name of the
    Rust item it translates, and the line numbers in the comments refer to
    main.rs.  The files, in the order in which they depend on each other:

    - [Prelude] (this file): the result of a Rust computation that may panic
      ([outcome], with the panic causes the program can raise), its monad
      notation in [rust_scope], the machine integers ([usize] at 64 bits,
      [i32], [i64]) as [Z] with their wrap-around written out, arithmetic that
      follows the build profile ([overflow_mode]: [Checked] panics on overflow
      as a debug build does, [Wrapping] wraps as a release build does), [as]
      casts, [Vec] indexing, and the tactics and hint databases the other
      files use.
    - [Float64]: [f64] as the Standard Library's specification of IEEE 754
      binary64, the saturating casts to integers, and the interface
      [FloatFormat] for the decimal formatting of a double.
    - [Utf8]: Rust [String] as the list of its UTF-8 bytes ([string]), with
      [chars().count()], [truncate], [pop], [push] of a [char], [contains]
      and decimal formatting of integers.
    - [Types]: the enums and structs of main.rs 14-86 ([Repaint],
      [UpdateStatusBar], [UpdateTopBar], [Formatting], [Player],
      [PlaylistCanvas], the key codes and observer ids), one setter per field
      assignment, and mpvipc's [PlaylistEntry], [MpvDataType] and [Event].
    - [Viewport]: [try_center_id], [jump_to_current] and the canvas
      computation of the four navigation arms (main.rs 324-419).
    - [Search]: [search_playlist], the arm of key [n] (main.rs 486-512) and
      the prompt of key [/] (main.rs 554-645).
    - [PrettyTime]: [get_pretty_time] and a parser of its output.
    - [RepaintQueue]: the mpsc channel as a FIFO list with producer tags and
      a labelled step relation, the [Error] trait of main.rs 88-104 and its
      instance for the sender.
    - [PropertyListener]: the body of the observer loop (main.rs 178-300),
      [on_event], and the loop over the results of [event_listen].
    - [PlaylistView]: [print_playlist] (main.rs 866-936) as the list of rows
      it draws, with the fitting of a row to the width of the pane.
    - [RenderLoop]: [render], the body of the main loop for one request
      (main.rs 699-856), with the canvas update of the playlist arm and the
      texts of the status bar and the top bar.
    - [InputListener]: [browse_key], the dispatch on the key code (main.rs
      323-675, all arms), the prompt as a mode of the loop, and the interface
      [Mpv] to the player.
    - [System]: the state the three loops share, one iteration of each loop
      as an atomic step, and runs of schedules of iterations.
    - [Startup]: [main] up to its loop (main.rs 106-148, 305-319, 678-688,
      858-862) as a function from the size of the terminal, the answer of
      the socket and the success of the two spawns to the trace of what
      [main] did and the state the loops start in; the connection and the
      eight subscriptions of the observer (main.rs 157-173).
    - [Locking]: the two mutexes with owner and poison flag, the channel,
      and programs of threads ([prog], a free monad over lock, guard drop,
      access to a record, send, [recv], exit and panic); [exec] runs a
      program by one thread alone, [pool_step] and [pool_run] run the pool
      of three threads one operation at a time under a schedule; [locked]
      types a program by the mutexes held.
    - [Threads]: every arm of the three loops as a program of [Locking],
      statement by statement, with the scope of every guard as Rust gives it
      (a temporary lives for its statement, [let ref x = m.lock().unwrap().f]
      and [let g = m.lock().unwrap()] to the end of the block), and the
      three loops over the lists of notifications, keys and answers a run
      consumes.

    Interfaces are type classes: [Error] (the trait of main.rs), [Mpv] (the
    calls main.rs makes on mpvipc's client), [Socket] and [Observer] (the
    connection and the subscription) and [FloatFormat]; the code is written
    against them and the examples instantiate them.

    ** Conventions

    - An integer variable of the program is a [Z]; its type's range is a
      hypothesis ([in_usize], [in_i32]) and every operation that can leave the
      range goes through [usize_add], [usize_sub], [i32_add], [i32_sub],
      [i32_mul], which consult the [overflow_mode].  Comparisons never
      overflow and are [Z] comparisons.  [usize] has 64 bits (the 32-bit case
      is not modelled).
    - A computation that can panic returns [outcome A]: [Ok a] or [Panic p].
      A panic of a spawned thread ends that thread only; a panic in the render
      loop ends the process.  [Panic] records the cause, not the message.
    - A handler is modelled whole: every read and write of the shared
      records, every send and every call of mpv, in program order.  It
      returns the new records and the list of what it did to the outside.
    - The program is modelled at two grains.  In [System] a handler is a
      function and runs atomically: the schedules are those in which no
      thread runs inside a handler of another.  In [Threads] a handler is a
      program whose steps are single operations on a mutex, a record or the
      channel, and the schedules are all interleavings of those steps.
      [Threads.iteration_refines] relates the two: a program run with no
      other thread running is the function.  What is proved of [System] holds
      for the schedules in which handlers do not overlap; the theorems of
      [Threads] hold for every schedule.
    - A panic of a thread drops the guards it holds, which poisons their
      mutexes; [lock().unwrap()] on a poisoned mutex panics.  The process
      ends when a thread calls [exit] and when the main thread panics.
    - Float to integer casts saturate and send NaN to 0, as Rust defines
      them since version 1.45.
    - No fuel is used anywhere: every loop of the modelled code is a
      traversal of a list of inputs (keys, events, requests, rows) and is
      structural.  The three loops of the threads never return in the
      source; in [Threads] a thread runs for as many iterations as the list
      of its inputs is long, then returns, so a run of the pool covers any
      finite prefix of an execution.  A schedule is a list of thread names;
      naming a thread that cannot move (it waits for a mutex or for the
      channel) is not a run.  The sizes the invariants cover are [sizes_ok]: a window
      of 1 to 2^30 - 1 rows and a playlist of 1 to 2^31 - 1 entries, so that
      [2 * height] and [len as i32] do not overflow.

    ** What the theorems show

    - [System]: when every navigation key is redrawn before the next one,
      no thread panics in either build profile, the selection stays a row of
      the playlist inside the window and is the row drawn in reverse video
      ([run_synchronous]); when keys outrun the renderer the selection
      leaves the playlist and the next page-up underflows ([run_nav_race]);
      a metadata notification followed by a Null one before the redraw makes
      the render loop unwrap [None] ([run_metadata_race]).
    - [Viewport]: [try_center_id] implements the centring of the
      specification where line 1027 does not underflow
      ([try_center_id_refines]) and underflows when the playlist is shorter
      than the window; navigation without redraws keeps the invariant
      [nav_inv] without a panic on a playlist that is not empty
      ([nav_run_nav_inv]); on an empty playlist arrow-down and page-down
      panic or move the selection ([nav_empty_playlist]).
    - [Search]: [search_playlist] is the filter of the specification, its
      results are ascending rows; key [n] advances the cursor cyclically
      and centres on the match; [Enter] in the prompt stores the results and
      sends the requests of each case; a key code that is no character
      panics; a character followed by backspace is undone.
    - [Float64]: on every valid double that is no NaN, the comparison with
      one hour agrees with the saturating cast ([f64_ltb_3600]).
    - [PrettyTime]: the two shapes of the output and the round trip with
      the parser, for every valid double with a non-negative integral part.
    - [RepaintQueue]: exactly-once FIFO delivery, per-producer order under
      any interleaving, and draining.
    - [PropertyListener]: each notification writes only its fields and
      always sends a request for the pane that shows them; the loop stops
      only by the panic on an IPC error.
    - [PlaylistView]: a row of ASCII text fills the pane exactly; a cut
      inside a multi-byte character panics; the rows drawn are the entries
      of the window, the selected one in reverse video.
    - [RenderLoop]: a request paints only its pane; the time text is no
      valid format for [wprintw]; the percentage with a duration of zero;
      the width of the progress bar; the redraw of an empty playlist.
    - [InputListener]: the loop with a mode is the nested loop of the
      source; the keys that send one command; which failures of mpv are
      reported and which are panics.
    - [Startup]: the three windows tile the terminal from 6 rows on and the
      playlist window has a negative height below; a refused connection is
      reported after [endwin]; a first read that fails is a panic inside
      curses mode; with mpv up the first iteration of the render loop draws
      the first frame and establishes the invariant [run_synchronous]
      starts from ([start_first_frame]); the subscriptions are the ids the
      loop dispatches on.
    - [Locking]: for every pool whose threads are typed by [locked]:
      the typing is preserved by every step ([step_disciplined]), some
      thread can move unless all wait for the channel ([no_deadlock]), two
      threads are never inside an access to the same record
      ([exclusive_access]), poison stays and spreads ([poison_spreads]),
      every run ends ([steps_terminate]) and can stop only with both
      mutexes free and every thread waiting for the channel
      ([stuck_at_rest]); a thread that waits for a mutex is served by
      steps of the others ([waiter_served]); a program run by one thread
      alone is a run of the pool ([exec_run]).
    - [Threads]: every arm of main.rs is typed; hence the three threads are
      typed in every state they reach, never deadlock, exclude each other,
      stop only at rest, and leave their critical sections without the
      help of a thread that waits ([threads_disciplined],
      [threads_no_deadlock], [threads_exclusive], [threads_terminate],
      [threads_waiter_served]);
      an arm alone is the atomic handler ([iteration_refines]) and every
      run of [System], with its final state or its panic, is a run of the
      pool for some schedule ([atomic_runs_realized]).  What only
      the fine grain shows: a redraw interleaved with an arrow-down draws a
      frame without selection ([torn_frame]); a panic under the player
      guard poisons the player and takes the observer and the main thread
      with it ([poisoned_player]); a panic of the input listener outside
      its guards leaves a program that no key can end
      ([listener_dies_alone]).

    ** Not modelled

    The ncurses calls beyond their arguments (what the terminal shows), the
    horizontal rules and [wrefresh] of the render loop (main.rs 692-697 and
    after each arm), which write no state of the program; the mpv IPC
    transport (crate mpvipc, not part of the sources), of which the model
    has the calls main.rs makes and their answers; the [error!] macro of
    [macros.rs] (not part of the sources), of which the model has the
    message; the decimal expansion of a double ([FloatFormat] is an
    interface); the operating system's scheduler (every schedule is
    covered) and its threads beyond the order of the two spawns; executions
    that never end (the pool runs finite prefixes); [usize] of 32 bits. *)

From Stdlib Require Import ZArith Lia.
From stdpp Require Import prelude.

#[local] Open Scope Z_scope.

(** ** Panics and the outcome monad *)

(** The causes of the panics main.rs can raise. *)
Inductive panic : Type :=
| ArithOverflow      (* "attempt to add/subtract/multiply with overflow" *)
| IndexOutOfBounds   (* [v[i]] with [i >= v.len()] *)
| UnwrapNone         (* [Option::unwrap] / [expect] on [None] *)
| UnwrapErr          (* [Result::unwrap] / [expect] on [Err] *)
| CharBoundary.      (* [String::truncate] inside a code point *)

Inductive outcome (A : Type) : Type :=
| Ok (a : A)
| Panic (p : panic).
Arguments Ok {A} a.
Arguments Panic {A} p.

#[export] Instance panic_eq_dec : EqDecision panic.
Proof. solve_decision. Defined.

#[export] Instance outcome_eq_dec `{EqDecision A} : EqDecision (outcome A).
Proof. solve_decision. Defined.

#[export] Instance outcome_ret : MRet outcome := @Ok.

#[export] Instance outcome_bind : MBind outcome := fun A B f m =>
  match m with Ok a => f a | Panic p => Panic p end.

#[export] Instance outcome_fmap : FMap outcome := fun A B f m =>
  match m with Ok a => Ok (f a) | Panic p => Panic p end.

Definition is_Ok {A} (m : outcome A) : Prop := exists a, m = Ok a.

Definition is_Panic {A} (m : outcome A) : Prop := exists p, m = Panic p.

#[export] Instance is_Ok_dec {A} (m : outcome A) : Decision (is_Ok m).
Proof.
  refine (match m with Ok a => left _ | Panic p => right _ end);
    unfold is_Ok; [eauto | intros [? ?]; discriminate].
Defined.

#[export] Instance is_Panic_dec {A} (m : outcome A) : Decision (is_Panic m).
Proof.
  refine (match m with Ok a => right _ | Panic p => left _ end);
    unfold is_Panic; [intros [? ?]; discriminate | eauto].
Defined.

(** [Option::unwrap]. *)
Definition unwrap {A} (o : option A) : outcome A :=
  match o with Some a => Ok a | None => Panic UnwrapNone end.

Declare Scope rust_scope.
Delimit Scope rust_scope with rust.

Notation "x <- m ;; k" := (mbind (M := outcome) (fun x => k) m)
  (at level 100, m at next level, k at level 200, right associativity,
   format "'[v' x  <-  m  ;;  '/' k ']'") : rust_scope.

#[local] Open Scope rust_scope.

(** ** Machine integers *)

(** The build profile: debug builds check arithmetic, release builds wrap. *)
Inductive overflow_mode : Type := Checked | Wrapping.

#[export] Instance overflow_mode_eq_dec : EqDecision overflow_mode.
Proof. solve_decision. Defined.

Definition usize_modulus : Z := 18446744073709551616.
Definition usize_max : Z := 18446744073709551615.
Definition i32_min : Z := -2147483648.
Definition i32_max : Z := 2147483647.
Definition i64_min : Z := -9223372036854775808.
Definition i64_max : Z := 9223372036854775807.

Definition in_usize (z : Z) : Prop := 0 <= z <= usize_max.
Definition in_i32 (z : Z) : Prop := i32_min <= z <= i32_max.
Definition in_i64 (z : Z) : Prop := i64_min <= z <= i64_max.

Definition in_usizeb (z : Z) : bool := (0 <=? z) && (z <=? usize_max).
Definition in_i32b (z : Z) : bool := (i32_min <=? z) && (z <=? i32_max).

(** Two's complement wrap-around. *)
Definition wrap_usize (z : Z) : Z := z mod usize_modulus.
Definition wrap_i32 (z : Z) : Z := (z + 2147483648) mod 4294967296 - 2147483648.
Definition wrap_i64 (z : Z) : Z :=
  (z + 9223372036854775808) mod 18446744073709551616 - 9223372036854775808.

(** What an overflowing operation does with its wrapped result. *)
Definition overflow (om : overflow_mode) (wrapped : Z) : outcome Z :=
  match om with Checked => Panic ArithOverflow | Wrapping => Ok wrapped end.

Definition usize_arith (om : overflow_mode) (z : Z) : outcome Z :=
  if in_usizeb z then Ok z else overflow om (wrap_usize z).

Definition i32_arith (om : overflow_mode) (z : Z) : outcome Z :=
  if in_i32b z then Ok z else overflow om (wrap_i32 z).

Definition usize_add (om : overflow_mode) (a b : Z) : outcome Z := usize_arith om (a + b).
Definition usize_sub (om : overflow_mode) (a b : Z) : outcome Z := usize_arith om (a - b).
Definition i32_add (om : overflow_mode) (a b : Z) : outcome Z := i32_arith om (a + b).
Definition i32_sub (om : overflow_mode) (a b : Z) : outcome Z := i32_arith om (a - b).
Definition i32_mul (om : overflow_mode) (a b : Z) : outcome Z := i32_arith om (a * b).

(** [as] casts between integer types never panic. *)
Definition i32_as_usize (z : Z) : Z := wrap_usize z.
Definition usize_as_i32 (z : Z) : Z := wrap_i32 z.

(** [Vec] indexing, [v[i]]. *)
Definition vec_index {A} (v : list A) (i : Z) : outcome A :=
  match v !! Z.to_nat i with Some x => Ok x | None => Panic IndexOutOfBounds end.

(** [v.len()]. *)
Definition len {A} (v : list A) : Z := Z.of_nat (length v).

(** ** Tactics and hint databases *)

Create HintDb ints discriminated.
Create HintDb outcome discriminated.
Create Rewrite HintDb ints.
Create Rewrite HintDb outcome.

(** Unfold the integer vocabulary down to [Z] comparisons. *)
Ltac unfold_ints :=
  unfold usize_add, usize_sub, i32_add, i32_sub, i32_mul, usize_arith, i32_arith,
    overflow, in_usizeb, in_i32b, i32_as_usize, usize_as_i32, wrap_usize,
    wrap_i32, in_usize, in_i32, in_i64, usize_modulus, usize_max, i32_min,
    i32_max, i64_min, i64_max in *.

(** Case on every boolean comparison of [Z] in the goal, keeping the fact. *)
Ltac case_cmp :=
  repeat match goal with
  | |- context [?a <? ?b] => destruct (Z.ltb_spec a b)
  | |- context [?a <=? ?b] => destruct (Z.leb_spec a b)
  | |- context [?a =? ?b] => destruct (Z.eqb_spec a b)
  | |- context [?a >? ?b] => rewrite (Z.gtb_ltb a b)
  | |- context [?a >=? ?b] => rewrite (Z.geb_leb a b)
  end.

(** Simplify binds of the outcome monad on known results. *)
Ltac simpl_outcome :=
  cbn [mbind outcome_bind mret outcome_ret fmap outcome_fmap unwrap andb orb negb] in *.

(** Run a computation symbolically: decide each comparison it reaches and
    reduce the bind that follows, closing the impossible branches with [lia]. *)
Ltac run_outcome :=
  repeat first [ progress simpl_outcome | progress (case_cmp; try lia) ].

(** The work horse for arithmetic side conditions. *)
Ltac ints := unfold_ints; simpl_outcome; case_cmp; simpl_outcome;
  try first [ lia | congruence | done ].

(** ** Lemmas on the outcome monad *)

Section Outcome.
Context {A B : Type}.

Lemma bind_Ok (a : A) (k : A -> outcome B) : (x <- Ok a ;; k x) = k a.
Proof. reflexivity. Qed.

Lemma bind_Panic (p : panic) (k : A -> outcome B) : (x <- Panic p ;; k x) = Panic p.
Proof. reflexivity. Qed.

Lemma bind_Ok_inv (m : outcome A) (k : A -> outcome B) (b : B) :
  (x <- m ;; k x) = Ok b -> exists a, m = Ok a /\ k a = Ok b.
Proof. destruct m; cbn; [eauto | discriminate]. Qed.

Lemma bind_Panic_inv (m : outcome A) (k : A -> outcome B) (p : panic) :
  (x <- m ;; k x) = Panic p -> m = Panic p \/ exists a, m = Ok a /\ k a = Panic p.
Proof. destruct m; cbn; [eauto | intros [= ->]; auto]. Qed.

Lemma is_Ok_Ok (a : A) : is_Ok (Ok a).
Proof. by exists a. Qed.

Lemma not_is_Ok_Panic (p : panic) : ~ is_Ok (@Panic A p).
Proof. by intros [? ?]. Qed.

Lemma is_Ok_not_Panic (m : outcome A) : is_Ok m <-> ~ is_Panic m.
Proof.
  destruct m; split.
  - intros _ [? ?]; discriminate.
  - intros _; apply is_Ok_Ok.
  - intros [? ?]; discriminate.
  - intros H; destruct H; by eexists.
Qed.

Lemma unwrap_Some (o : option A) (a : A) : unwrap o = Ok a <-> o = Some a.
Proof. destruct o; cbn; split; congruence. Qed.

Lemma unwrap_None (o : option A) p : unwrap o = Panic p <-> o = None /\ p = UnwrapNone.
Proof. destruct o; cbn; split; [done | by intros [? _] | by intros [= <-] | by intros [_ ->]]. Qed.

End Outcome.

#[export] Hint Resolve is_Ok_Ok : outcome.
#[export] Hint Rewrite @bind_Ok @bind_Panic : outcome.

(** ** Lemmas on machine integers *)

Lemma in_usizeb_spec z : reflect (in_usize z) (in_usizeb z).
Proof. unfold in_usizeb, in_usize. apply iff_reflect. ints. Qed.

Lemma in_i32b_spec z : reflect (in_i32 z) (in_i32b z).
Proof. unfold in_i32b, in_i32. apply iff_reflect. ints. Qed.

Lemma wrap_usize_range z : in_usize (wrap_usize z).
Proof. unfold_ints. pose proof (Z.mod_pos_bound z 18446744073709551616). lia. Qed.

Lemma wrap_i32_range z : in_i32 (wrap_i32 z).
Proof.
  unfold_ints. pose proof (Z.mod_pos_bound (z + 2147483648) 4294967296). lia.
Qed.

Lemma wrap_usize_small z : in_usize z -> wrap_usize z = z.
Proof. unfold_ints. intros. apply Z.mod_small. lia. Qed.

Lemma wrap_i32_small z : in_i32 z -> wrap_i32 z = z.
Proof. unfold_ints. intros. rewrite Z.mod_small; lia. Qed.

(** A negative result of a subtraction wraps to the top of the range. *)
Lemma wrap_usize_neg z : - usize_modulus <= z < 0 -> wrap_usize z = z + usize_modulus.
Proof.
  unfold_ints. intros.
  rewrite <- (Z.mod_add z 1 18446744073709551616) by lia.
  apply Z.mod_small. lia.
Qed.

(** A [usize] that fits in 31 bits survives the cast to [i32]. *)
Lemma usize_as_i32_small z : 0 <= z <= i32_max -> usize_as_i32 z = z.
Proof. intros. apply wrap_i32_small. ints. Qed.

(** A non-negative [i32] survives the cast to [usize]; a negative one lands
    [2^64 + z]. *)
Lemma i32_as_usize_nonneg z : 0 <= z <= i32_max -> i32_as_usize z = z.
Proof. intros. apply wrap_usize_small. ints. Qed.

Lemma i32_as_usize_neg z : i32_min <= z < 0 -> i32_as_usize z = z + usize_modulus.
Proof. intros. apply wrap_usize_neg. ints. Qed.

Section Arith.
Context (om : overflow_mode).

Lemma usize_arith_ok z : in_usize z -> usize_arith om z = Ok z.
Proof. unfold usize_arith. by destruct (in_usizeb_spec z). Qed.

Lemma i32_arith_ok z : in_i32 z -> i32_arith om z = Ok z.
Proof. unfold i32_arith. by destruct (in_i32b_spec z). Qed.

Lemma usize_arith_overflow z : ~ in_usize z -> usize_arith om z = overflow om (wrap_usize z).
Proof. unfold usize_arith. by destruct (in_usizeb_spec z). Qed.

Lemma usize_add_ok a b : in_usize (a + b) -> usize_add om a b = Ok (a + b).
Proof. apply usize_arith_ok. Qed.

Lemma usize_sub_ok a b : in_usize a -> 0 <= b <= a -> usize_sub om a b = Ok (a - b).
Proof. intros. apply usize_arith_ok. ints. Qed.

Lemma usize_sub_underflow a b :
  a < b -> usize_sub om a b = overflow om (wrap_usize (a - b)).
Proof. intros. apply usize_arith_overflow. ints. Qed.

Lemma i32_sub_ok a b : in_i32 (a - b) -> i32_sub om a b = Ok (a - b).
Proof. apply i32_arith_ok. Qed.

Lemma i32_mul_ok a b : in_i32 (a * b) -> i32_mul om a b = Ok (a * b).
Proof. apply i32_arith_ok. Qed.

Lemma i32_add_ok a b : in_i32 (a + b) -> i32_add om a b = Ok (a + b).
Proof. apply i32_arith_ok. Qed.

(** Whatever the profile, a result that is returned is in range. *)
Lemma usize_arith_range z r : usize_arith om z = Ok r -> in_usize r.
Proof.
  unfold usize_arith. destruct (in_usizeb_spec z).
  - by intros [= <-].
  - destruct om; cbn; [done | intros [= <-]; apply wrap_usize_range].
Qed.

Lemma i32_arith_range z r : i32_arith om z = Ok r -> in_i32 r.
Proof.
  unfold i32_arith. destruct (in_i32b_spec z).
  - by intros [= <-].
  - destruct om; cbn; [done | intros [= <-]; apply wrap_i32_range].
Qed.

End Arith.

(** In a debug build an operation returns only its exact result. *)
Lemma usize_arith_checked z r : usize_arith Checked z = Ok r -> r = z /\ in_usize z.
Proof.
  unfold usize_arith. destruct (in_usizeb_spec z); cbn; [by intros [= <-] | done].
Qed.

#[export] Hint Rewrite usize_add_ok usize_sub_ok i32_sub_ok i32_mul_ok
  using (unfold_ints; lia) : ints.
#[export] Hint Rewrite wrap_usize_small wrap_i32_small usize_as_i32_small
  i32_as_usize_nonneg using (unfold_ints; lia) : ints.
#[export] Hint Resolve wrap_usize_range wrap_i32_range : ints.

(** [lia] with integer division, modulo, quotient and remainder. *)
Ltac lia_div := Z.to_euclidean_division_equations; lia.

(** Half of a height, as [try_center_id] uses it. *)
Lemma half_bounds x : 0 <= x -> 0 <= x / 2 <= x /\ (1 <= x -> x / 2 < x).
Proof. intros. lia_div. Qed.

(** ** Lemmas on vectors *)

Section Vec.
Context {A : Type}.
Implicit Types (v : list A) (i : Z).

Lemma len_nonneg v : 0 <= len v.
Proof. unfold len. lia. Qed.

Lemma len_nil : len (@nil A) = 0.
Proof. reflexivity. Qed.

Lemma len_cons (x : A) v : len (x :: v) = len v + 1.
Proof. unfold len. cbn [length]. lia. Qed.

Lemma len_app v w : len (v ++ w) = len v + len w.
Proof. unfold len. rewrite length_app. lia. Qed.

Lemma vec_index_ok v i : 0 <= i < len v -> is_Ok (vec_index v i).
Proof.
  unfold vec_index, len. intros H.
  destruct (lookup_lt_is_Some_2 v (Z.to_nat i)) as [x ->]; [lia | by eexists].
Qed.

Lemma vec_index_oob v i : len v <= i -> vec_index v i = Panic IndexOutOfBounds.
Proof.
  unfold vec_index, len. intros H.
  rewrite lookup_ge_None_2; [done | lia].
Qed.

Lemma vec_index_lookup v i x :
  vec_index v i = Ok x <-> v !! Z.to_nat i = Some x.
Proof. unfold vec_index. destruct (v !! Z.to_nat i); split; congruence. Qed.

(** A list given index by index. *)
Lemma fmap_seqZ_lookup {B} (f : A -> B) (g : Z -> B) (v : list A) :
  (forall (j : nat) x, v !! j = Some x -> f x = g (Z.of_nat j)) ->
  f <$> v = g <$> seqZ 0 (len v).
Proof.
  intros Hfg. apply list_eq. intros j. rewrite !list_lookup_fmap.
  destruct (v !! j) as [x|] eqn:Hj; cbn.
  - rewrite lookup_seqZ_lt by (apply lookup_lt_Some in Hj; unfold len; lia).
    cbn. by rewrite (Hfg j x Hj).
  - rewrite lookup_seqZ_ge; [done|]. apply lookup_ge_None in Hj. unfold len. lia.
Qed.

End Vec.

#[export] Hint Rewrite @len_nil @len_cons @len_app : ints.
#[export] Hint Resolve len_nonneg : ints.

(** ** Tactics that use the lemmas above *)

(** Discharge the range check of an arithmetic operation whose result is in
    range on the current branch. *)
Ltac arith_ok :=
  match goal with
  | |- context [usize_arith ?om ?z] =>
      rewrite (usize_arith_ok om z) by (unfold_ints; lia)
  | |- context [i32_arith ?om ?z] =>
      rewrite (i32_arith_ok om z) by (unfold_ints; lia)
  end.

(** Run a computation none of whose operations overflows. *)
Ltac run_ok :=
  unfold usize_add, usize_sub, i32_add, i32_sub, i32_mul;
  repeat first [ progress simpl_outcome | arith_ok | progress (case_cmp; try lia) ].

(** Close a closed goal over [Z] and the booleans by evaluation. *)
Ltac by_compute :=
  vm_compute;
  repeat match goal with |- _ /\ _ => split end;
  first [ reflexivity | discriminate | done | (intros; discriminate) ].

(** Close a closed decidable goal by evaluating its decision procedure. *)
Ltac by_decide := refine (bool_decide_unpack _ _); vm_compute; exact I.
