(* ===== verification/Float64.v ===== *)
(** * Float64: the [f64] values of main.rs

    [Player] keeps four [f64] fields (duration, position, speed, volume) and
    the render code divides, multiplies, compares and casts them.  An [f64]
    is modelled by the Standard Library's specification of IEEE 754 binary64
    ([spec_float] at precision 53 and maximal exponent 1024), which is a plain
    inductive type with executable operations and no axiom.

    The casts [x as i64], [x as i32] and [x as usize] follow Rust's rule
    (since 1.45): truncate toward zero, saturate at the bounds of the target
    type, and send NaN to 0.

    [spec_float] has more inhabitants than there are doubles; [f64_valid]
    says which are values of an [f64].  On those the comparison with one
    hour agrees with the cast to [i64] ([f64_ltb_3600]), which is what
    [get_pretty_time] relies on. *)

From Stdlib Require Import ZArith Lia String SpecFloat.
From stdpp Require Import prelude.
From S2P Require Import Prelude.

#[local] Open Scope Z_scope.

Definition f64 : Type := spec_float.

Definition f64_prec : Z := 53.
Definition f64_emax : Z := 1024.

#[export] Instance f64_eq_dec : EqDecision f64.
Proof. solve_decision. Defined.

(** [n as f64] for an integer [n] (exact below 2^53, rounded to nearest even
    above). *)
Definition f64_of_Z (n : Z) : f64 := binary_normalize f64_prec f64_emax n 0 false.

(** The literal [0f64]. *)
Definition f64_zero : f64 := S754_zero false.

Definition f64_div (x y : f64) : f64 := SFdiv f64_prec f64_emax x y.
Definition f64_mul (x y : f64) : f64 := SFmul f64_prec f64_emax x y.
Definition f64_ltb (x y : f64) : bool := SFltb x y.

(** The integral part of a finite float, rounded toward zero. *)
Definition f64_trunc (x : f64) : option Z :=
  match x with
  | S754_zero _ => Some 0
  | S754_finite s m e =>
      let mag := if 0 <=? e then Z.pos m * 2 ^ e else Z.pos m / 2 ^ (- e) in
      Some (if s then - mag else mag)
  | S754_infinity _ | S754_nan => None
  end.

Definition clamp (lo hi z : Z) : Z := Z.max lo (Z.min hi z).

(** [x as T] for an integer type [T] with bounds [lo] and [hi]. *)
Definition f64_as_int (lo hi : Z) (x : f64) : Z :=
  match x with
  | S754_nan => 0
  | S754_infinity s => if s then lo else hi
  | _ => clamp lo hi (default 0 (f64_trunc x))
  end.

Definition f64_as_i64 : f64 -> Z := f64_as_int i64_min i64_max.
Definition f64_as_i32 : f64 -> Z := f64_as_int i32_min i32_max.
Definition f64_as_usize : f64 -> Z := f64_as_int 0 usize_max.

(** The values an [f64] can hold: a finite double has a mantissa of 53
    digits, or fewer at the least exponent, and an exponent in range. *)
Definition f64_valid (x : f64) : bool := valid_binary f64_prec f64_emax x.

(** [format!("{:.*}", precision, x)]: the decimal expansion of a double
    with a fixed number of fractional digits.  The development does not
    depend on what it prints. *)
Class FloatFormat : Type := fmt_fixed : Z -> f64 -> string.

(** ** Lemmas *)

Lemma clamp_range lo hi z : lo <= hi -> lo <= clamp lo hi z <= hi.
Proof. unfold clamp. lia. Qed.

Lemma clamp_id lo hi z : lo <= z <= hi -> clamp lo hi z = z.
Proof. unfold clamp. lia. Qed.

Lemma f64_as_int_range lo hi x : lo <= 0 <= hi -> lo <= f64_as_int lo hi x <= hi.
Proof.
  intros H. destruct x as [s|[]| |s m e]; cbn [f64_as_int]; try lia;
    apply clamp_range; lia.
Qed.

Lemma f64_as_i64_range x : in_i64 (f64_as_i64 x).
Proof. apply f64_as_int_range. ints. Qed.

Lemma f64_as_i32_range x : in_i32 (f64_as_i32 x).
Proof. apply f64_as_int_range. ints. Qed.

Lemma f64_as_usize_range x : in_usize (f64_as_usize x).
Proof. apply f64_as_int_range. ints. Qed.

(** NaN casts to zero and the infinities saturate. *)
Lemma f64_as_i32_nan : f64_as_i32 S754_nan = 0.
Proof. reflexivity. Qed.

Lemma f64_as_i32_inf : f64_as_i32 (S754_infinity false) = i32_max.
Proof. reflexivity. Qed.

(** Division by zero does not trap: [100.0 / 0.0] is [+inf], and
    [inf * 0.0] is NaN. *)
Lemma f64_div_by_zero : f64_div (f64_of_Z 100) f64_zero = S754_infinity false.
Proof. reflexivity. Qed.

Lemma f64_inf_mul_zero : f64_mul (S754_infinity false) f64_zero = S754_nan.
Proof. reflexivity. Qed.

#[export] Hint Resolve f64_as_i64_range f64_as_i32_range f64_as_usize_range : ints.

(** ** Lemmas: comparison and cast *)

Lemma digits2_pos_bounds m :
  2 ^ (Z.pos (digits2_pos m) - 1) <= Z.pos m < 2 ^ Z.pos (digits2_pos m).
Proof.
  induction m as [m IH|m IH|]; cbn [digits2_pos]; [| |by cbn].
  all: rewrite Pos2Z.inj_succ; replace (Z.succ (Z.pos (digits2_pos m)) - 1)
         with (Z.succ (Z.pos (digits2_pos m) - 1)) by lia;
       rewrite !Z.pow_succ_r by lia; lia.
Qed.

(** A valid finite double: 53 digits above the least exponent. *)
Lemma f64_valid_finite s m e :
  f64_valid (S754_finite s m e) = true ->
  -1074 <= e <= 971 /\ Z.pos m < 2 ^ 53 /\ (-1074 < e -> 2 ^ 52 <= Z.pos m).
Proof.
  unfold f64_valid, valid_binary, bounded, canonical_mantissa, fexp, emin, f64_prec, f64_emax.
  intros [Hc He]%andb_prop. apply Z.eqb_eq in Hc. apply Z.leb_le in He.
  pose proof (digits2_pos_bounds m) as Hd.
  assert (Z.pos (digits2_pos m) <= 53) as Hle by lia.
  split; [lia|]. split.
  - eapply Z.lt_le_trans; [apply Hd|]. by apply Z.pow_le_mono_r.
  - intros Hn. assert (Z.pos (digits2_pos m) = 53) as Heq by lia.
    rewrite Heq in Hd. apply Hd.
Qed.

Lemma f64_of_Z_3600 : f64_of_Z 3600 = S754_finite false 7916483719987200 (-41).
Proof. by vm_compute. Qed.

Lemma f64_as_i64_finite s m e :
  f64_as_i64 (S754_finite s m e) =
    clamp i64_min i64_max
      (let mag := if 0 <=? e then Z.pos m * 2 ^ e else Z.pos m / 2 ^ (- e) in
       if s then - mag else mag).
Proof. reflexivity. Qed.

(** A double is below one hour exactly when its integral part is: the
    comparison of line 942 and the casts of lines 939-941 agree on every value
    that is no NaN. *)
Lemma f64_ltb_3600 x :
  x <> S754_nan -> f64_valid x = true ->
  f64_ltb x (f64_of_Z 3600) = (f64_as_i64 x <? 3600).
Proof.
  intros Hnan Hv. rewrite f64_of_Z_3600. unfold f64_ltb, SFltb.
  destruct x as [s|[]| |[] m e]; [reflexivity..|done| |];
    rewrite f64_as_i64_finite; cbn zeta; cbn [SFcompare]; unfold clamp, i64_min, i64_max.
  - symmetry. apply Z.ltb_lt.
    assert (0 <= if 0 <=? e then Z.pos m * 2 ^ e else Z.pos m / 2 ^ (- e)) as Hm.
    { destruct (Z.leb_spec 0 e).
      - apply Z.mul_nonneg_nonneg; [lia | by apply Z.pow_nonneg].
      - apply Z.div_pos; [lia | apply Z.pow_pos_nonneg; lia]. }
    revert Hm. generalize (if 0 <=? e then Z.pos m * 2 ^ e else Z.pos m / 2 ^ (- e)). lia.
  - apply f64_valid_finite in Hv as (He & Hhi & Hlo).
    destruct (Z.compare_spec e (-41)) as [->|Hlt|Hgt].
    + rewrite Pos.compare_cont_spec, Pos2Z.inj_compare.
      change (0 <=? -41) with false. cbn iota.
      change (2 ^ (- -41)) with 2199023255552.
      clear. destruct (Z.compare_spec (Z.pos m) 7916483719987200) as [Hm|Hm|Hm];
        cbn [Pos.switch_Eq]; symmetry; first [apply Z.ltb_lt | apply Z.ltb_ge].
      * assert (3600 <= Z.pos m / 2199023255552) by (apply Z.div_le_lower_bound; lia). lia.
      * assert (Z.pos m / 2199023255552 < 3600) by (apply Z.div_lt_upper_bound; lia). lia.
      * assert (3600 <= Z.pos m / 2199023255552) by (apply Z.div_le_lower_bound; lia). lia.
    + symmetry. apply Z.ltb_lt. destruct (Z.leb_spec 0 e); [lia|].
      assert (Z.pos m / 2 ^ (- e) <= Z.pos m / 2 ^ 42).
      { apply Z.div_le_compat_l; [lia|]. split; [apply Z.pow_pos_nonneg; lia|].
        apply Z.pow_le_mono_r; lia. }
      change (2 ^ 42) with 4398046511104 in *. change (2 ^ 53) with 9007199254740992 in *.
      assert (Z.pos m / 4398046511104 < 3600) by (apply Z.div_lt_upper_bound; lia).
      assert (0 <= Z.pos m / 2 ^ (- e)) by (apply Z.div_pos; [lia | apply Z.pow_pos_nonneg; lia]).
      lia.
    + symmetry. apply Z.ltb_ge. specialize (Hlo ltac:(lia)).
      change (2 ^ 52) with 4503599627370496 in *.
      assert (4096 <= if 0 <=? e then Z.pos m * 2 ^ e else Z.pos m / 2 ^ (- e)) as Hm.
      { destruct (Z.leb_spec 0 e).
        - assert (1 <= 2 ^ e) by (apply (Z.pow_le_mono_r 2 0 e); lia). nia.
        - transitivity (Z.pos m / 2 ^ 40).
          + change (2 ^ 40) with 1099511627776. apply Z.div_le_lower_bound; lia.
          + apply Z.div_le_compat_l; [lia|]. split; [apply Z.pow_pos_nonneg; lia|].
            apply Z.pow_le_mono_r; lia. }
      revert Hm. generalize (if 0 <=? e then Z.pos m * 2 ^ e else Z.pos m / 2 ^ (- e)). lia.
Qed.
