(* ===== verification/Utf8.v ===== *)
(** * Utf8: Rust strings

    A Rust [String] is a vector of bytes that holds valid UTF-8.  It is
    modelled by [string] (a list of [ascii], i.e. of bytes), so that a literal
    of main.rs is the same literal here, multi-byte characters included.

    [len] counts bytes, [chars().count()] counts code points, [truncate]
    cuts at a byte index and panics inside a code point, [pop] removes the
    last code point, [push] appends the UTF-8 encoding of a [char] and
    [contains] is substring search.  The distinction between bytes and code
    points matters in [print_playlist], which measures a row in code points
    and truncates it in bytes.

    Integers are formatted as [Display] does: decimal digits, a leading [-]
    for negative numbers, no padding. *)

From Stdlib Require Import ZArith Lia Ascii String DecimalString DecimalZ DecimalPos.
From stdpp Require Import prelude strings.
From S2P Require Import Prelude.

#[local] Open Scope Z_scope.
#[local] Open Scope rust_scope.

(** ** Bytes and code points *)

Definition byte_val (a : ascii) : Z := Z.of_N (N_of_ascii a).

Definition byte_of_Z (z : Z) : ascii := ascii_of_N (Z.to_N z).

(** A continuation byte of UTF-8: [10xxxxxx]. *)
Definition is_continuation (a : ascii) : bool :=
  (128 <=? byte_val a) && (byte_val a <? 192).

(** [s.len()]: the length in bytes. *)
Definition str_len (s : string) : Z := Z.of_nat (String.length s).

(** [s.chars().count()]: every code point has exactly one byte that is not a
    continuation byte. *)
Fixpoint chars_count (s : string) : Z :=
  match s with
  | EmptyString => 0
  | String a s' => (if is_continuation a then 0 else 1) + chars_count s'
  end.

(** ASCII text: every byte is a code point. *)
Fixpoint is_ascii (s : string) : bool :=
  match s with
  | EmptyString => true
  | String a s' => (byte_val a <? 128) && is_ascii s'
  end.

Fixpoint str_take (n : nat) (s : string) : string :=
  match n, s with
  | S n', String a s' => String a (str_take n' s')
  | _, _ => EmptyString
  end.

Fixpoint str_drop (n : nat) (s : string) : string :=
  match n, s with
  | S n', String _ s' => str_drop n' s'
  | _, _ => s
  end.

(** [s.is_char_boundary(index)]. *)
Definition is_char_boundary (s : string) (index : Z) : bool :=
  if index =? 0 then true
  else match str_drop (Z.to_nat index) s with
       | String b _ => negb (is_continuation b)
       | EmptyString => index =? str_len s
       end.

(** [s.truncate(new_len)]: no effect past the end, a panic inside a code
    point. *)
Definition truncate (s : string) (new_len : Z) : outcome string :=
  if new_len <=? str_len s then
    if is_char_boundary s new_len then Ok (str_take (Z.to_nat new_len) s)
    else Panic CharBoundary
  else Ok s.

(** [s.push_str(t)]. *)
Definition push_str (s t : string) : string := s +:+ t.

(** [std::char::from_u32]: the surrogates and everything above U+10FFFF are
    no [char]. *)
Definition char_from_u32 (u : Z) : option Z :=
  if ((0 <=? u) && (u <? 55296)) || ((57343 <? u) && (u <=? 1114111))
  then Some u else None.

(** [ch as u32] for an [i32]. *)
Definition i32_as_u32 (z : Z) : Z := z mod 4294967296.

Definition string_of_bytes (l : list Z) : string :=
  string_of_list_ascii (map byte_of_Z l).

(** The UTF-8 encoding of a code point. *)
Definition encode_utf8 (c : Z) : string :=
  string_of_bytes
    (if c <? 128 then [c]
     else if c <? 2048 then [192 + c / 64; 128 + c mod 64]
     else if c <? 65536 then
       [224 + c / 4096; 128 + (c / 64) mod 64; 128 + c mod 64]
     else
       [240 + c / 262144; 128 + (c / 4096) mod 64; 128 + (c / 64) mod 64;
        128 + c mod 64]).

(** [s.push(c)]. *)
Definition push (s : string) (c : Z) : string := s +:+ encode_utf8 c.

(** The bytes of [l] (a reversed string) after its first code point. *)
Fixpoint drop_last_char (l : list ascii) : list ascii :=
  match l with
  | [] => []
  | a :: l' => if is_continuation a then drop_last_char l' else l'
  end.

(** [s.pop()], the string that is left. *)
Definition pop (s : string) : string :=
  string_of_list_ascii (rev (drop_last_char (rev (list_ascii_of_string s)))).

(** ** Substring search *)

Fixpoint starts_with (s p : string) {struct p} : bool :=
  match p, s with
  | EmptyString, _ => true
  | String a p', String b s' => Ascii.eqb a b && starts_with s' p'
  | String _ _, EmptyString => false
  end.

(** [s.contains(p)]. *)
Fixpoint contains (s p : string) : bool :=
  starts_with s p ||
  match s with
  | EmptyString => false
  | String _ s' => contains s' p
  end.

(** ** Formatting of integers *)

(** [format!("{}", n)] for an integer [n]. *)
Definition fmt_int (n : Z) : string := NilZero.string_of_int (Z.to_int n).

(** The inverse: a decimal numeral, with an optional sign. *)
Definition parse_int (s : string) : option Z :=
  Z.of_int <$> NilZero.int_of_string s.

(** ** Characters a text does not hold *)

(** No byte of [s] is [c]. *)
Fixpoint lacks (c : ascii) (s : string) : bool :=
  match s with
  | EmptyString => true
  | String a s' => negb (Ascii.eqb a c) && lacks c s'
  end.

(** The bytes a formatted integer is made of: the digits and the sign. *)
Definition numeral_byte (c : ascii) : bool :=
  ((48 <=? byte_val c) && (byte_val c <=? 57)) || Ascii.eqb c "-".

(** ** Lemmas: lengths *)

Lemma str_app_nil t : EmptyString +:+ t = t.
Proof. reflexivity. Qed.

Lemma str_app_cons a s t : String a s +:+ t = String a (s +:+ t).
Proof. reflexivity. Qed.

Lemma str_app_nil_r s : s +:+ EmptyString = s.
Proof. induction s as [|a s IH]; [done|]. by rewrite str_app_cons, IH. Qed.

Lemma str_app_assoc s t u : (s +:+ t) +:+ u = s +:+ (t +:+ u).
Proof. induction s as [|a s IH]; [done|]. by rewrite !str_app_cons, IH. Qed.

Lemma str_len_nonneg s : 0 <= str_len s.
Proof. unfold str_len. lia. Qed.

Lemma str_len_app s t : str_len (s +:+ t) = str_len s + str_len t.
Proof.
  induction s as [|a s IH]; [rewrite str_app_nil; unfold str_len; cbn [String.length]; lia|].
  rewrite str_app_cons. unfold str_len in *. cbn [String.length]. lia.
Qed.

Lemma str_len_cons a s : str_len (String a s) = 1 + str_len s.
Proof. unfold str_len. cbn [String.length]. lia. Qed.

Lemma chars_count_nonneg s : 0 <= chars_count s.
Proof. induction s as [|a s IH]; cbn [chars_count]; [lia | destruct (is_continuation a); lia]. Qed.

(** A string never has more code points than bytes. *)
Lemma chars_count_le_len s : chars_count s <= str_len s.
Proof.
  induction s as [|a s IH]; [done|].
  rewrite str_len_cons. cbn [chars_count]. destruct (is_continuation a); lia.
Qed.

Lemma chars_count_app s t : chars_count (s +:+ t) = chars_count s + chars_count t.
Proof.
  induction s as [|a s IH]; [done|].
  rewrite str_app_cons. cbn [chars_count]. lia.
Qed.

Lemma chars_count_ascii s : is_ascii s = true -> chars_count s = str_len s.
Proof.
  induction s as [|a s IH]; [done|].
  cbn [is_ascii chars_count]. rewrite str_len_cons. intros [Ha Hs]%andb_prop.
  rewrite (IH Hs). unfold is_continuation.
  destruct (Z.leb_spec 128 (byte_val a)); cbn; lia.
Qed.

Lemma str_take_drop n s : str_take n s +:+ str_drop n s = s.
Proof.
  revert s. induction n as [|n IH]; intros [|a s]; cbn [str_take str_drop]; try done.
  by rewrite str_app_cons, IH.
Qed.

Lemma str_len_take n s :
  str_len (str_take n s) = Z.min (Z.of_nat n) (str_len s).
Proof.
  revert s. induction n as [|n IH]; intros [|a s]; cbn [str_take];
    rewrite ?str_len_cons; try (unfold str_len; cbn; lia).
  rewrite IH. lia.
Qed.

(** ** Lemmas: truncate *)

Lemma truncate_past_end s n : str_len s < n -> truncate s n = Ok s.
Proof. unfold truncate. intros. case_cmp; [lia | done]. Qed.

Lemma truncate_Ok_len s n t :
  0 <= n <= str_len s -> truncate s n = Ok t -> str_len t = n.
Proof.
  unfold truncate. intros H. case_cmp; [|lia].
  destruct (is_char_boundary s n); [|done].
  intros [= <-]. rewrite str_len_take. lia.
Qed.

(** Truncation of ASCII text never panics. *)
Lemma str_drop_ascii_boundary k t :
  is_ascii t = true -> (k <= String.length t)%nat ->
  match str_drop k t with
  | String b _ => negb (is_continuation b)
  | EmptyString => Z.of_nat k =? str_len t
  end = true.
Proof.
  revert t. induction k as [|k IH]; intros [|a t]; cbn [str_drop is_ascii String.length].
  - done.
  - intros [Ha _]%andb_prop _. unfold is_continuation.
    destruct (Z.leb_spec 128 (byte_val a)); cbn; [lia | done].
  - lia.
  - intros [_ Ht]%andb_prop Hk. specialize (IH t Ht ltac:(lia)).
    destruct (str_drop k t); [|done].
    rewrite str_len_cons. apply Z.eqb_eq in IH. apply Z.eqb_eq. lia.
Qed.

Lemma is_char_boundary_ascii s n :
  is_ascii s = true -> 0 <= n <= str_len s -> is_char_boundary s n = true.
Proof.
  unfold is_char_boundary. intros Hs Hn. destruct (Z.eqb_spec n 0); [done|].
  pose proof (str_drop_ascii_boundary (Z.to_nat n) s Hs
    ltac:(unfold str_len in *; lia)) as Hgen.
  destruct (str_drop (Z.to_nat n) s); [|done].
  by rewrite Z2Nat.id in Hgen by lia.
Qed.

Lemma truncate_ascii s n :
  is_ascii s = true -> 0 <= n <= str_len s ->
  truncate s n = Ok (str_take (Z.to_nat n) s).
Proof.
  intros Hs Hn. unfold truncate. case_cmp; [|lia].
  by rewrite is_char_boundary_ascii.
Qed.

(** ** Lemmas: substring search *)

Lemma starts_with_spec s p : starts_with s p = true <-> exists t, s = p +:+ t.
Proof.
  revert s. induction p as [|a p IH]; intros s; cbn [starts_with].
  - split; [intros _; exists s; reflexivity | reflexivity].
  - destruct s as [|b s].
    + split; [discriminate | intros [t Ht]; discriminate].
    + rewrite andb_true_iff, Ascii.eqb_eq, IH. split.
      * intros [-> [t ->]]. by exists t.
      * intros [t Ht]. rewrite str_app_cons in Ht. injection Ht as -> ->. eauto.
Qed.

(** [contains] finds the pattern exactly when the string splits around it. *)
Lemma contains_spec s p :
  contains s p = true <-> exists pre post, s = pre +:+ p +:+ post.
Proof.
  induction s as [|b s IH]; cbn [contains]; rewrite orb_true_iff.
  - rewrite starts_with_spec. split.
    + intros [[t Ht]|?]; [|done]. by exists EmptyString, t.
    + intros (pre & post & H). left. destruct pre; [by exists post|discriminate].
  - rewrite starts_with_spec, IH. split.
    + intros [[t Ht]|(pre & post & ->)].
      * by exists EmptyString, t.
      * by exists (String b pre), post.
    + intros (pre & post & H). destruct pre as [|c pre].
      * left. by exists post.
      * right. rewrite str_app_cons in H. injection H as -> ->. by exists pre, post.
Qed.

(** Every string contains the empty pattern. *)
Lemma contains_empty s : contains s EmptyString = true.
Proof. destruct s; reflexivity. Qed.

Lemma contains_refl s : contains s s = true.
Proof.
  apply contains_spec. exists EmptyString, EmptyString.
  by rewrite str_app_nil, str_app_nil_r.
Qed.

(** A pattern longer than the string is not found. *)
Lemma contains_length s p : contains s p = true -> str_len p <= str_len s.
Proof.
  intros (pre & post & ->)%contains_spec. rewrite !str_len_app.
  pose proof (str_len_nonneg pre). pose proof (str_len_nonneg post). lia.
Qed.

(** ** Lemmas: characters *)

Lemma char_from_u32_Some u c : char_from_u32 u = Some c ->
  c = u /\ 0 <= u <= 1114111 /\ ~ (55296 <= u <= 57343).
Proof.
  unfold char_from_u32.
  destruct (_ || _) eqn:E; [|done]. intros [= <-].
  apply orb_prop in E as [[? ?]%andb_prop|[? ?]%andb_prop]; lia.
Qed.

(** The key code [-1] ([ERR] of [getch]) is no character. *)
Lemma char_from_u32_err : char_from_u32 (i32_as_u32 (-1)) = None.
Proof. reflexivity. Qed.

(** ** Lemmas: integer formatting *)

Lemma to_int_nonnil (n : Z) (s : bool) :
  Z.to_int n <> (if s then Decimal.Neg Decimal.Nil else Decimal.Pos Decimal.Nil).
Proof.
  destruct n as [|p|p], s; cbn [Z.to_int]; try discriminate;
    intros [= H]; by apply Unsigned.to_uint_nonnil in H.
Qed.

(** Parsing what was printed gives the number back. *)
Lemma parse_fmt_int n : parse_int (fmt_int n) = Some n.
Proof.
  unfold parse_int, fmt_int.
  rewrite NilZero.isi.
  - cbn [fmap option_fmap option_map]. f_equal. apply DecimalZ.of_to.
  - apply (to_int_nonnil n false).
  - apply (to_int_nonnil n true).
Qed.

Lemma fmt_int_inj n m : fmt_int n = fmt_int m -> n = m.
Proof.
  intros H. apply (f_equal parse_int) in H. rewrite !parse_fmt_int in H. congruence.
Qed.

(** ** Lemmas: push and pop *)

Lemma byte_val_of_Z z : 0 <= z < 256 -> byte_val (byte_of_Z z) = z.
Proof.
  intros Hz. unfold byte_val, byte_of_Z.
  rewrite N_ascii_embedding by lia. lia.
Qed.

Lemma is_continuation_of_Z z :
  0 <= z < 256 -> is_continuation (byte_of_Z z) = (128 <=? z) && (z <? 192).
Proof. intros Hz. unfold is_continuation. by rewrite byte_val_of_Z. Qed.

(** The encoding of a code point is a lead byte followed by continuation
    bytes only. *)
Lemma encode_utf8_shape c :
  0 <= c <= 1114111 ->
  exists lead conts,
    list_ascii_of_string (encode_utf8 c) = lead :: conts /\
    is_continuation lead = false /\
    Forall (fun a => is_continuation a = true) conts.
Proof.
  intros Hc. unfold encode_utf8, string_of_bytes.
  rewrite list_ascii_of_string_of_list_ascii.
  assert (Hcont : forall x, is_continuation (byte_of_Z (128 + x mod 64)) = true).
  { intros x. rewrite is_continuation_of_Z by lia_div.
    apply andb_true_intro; split; [apply Z.leb_le | apply Z.ltb_lt]; lia_div. }
  assert (Hlead : forall z, 192 <= z < 256 -> is_continuation (byte_of_Z z) = false).
  { intros z Hz. rewrite is_continuation_of_Z by lia.
    apply andb_false_intro2, Z.ltb_ge. lia. }
  case_cmp; cbn [map]; eexists _, _; (split; [reflexivity|]); split;
    try (apply Hlead; lia_div); repeat constructor; try apply Hcont.
  rewrite is_continuation_of_Z by lia. apply andb_false_intro1, Z.leb_gt. lia.
Qed.

Lemma drop_last_char_app conts lead rest :
  Forall (fun a => is_continuation a = true) conts -> is_continuation lead = false ->
  drop_last_char (rev conts ++ lead :: rest) = rest.
Proof.
  intros Hconts Hlead. apply Forall_rev in Hconts.
  induction Hconts as [|a l Ha _ IH]; cbn [app drop_last_char].
  - by rewrite Hlead.
  - by rewrite Ha.
Qed.

Lemma list_ascii_of_string_app s t :
  list_ascii_of_string (s +:+ t) = list_ascii_of_string s ++ list_ascii_of_string t.
Proof.
  induction s as [|a s IH]; [done|].
  rewrite str_app_cons. cbn [list_ascii_of_string app]. by rewrite IH.
Qed.

(** Removing the character that was just typed gives the old string back. *)
Lemma pop_push s c : 0 <= c <= 1114111 -> pop (push s c) = s.
Proof.
  intros Hc. unfold pop, push. rewrite list_ascii_of_string_app.
  destruct (encode_utf8_shape c Hc) as (lead & conts & -> & Hlead & Hconts).
  rewrite rev_app_distr. cbn [rev]. rewrite <- app_assoc. cbn [app].
  rewrite drop_last_char_app by done.
  by rewrite rev_involutive, string_of_list_ascii_of_string.
Qed.

(** Popping the empty string leaves it empty. *)
Lemma pop_empty : pop EmptyString = EmptyString.
Proof. reflexivity. Qed.

(** ** Lemmas: characters a text does not hold *)

Lemma lacks_app c s t : lacks c (s +:+ t) = lacks c s && lacks c t.
Proof.
  induction s as [|a s IH]; [done|].
  rewrite str_app_cons. cbn [lacks]. by rewrite IH, andb_assoc.
Qed.

(** A byte that is no digit and no sign differs from every byte of a
    numeral. *)
Lemma numeral_byte_neq c a :
  numeral_byte c = false -> numeral_byte a = true -> Ascii.eqb a c = false.
Proof. intros Hc Ha. destruct (Ascii.eqb_spec a c); [congruence | done]. Qed.

Lemma lacks_uint c d :
  numeral_byte c = false -> lacks c (NilEmpty.string_of_uint d) = true.
Proof.
  intros Hc. induction d; cbn [NilEmpty.string_of_uint lacks]; [done|..];
    by rewrite IHd, (numeral_byte_neq c _ Hc).
Qed.

Lemma lacks_fmt_int c n : numeral_byte c = false -> lacks c (fmt_int n) = true.
Proof.
  intros Hc. unfold fmt_int, NilZero.string_of_int, NilZero.string_of_uint.
  destruct (Z.to_int n) as [d|d]; destruct d; cbn [lacks];
    rewrite ?(numeral_byte_neq c _ Hc) by done; try done;
    cbn [NilEmpty.string_of_uint lacks];
    by rewrite ?lacks_uint, ?(numeral_byte_neq c _ Hc).
Qed.
