(* ===== verification/Types.v ===== *)
(** * Types: the data of main.rs

    The constants of main.rs 14-41, the repaint requests of 43-68, the two
    shared records of 70-86, and the types of crate mpvipc that main.rs
    matches on ([PlaylistEntry], [Playlist], [MpvDataType], [Event]).

    A Rust path [Repaint::StatusBar(UpdateStatusBar::Time)] is written
    [Repaint.StatusBar UpdateStatusBar.Time]: each enum is a module with its
    type [t], because the enums share constructor names ([Clear]) with each
    other and with types ([Playlist]). *)

From Stdlib Require Import ZArith.
From stdpp Require Import prelude strings gmap.
From S2P Require Import Prelude.
From S2P Require Import Float64.

#[local] Open Scope Z_scope.

(** ** Constants (main.rs 14-41) *)

Definition OBS_ID_PLAYLIST : Z := 1.
Definition OBS_ID_PAUSE : Z := 2.
Definition OBS_ID_TIME_POS : Z := 3.
Definition OBS_ID_DURATION : Z := 4.
Definition OBS_ID_METADATA : Z := 5.
Definition OBS_ID_VOLUME : Z := 6.
Definition OBS_ID_MUTE : Z := 7.
Definition OBS_ID_SPEED : Z := 8.

Definition KEY_ENTER : Z := 10.
Definition KEY_ESC : Z := 27.
Definition KEY_BACKSPACE : Z := 127.
Definition KEY_GT : Z := 62.      (* '>' *)
Definition KEY_LT : Z := 60.      (* '<' *)
Definition KEY_PLUS : Z := 43.    (* '+' *)
Definition KEY_MINUS : Z := 45.   (* '-' *)
Definition KEY_LSBR : Z := 91.    (* '[' *)
Definition KEY_RSBR : Z := 93.    (* ']' *)
Definition KEY_M : Z := 109.
Definition KEY_N : Z := 110.
Definition KEY_O : Z := 111.
Definition KEY_P : Z := 112.
Definition KEY_Q : Z := 113.
Definition KEY_R : Z := 114.
Definition KEY_S : Z := 115.
Definition KEY_U : Z := 117.
Definition KEY_Z : Z := 122.
Definition KEY_SLASH : Z := 47.   (* '/' *)

(** The key codes main.rs takes from ncurses (curses.h). *)
Definition KEY_DOWN : Z := 258.
Definition KEY_UP : Z := 259.
Definition KEY_LEFT : Z := 260.
Definition KEY_RIGHT : Z := 261.
Definition KEY_NPAGE : Z := 338.
Definition KEY_PPAGE : Z := 339.

(** ** Repaint requests (main.rs 43-68) *)

Module Formatting.
Inductive t : Type := Normal | Blinking.
End Formatting.

Module UpdateStatusBar.
Inductive t : Type :=
| Clear
| Time
| Message (msg : string) (formatting : Formatting.t).
End UpdateStatusBar.

Module UpdateTopBar.
Inductive t : Type := Clear | Metadata | Speed | Volume.
End UpdateTopBar.

Module Repaint.
Inductive t : Type :=
| Playlist (clear_win : bool) (scroll_to_beginning : bool)
| StatusBar (what : UpdateStatusBar.t)
| TopBar (what : UpdateTopBar.t).
End Repaint.

#[export] Instance Formatting_eq_dec : EqDecision Formatting.t.
Proof. solve_decision. Defined.

#[export] Instance UpdateStatusBar_eq_dec : EqDecision UpdateStatusBar.t.
Proof. solve_decision. Defined.

#[export] Instance UpdateTopBar_eq_dec : EqDecision UpdateTopBar.t.
Proof. solve_decision. Defined.

#[export] Instance Repaint_eq_dec : EqDecision Repaint.t.
Proof. solve_decision. Defined.

(** The request every navigation key sends: redraw the list in place. *)
Definition repaint_list : Repaint.t := Repaint.Playlist false false.

(** The three windows of main.rs 120-128, and the one a request redraws
    (the outer match of main.rs 699-856). *)
Inductive pane : Type := TopPane | ListPane | StatusPane.

#[export] Instance pane_eq_dec : EqDecision pane.
Proof. solve_decision. Defined.

Definition pane_of (r : Repaint.t) : pane :=
  match r with
  | Repaint.Playlist _ _ => ListPane
  | Repaint.StatusBar _ => StatusPane
  | Repaint.TopBar _ => TopPane
  end.

(** ** The types of crate mpvipc *)

(** [pub struct PlaylistEntry { id, filename, title, current }]; mpvipc
    numbers the entries of a playlist from 0 in playlist order. *)
Module PlaylistEntry.
Record t : Type := mk {
  id : Z;
  filename : string;
  title : string;
  current : bool;
}.
End PlaylistEntry.

#[export] Instance PlaylistEntry_eq_dec : EqDecision PlaylistEntry.t.
Proof. solve_decision. Defined.

(** [pub struct Playlist(pub Vec<PlaylistEntry>)]; [playlist.0] is the
    list itself. *)
Abbreviation Playlist := (list PlaylistEntry.t) (only parsing).

Module MpvDataType.
#[warnings="-register-all"]
Inductive t : Type :=
| Bool (b : bool)
| String (s : string)
| Double (f : f64)
| HashMap (m : gmap string t)
| Null
| Playlist (pl : list PlaylistEntry.t)
| Usize (u : Z).
End MpvDataType.

Module Event.
Inductive t : Type :=
| PropertyChange (id : Z) (data : MpvDataType.t)
| Other.
End Event.

(** ** The shared records (main.rs 70-86) *)

Record Player : Type := mkPlayer {
  duration : f64;
  is_muted : bool;
  is_paused : bool;
  metadata : option (gmap string MpvDataType.t);
  playlist : Playlist;
  search_results : list Z * Z;
  speed : f64;
  time_pos : f64;
  volume : f64;
}.

Record PlaylistCanvas : Type := mkCanvas {
  top_line : Z;
  bottom_line : Z;
  selected_line : Z;
}.

#[export] Instance PlaylistCanvas_eq_dec : EqDecision PlaylistCanvas.
Proof. solve_decision. Defined.

(** Field assignment, [player.lock().unwrap().field = v]. *)
Definition set_duration (v : f64) (p : Player) : Player :=
  mkPlayer v (is_muted p) (is_paused p) (metadata p) (playlist p)
    (search_results p) (speed p) (time_pos p) (volume p).
Definition set_is_muted (v : bool) (p : Player) : Player :=
  mkPlayer (duration p) v (is_paused p) (metadata p) (playlist p)
    (search_results p) (speed p) (time_pos p) (volume p).
Definition set_is_paused (v : bool) (p : Player) : Player :=
  mkPlayer (duration p) (is_muted p) v (metadata p) (playlist p)
    (search_results p) (speed p) (time_pos p) (volume p).
Definition set_metadata (v : option (gmap string MpvDataType.t)) (p : Player) : Player :=
  mkPlayer (duration p) (is_muted p) (is_paused p) v (playlist p)
    (search_results p) (speed p) (time_pos p) (volume p).
Definition set_playlist (v : Playlist) (p : Player) : Player :=
  mkPlayer (duration p) (is_muted p) (is_paused p) (metadata p) v
    (search_results p) (speed p) (time_pos p) (volume p).
Definition set_search_results (v : list Z * Z) (p : Player) : Player :=
  mkPlayer (duration p) (is_muted p) (is_paused p) (metadata p) (playlist p)
    v (speed p) (time_pos p) (volume p).
Definition set_speed (v : f64) (p : Player) : Player :=
  mkPlayer (duration p) (is_muted p) (is_paused p) (metadata p) (playlist p)
    (search_results p) v (time_pos p) (volume p).
Definition set_time_pos (v : f64) (p : Player) : Player :=
  mkPlayer (duration p) (is_muted p) (is_paused p) (metadata p) (playlist p)
    (search_results p) (speed p) v (volume p).
Definition set_volume (v : f64) (p : Player) : Player :=
  mkPlayer (duration p) (is_muted p) (is_paused p) (metadata p) (playlist p)
    (search_results p) (speed p) (time_pos p) v.

Definition set_top_line (v : Z) (c : PlaylistCanvas) : PlaylistCanvas :=
  mkCanvas v (bottom_line c) (selected_line c).
Definition set_bottom_line (v : Z) (c : PlaylistCanvas) : PlaylistCanvas :=
  mkCanvas (top_line c) v (selected_line c).
Definition set_selected_line (v : Z) (c : PlaylistCanvas) : PlaylistCanvas :=
  mkCanvas (top_line c) (bottom_line c) v.

(** ** Well-formedness of the data *)

(** The entries are numbered by their position, as mpvipc builds them. *)
Definition playlist_wf (pl : Playlist) : Prop :=
  forall (i : nat) e, pl !! i = Some e -> PlaylistEntry.id e = Z.of_nat i.

(** At most one entry is the current one. *)
Definition at_most_one_current (pl : Playlist) : Prop :=
  forall (i j : nat) e f,
    pl !! i = Some e -> pl !! j = Some f ->
    PlaylistEntry.current e = true -> PlaylistEntry.current f = true -> i = j.

(** Every field of the canvas is a [usize]. *)
Definition canvas_in_range (c : PlaylistCanvas) : Prop :=
  in_usize (top_line c) /\ in_usize (bottom_line c) /\ in_usize (selected_line c).

(** A playlist from its titles, numbered from [start] (for examples). *)
Fixpoint playlist_of_titles (start : Z) (titles : list string) : Playlist :=
  match titles with
  | [] => []
  | t :: ts =>
      PlaylistEntry.mk start EmptyString t false :: playlist_of_titles (start + 1) ts
  end.

(** ** Lemmas *)

Lemma playlist_wf_nil : playlist_wf [].
Proof. by intros [|i] e H. Qed.

Lemma playlist_of_titles_length start titles :
  length (playlist_of_titles start titles) = length titles.
Proof. revert start. induction titles as [|t ts IH]; intros start; cbn; [done | by rewrite IH]. Qed.

Lemma playlist_of_titles_lookup start titles (i : nat) e :
  playlist_of_titles start titles !! i = Some e ->
  PlaylistEntry.id e = start + Z.of_nat i.
Proof.
  revert start i. induction titles as [|t ts IH]; intros start [|i]; cbn; try done.
  - intros [= <-]. cbn. lia.
  - intros H. rewrite (IH _ _ H). lia.
Qed.

Lemma playlist_of_titles_wf titles : playlist_wf (playlist_of_titles 0 titles).
Proof. intros i e H. by rewrite (playlist_of_titles_lookup _ _ _ _ H). Qed.

Lemma set_top_line_proj v c :
  top_line (set_top_line v c) = v /\
  bottom_line (set_top_line v c) = bottom_line c /\
  selected_line (set_top_line v c) = selected_line c.
Proof. done. Qed.

Lemma canvas_eta c : mkCanvas (top_line c) (bottom_line c) (selected_line c) = c.
Proof. by destruct c. Qed.
