(* ===== verification/Viewport.v ===== *)
(** * Viewport: scrolling and centring of the playlist window

    The playlist pane shows the rows [top_line .. bottom_line) of the
    playlist and highlights [selected_line].  This file models the code that
    moves the window:

    - [try_center_id] (main.rs 1013-1039) and [jump_to_current]
      (main.rs 987-1000), two free functions;
    - the canvas computation of the four navigation arms of the input
      listener: [key_up] (main.rs 325-338), [key_down] (346-364), [key_ppage]
      (372-385) and [key_npage] (393-414).  Each arm reads the canvas fields,
      computes, and writes [top_line] and [selected_line] back; the send that
      follows is added in the input listener's dispatch.

    [height_playlist_win] is an [i32] in main.rs ([max_y - 6]) and is cast
    with [as usize] wherever it meets a canvas field; it is the parameter [h].

    The theorems are stated for both build profiles ([om]); where the profile
    matters the statement names it. *)

From Stdlib Require Import ZArith Lia.
From stdpp Require Import prelude strings.
From S2P Require Import Prelude.
From S2P Require Import Float64.
From S2P Require Import Types.

#[local] Open Scope Z_scope.
#[local] Open Scope rust_scope.

(** ** The code *)

Section Code.
Context (om : overflow_mode).

(** main.rs 1013-1039. *)
Definition try_center_id (playlist : Playlist) (canvas : PlaylistCanvas) (id : Z)
  : outcome (option PlaylistCanvas) :=
  line_count <- usize_sub om (bottom_line canvas) (top_line canvas) ;;
  if id <? len playlist then
    if id <? line_count / 2 then
      let top_line := 0 in
      bottom_line <- usize_add om top_line line_count ;;
      Ok (Some (mkCanvas top_line bottom_line id))
    else
      limit <- usize_sub om (len playlist) (line_count / 2) ;;
      if limit <? id then
        let bottom_line := len playlist in
        top_line <- usize_sub om bottom_line line_count ;;
        Ok (Some (mkCanvas top_line bottom_line id))
      else
        top_line <- usize_sub om id (line_count / 2) ;;
        bottom_line <- usize_add om top_line line_count ;;
        Ok (Some (mkCanvas top_line bottom_line id))
  else Ok None.

(** The loop of main.rs 991-997: the index of the first entry whose
    [current] flag is set, counting from [id]. *)
Fixpoint first_current (playlist : Playlist) (id : Z) : option Z :=
  match playlist with
  | [] => None
  | entry :: rest =>
      if PlaylistEntry.current entry then Some id else first_current rest (id + 1)
  end.

(** main.rs 987-1000: [current_id] starts at 0 and stays 0 when no entry is
    current. *)
Definition jump_to_current (playlist : Playlist) (playlist_canvas : PlaylistCanvas)
  : outcome (option PlaylistCanvas) :=
  let current_id := default 0 (first_current playlist 0) in
  try_center_id playlist playlist_canvas current_id.

(** main.rs 325-338, arrow up.  Both decrements are guarded by [> 0]. *)
Definition key_up (canvas : PlaylistCanvas) : PlaylistCanvas :=
  let top_line0 := top_line canvas in
  let selected_line0 := selected_line canvas in
  let top_line1 :=
    if selected_line0 =? top_line0
    then (if 0 <? top_line0 then top_line0 - 1 else top_line0)
    else top_line0 in
  let selected_line1 :=
    if 0 <? selected_line0 then selected_line0 - 1 else selected_line0 in
  set_selected_line selected_line1 (set_top_line top_line1 canvas).

(** main.rs 346-364, arrow down. *)
Definition key_down (h : Z) (playlist : Playlist) (canvas : PlaylistCanvas)
  : outcome PlaylistCanvas :=
  let top_line0 := top_line canvas in
  let bottom_line0 := bottom_line canvas in
  let selected_line0 := selected_line canvas in
  last <- usize_sub om (len playlist) 1 ;;
  selected_line1 <-
    (if selected_line0 <? last then usize_add om selected_line0 1
     else Ok selected_line0) ;;
  top_line1 <-
    (if selected_line1 =? bottom_line0 then
       limit <- usize_sub om (len playlist) (i32_as_usize h) ;;
       if top_line0 <? limit then usize_add om top_line0 1 else Ok top_line0
     else Ok top_line0) ;;
  Ok (set_selected_line selected_line1 (set_top_line top_line1 canvas)).

(** main.rs 372-385, page up. *)
Definition key_ppage (h : Z) (canvas : PlaylistCanvas) : outcome PlaylistCanvas :=
  let top_line0 := top_line canvas in
  let selected_line0 := selected_line canvas in
  if i32_as_usize h <=? top_line0 then
    top_line1 <- usize_sub om top_line0 (i32_as_usize h) ;;
    selected_line1 <- usize_sub om selected_line0 (i32_as_usize h) ;;
    Ok (set_selected_line selected_line1 (set_top_line top_line1 canvas))
  else
    Ok (set_selected_line 0 (set_top_line 0 canvas)).

(** main.rs 393-414, page down.  The comparison of line 399 is made in
    [i32]. *)
Definition key_npage (h : Z) (playlist : Playlist) (canvas : PlaylistCanvas)
  : outcome PlaylistCanvas :=
  let top_line0 := top_line canvas in
  let selected_line0 := selected_line canvas in
  if i32_as_usize h <? len playlist then
    two_h <- i32_mul om 2 h ;;
    limit <- i32_sub om (usize_as_i32 (len playlist)) two_h ;;
    if usize_as_i32 top_line0 <=? limit then
      top_line1 <- usize_add om top_line0 (i32_as_usize h) ;;
      selected_line1 <- usize_add om selected_line0 (i32_as_usize h) ;;
      Ok (set_selected_line selected_line1 (set_top_line top_line1 canvas))
    else
      top_line1 <- usize_sub om (len playlist) (i32_as_usize h) ;;
      selected_line1 <- usize_sub om (len playlist) 1 ;;
      Ok (set_selected_line selected_line1 (set_top_line top_line1 canvas))
  else
    selected_line1 <- usize_sub om (len playlist) 1 ;;
    Ok (set_selected_line selected_line1 (set_top_line top_line0 canvas)).

End Code.

(** The four navigation keys, and the canvas after one of them and after a
    sequence of them. *)
Inductive nav_key : Type := Up | Down | PageUp | PageDown.

#[export] Instance nav_key_eq_dec : EqDecision nav_key.
Proof. solve_decision. Defined.

Definition nav_step (om : overflow_mode) (h : Z) (playlist : Playlist)
    (k : nav_key) (canvas : PlaylistCanvas) : outcome PlaylistCanvas :=
  match k with
  | Up => Ok (key_up canvas)
  | Down => key_down om h playlist canvas
  | PageUp => key_ppage om h canvas
  | PageDown => key_npage om h playlist canvas
  end.

Fixpoint nav_run (om : overflow_mode) (h : Z) (playlist : Playlist)
    (ks : list nav_key) (canvas : PlaylistCanvas) : outcome PlaylistCanvas :=
  match ks with
  | [] => Ok canvas
  | k :: ks' =>
      canvas' <- nav_step om h playlist k canvas ;;
      nav_run om h playlist ks' canvas'
  end.

(** ** The abstract window *)

(** The window the specification asks for when row [id] of [n] rows is
    centred in a window of [h] rows (unbounded integers, no state). *)
Definition spec_center (n h id : Z) : option (Z * Z) :=
  if id <? n then
    if id <? h / 2 then Some (0, h)
    else if n - h / 2 <? id then Some (n - h, n)
    else Some (id - h / 2, id - h / 2 + h)
  else None.

(** The canvas [try_center_id] builds from a window. *)
Definition canvas_of_window (id : Z) (w : Z * Z) : PlaylistCanvas :=
  mkCanvas w.1 w.2 id.

(** The inputs on which line 1027 subtracts a window height from a shorter
    playlist: the target is in the second half of a playlist that does not
    fill the window. *)
Definition center_underflows (n line_count id : Z) : bool :=
  (line_count / 2 <=? id) && (id <? n) && (n - line_count / 2 <? id) &&
  (n <? line_count).

(** The window of a canvas. *)
Definition window (c : PlaylistCanvas) : Z * Z := (top_line c, bottom_line c).

(** ** Invariants *)

(** What holds between any two key presses, whether or not the list was
    redrawn in between: the selection is not above the window and less than
    [n] rows below its top, the window does not start past [n - h], and a
    playlist that fits the window has a valid selection and a [bottom_line]
    at or past its end. *)
Definition nav_inv (h n : Z) (c : PlaylistCanvas) : Prop :=
  0 <= top_line c <= selected_line c /\ selected_line c < top_line c + n /\
  (h < n -> top_line c <= n - h) /\
  (n <= h -> selected_line c < n) /\
  (n < h -> n <= bottom_line c).

(** The selection is one of the [h] rows shown from [top_line]. *)
Definition visible (h n : Z) (c : PlaylistCanvas) : Prop :=
  0 <= top_line c <= selected_line c /\ selected_line c < n /\
  selected_line c < top_line c + h.

(** What holds after the render loop has redrawn the list. *)
Definition view_inv (h n : Z) (c : PlaylistCanvas) : Prop :=
  visible h n c /\ bottom_line c = top_line c + h.

(** The sizes the theorems cover: a terminal of at least 7 and at most 2^30
    rows and a playlist whose length fits an [i32]. *)
Definition sizes_ok (h n : Z) : Prop :=
  1 <= h <= 1073741823 /\ 1 <= n <= i32_max.

(** A playlist of [n] entries titled "t". *)
Definition sample_playlist (n : nat) : Playlist :=
  playlist_of_titles 0 (replicate n "t"%string).

(** ** Lemmas shared by the theorems *)

#[export] Instance nav_inv_dec h n c : Decision (nav_inv h n c).
Proof. unfold nav_inv. apply _. Defined.

#[export] Instance visible_dec h n c : Decision (visible h n c).
Proof. unfold visible. apply _. Defined.

#[export] Instance view_inv_dec h n c : Decision (view_inv h n c).
Proof. unfold view_inv. apply _. Defined.

#[export] Instance sizes_ok_dec h n : Decision (sizes_ok h n).
Proof. unfold sizes_ok. apply _. Defined.

(** A canvas that was just redrawn with its window inside the playlist
    satisfies the invariant that holds between keys. *)
Lemma view_inv_nav_inv h n c :
  view_inv h n c -> (h < n -> top_line c <= n - h) -> 1 <= h -> nav_inv h n c.
Proof. unfold view_inv, visible, nav_inv. lia. Qed.

Lemma visible_nav_bounds h n c :
  visible h n c -> 0 <= top_line c <= selected_line c /\ selected_line c < n.
Proof. unfold visible. lia. Qed.

(** Open a goal about a handler: expose the canvas fields, the invariants
    and the casts of [h] and of the playlist length. *)
Ltac open_canvas c :=
  destruct c as [top bot sel];
  unfold view_inv, visible, nav_inv, sizes_ok, window in *;
  cbn [top_line bottom_line selected_line set_top_line set_selected_line
       set_bottom_line] in *.

Ltac cast_sizes h playlist :=
  pose proof (len_nonneg playlist);
  rewrite ?(i32_as_usize_nonneg h), ?(usize_as_i32_small (len playlist))
    by (unfold_ints; lia).

(** Close a goal [exists c', Ok x = Ok c' /\ P c']. *)
Ltac close_ok :=
  eexists; split; [reflexivity|];
  cbn [top_line bottom_line selected_line set_top_line set_selected_line
       set_bottom_line]; try lia.

(** ** Navigation between renders *)

Section Navigation.
Context (om : overflow_mode) (h : Z) (playlist : Playlist).
Context (Hsz : sizes_ok h (len playlist)).

Lemma key_up_nav_inv c :
  nav_inv h (len playlist) c -> nav_inv h (len playlist) (key_up c).
Proof. intros Hc. unfold key_up. open_canvas c. case_cmp; lia. Qed.

Lemma key_down_nav_inv c :
  nav_inv h (len playlist) c ->
  exists c', key_down om h playlist c = Ok c' /\ nav_inv h (len playlist) c'.
Proof.
  intros Hc. unfold key_down. open_canvas c. cast_sizes h playlist.
  run_ok; close_ok.
Qed.

Lemma key_ppage_nav_inv c :
  nav_inv h (len playlist) c ->
  exists c', key_ppage om h c = Ok c' /\ nav_inv h (len playlist) c'.
Proof.
  intros Hc. unfold key_ppage. open_canvas c. cast_sizes h playlist.
  run_ok; close_ok.
Qed.

Lemma key_npage_nav_inv c :
  nav_inv h (len playlist) c ->
  exists c', key_npage om h playlist c = Ok c' /\ nav_inv h (len playlist) c'.
Proof.
  intros Hc. unfold key_npage. open_canvas c. cast_sizes h playlist.
  rewrite (usize_as_i32_small top) by (unfold_ints; lia).
  run_ok; close_ok.
Qed.

(** One navigation key on a non-empty playlist never panics (in a debug or
    in a release build) and keeps the invariant. *)
Lemma nav_step_nav_inv k c :
  nav_inv h (len playlist) c ->
  exists c', nav_step om h playlist k c = Ok c' /\ nav_inv h (len playlist) c'.
Proof.
  intros Hc. destruct k; cbn [nav_step].
  - eexists; split; [reflexivity | by apply key_up_nav_inv].
  - by apply key_down_nav_inv.
  - by apply key_ppage_nav_inv.
  - by apply key_npage_nav_inv.
Qed.


(** The navigation keys never write [bottom_line]. *)
Lemma nav_step_bottom_line k c c' :
  nav_step om h playlist k c = Ok c' -> bottom_line c' = bottom_line c.
Proof.
  destruct c as [top bot sel], k; cbn [nav_step]; unfold key_up, key_down,
    key_ppage, key_npage; cbn [top_line bottom_line selected_line];
    intros H;
    repeat match type of H with
    | (if ?b then _ else _) = _ => destruct b
    | mbind _ ?m = Ok _ => apply bind_Ok_inv in H as (? & _ & H)
    end; by injection H as <-.
Qed.

(** Pressed right after a redraw, a navigation key leaves the selection
    inside the rows the next redraw shows. *)
Lemma nav_step_visible k c :
  view_inv h (len playlist) c ->
  exists c', nav_step om h playlist k c = Ok c' /\ visible h (len playlist) c'.
Proof.
  intros Hc. destruct k; cbn [nav_step]; unfold key_up, key_down, key_ppage,
    key_npage; open_canvas c; cast_sizes h playlist;
    rewrite ?(usize_as_i32_small top) by (unfold_ints; lia);
    run_ok; close_ok.
Qed.

End Navigation.

(** ** Navigation on an empty playlist *)

(** On an empty playlist arrow-down panics in a debug build, whatever the
    canvas: line 352 computes [len - 1] first. *)
Lemma key_down_empty_checked h c : key_down Checked h [] c = Panic ArithOverflow.
Proof. reflexivity. Qed.

(** On an empty playlist arrow-down moves the selection in a release
    build: [len - 1] wraps to [usize::MAX] and the guard of line 352 holds. *)
Lemma key_down_empty_wrapping h c :
  0 <= selected_line c < usize_max - 1 -> selected_line c + 1 <> bottom_line c ->
  key_down Wrapping h [] c = Ok (set_selected_line (selected_line c + 1) c).
Proof.
  intros Hsel Hbot. unfold key_down. open_canvas c.
  change (usize_sub Wrapping (len []) 1) with (Ok (A := Z) usize_max).
  unfold usize_max in *. run_ok. done.
Qed.

(** Page-down on an empty playlist: a panic in a debug build, the selection
    [usize::MAX] in a release build. *)
Lemma key_npage_empty h c :
  0 <= h <= i32_max ->
  key_npage Checked h [] c = Panic ArithOverflow /\
  key_npage Wrapping h [] c = Ok (set_selected_line usize_max c).
Proof.
  intros Hh. unfold key_npage. open_canvas c.
  rewrite (i32_as_usize_nonneg h) by (unfold_ints; lia).
  change (len []) with 0. case_cmp; [lia|]. done.
Qed.

(** C25. Navigation on an empty playlist is not a no-op: arrow-down and
    page-down panic in a debug build ([len - 1] underflows), and in a release
    build arrow-down moves the selection to a row that does not exist and
    page-down selects row [usize::MAX]. *)
Theorem nav_empty_playlist h c k :
  0 <= h <= i32_max ->
  0 <= selected_line c < usize_max - 1 -> selected_line c + 1 <> bottom_line c ->
  k = Down \/ k = PageDown ->
  nav_step Checked h [] k c = Panic ArithOverflow /\
  exists c', nav_step Wrapping h [] k c = Ok c' /\ 0 < selected_line c'.
Proof.
  intros Hh Hsel Hbot [-> | ->]; cbn [nav_step].
  - split; [apply key_down_empty_checked|].
    rewrite key_down_empty_wrapping by done. eexists; split; [done|]. cbn. lia.
  - destruct (key_npage_empty h c Hh) as [-> ->]. split; [done|].
    eexists; split; [done|]. by cbn.
Qed.

(** ** Centring *)

Section Center.
Context (om : overflow_mode) (playlist : Playlist).

(** C5. Where line 1027 does not underflow, [try_center_id] returns the
    window of the specification for the height [bottom_line - top_line] with
    the target selected, and [None] for a target past the end. *)
Theorem try_center_id_refines c id :
  0 <= top_line c <= bottom_line c -> 0 <= id ->
  bottom_line c + id <= usize_max -> len playlist <= usize_max ->
  center_underflows (len playlist) (bottom_line c - top_line c) id = false ->
  try_center_id om playlist c id =
    Ok (canvas_of_window id <$>
          spec_center (len playlist) (bottom_line c - top_line c) id).
Proof.
  intros Hc Hid Hmax Hlen Hu. unfold try_center_id, spec_center, center_underflows in *.
  open_canvas c. pose proof (len_nonneg playlist).
  set (lc := bot - top) in *.
  assert (lc <= bot) by (subst lc; lia).
  pose proof (half_bounds lc ltac:(subst lc; lia)).
  rewrite (usize_sub_ok om bot top) by (unfold_ints; lia). simpl_outcome.
  fold lc. revert Hu. run_ok; intros Hu; try done; lia.
Qed.

(** From a redrawn canvas ([bottom_line = top_line + h]) and a target
    inside the playlist, centring returns a canvas that selects the target
    and shows it, with a window of the same height. *)
Lemma try_center_id_view_inv h c id :
  1 <= h -> 0 <= top_line c -> bottom_line c = top_line c + h ->
  0 <= id < len playlist -> bottom_line c + id <= usize_max ->
  len playlist <= usize_max ->
  center_underflows (len playlist) h id = false ->
  exists c', try_center_id om playlist c id = Ok (Some c') /\
    view_inv h (len playlist) c' /\ selected_line c' = id.
Proof.
  intros Hh Htop Hbot Hid Hmax Hlen Hu.
  unfold try_center_id, center_underflows in *. open_canvas c. subst bot.
  pose proof (half_bounds h ltac:(lia)).
  rewrite (usize_sub_ok om (top + h) top) by (unfold_ints; lia). simpl_outcome.
  replace (top + h - top) with h by lia.
  revert Hu. run_ok; intros Hu; try done; try lia; close_ok.
Qed.

(** C22. Where line 1027 underflows, a debug build panics. *)
Theorem try_center_id_underflow_checked c id :
  0 <= top_line c <= bottom_line c -> bottom_line c <= usize_max ->
  center_underflows (len playlist) (bottom_line c - top_line c) id = true ->
  try_center_id Checked playlist c id = Panic ArithOverflow.
Proof.
  intros Hc Hmax Hu. unfold try_center_id, center_underflows in *.
  open_canvas c. pose proof (len_nonneg playlist).
  set (lc := bot - top) in *.
  assert (lc <= bot) by (subst lc; lia).
  pose proof (half_bounds lc ltac:(subst lc; lia)).
  rewrite (usize_sub_ok _ bot top) by (unfold_ints; lia). simpl_outcome.
  fold lc. revert Hu. case_cmp; cbn [andb]; intros Hu; try done; try lia.
  rewrite (usize_sub_ok _ (len playlist) (lc / 2)) by (unfold_ints; lia). simpl_outcome.
  case_cmp; [|lia].
  unfold usize_sub. by rewrite usize_arith_overflow by (unfold_ints; lia).
Qed.

(** And a release build returns a canvas whose window starts near
    [usize::MAX], far below the selection. *)
Lemma try_center_id_underflow_wrapping c id :
  0 <= top_line c <= bottom_line c -> bottom_line c <= usize_max ->
  center_underflows (len playlist) (bottom_line c - top_line c) id = true ->
  try_center_id Wrapping playlist c id =
    Ok (Some (mkCanvas (len playlist - (bottom_line c - top_line c) + usize_modulus)
                (len playlist) id)).
Proof.
  intros Hc Hmax Hu. unfold try_center_id, center_underflows in *.
  open_canvas c. pose proof (len_nonneg playlist).
  set (lc := bot - top) in *.
  assert (lc <= bot) by (subst lc; lia).
  pose proof (half_bounds lc ltac:(subst lc; lia)).
  rewrite (usize_sub_ok _ bot top) by (unfold_ints; lia). simpl_outcome.
  fold lc. revert Hu. case_cmp; cbn [andb]; intros Hu; try done; try lia.
  rewrite (usize_sub_ok _ (len playlist) (lc / 2)) by (unfold_ints; lia). simpl_outcome.
  case_cmp; [|lia].
  unfold usize_sub. rewrite usize_arith_overflow by (unfold_ints; lia).
  cbn [overflow]. simpl_outcome. by rewrite wrap_usize_neg by (unfold_ints; lia).
Qed.

(** A target past the end is refused (when the canvas itself is sane). *)
Lemma try_center_id_out_of_range c id :
  0 <= top_line c <= bottom_line c -> bottom_line c <= usize_max ->
  len playlist <= id -> try_center_id om playlist c id = Ok None.
Proof.
  intros Hc Hmax Hid. unfold try_center_id. open_canvas c.
  rewrite (usize_sub_ok om bot top) by (unfold_ints; lia). simpl_outcome.
  by destruct (Z.ltb_spec id (len playlist)); [lia|].
Qed.

End Center.

(** ** The currently playing entry *)

Lemma first_current_Some playlist start i :
  first_current playlist start = Some i ->
  exists (k : nat) e, i = start + Z.of_nat k /\ playlist !! k = Some e /\
    PlaylistEntry.current e = true /\
    forall (j : nat) e', (j < k)%nat -> playlist !! j = Some e' ->
      PlaylistEntry.current e' = false.
Proof.
  revert start. induction playlist as [|e rest IH]; intros start; cbn [first_current]; [done|].
  destruct (PlaylistEntry.current e) eqn:He.
  - intros [= <-]. exists 0%nat, e. repeat split; [lia | done | lia].
  - intros (k & e1 & -> & Hk & Hcur & Hbefore)%IH.
    exists (S k), e1. repeat split; [lia | done | done |].
    intros [|j] e' Hj; cbn; [by intros [= <-] | apply Hbefore; lia].
Qed.

Lemma first_current_None playlist start :
  first_current playlist start = None <->
  Forall (fun e => PlaylistEntry.current e = false) playlist.
Proof.
  revert start. induction playlist as [|e rest IH]; intros start; cbn [first_current].
  - split; [constructor | done].
  - rewrite Forall_cons. destruct (PlaylistEntry.current e).
    + split; [done | by intros [? _]].
    + rewrite IH. tauto.
Qed.

Lemma first_current_lookup playlist (k : nat) e :
  at_most_one_current playlist -> playlist !! k = Some e ->
  PlaylistEntry.current e = true -> first_current playlist 0 = Some (Z.of_nat k).
Proof.
  intros Huniq Hk Hcur. destruct (first_current playlist 0) as [i|] eqn:Hfc.
  - apply first_current_Some in Hfc as (k' & e' & -> & Hk' & Hcur' & _).
    by rewrite (Huniq k' k e' e).
  - apply first_current_None in Hfc. rewrite Forall_lookup in Hfc.
    specialize (Hfc k e Hk). congruence.
Qed.

(** [jump_to_current] centres on the entry that is playing, and on row 0
    when none is. *)
Theorem jump_to_current_centers om playlist c :
  at_most_one_current playlist ->
  (forall (k : nat) e, playlist !! k = Some e -> PlaylistEntry.current e = true ->
     jump_to_current om playlist c = try_center_id om playlist c (Z.of_nat k)) /\
  (Forall (fun e => PlaylistEntry.current e = false) playlist ->
     jump_to_current om playlist c = try_center_id om playlist c 0).
Proof.
  intros Huniq. unfold jump_to_current. split.
  - intros k e Hk Hcur. by rewrite (first_current_lookup playlist k e).
  - intros Hnone. apply first_current_None with (start := 0) in Hnone. by rewrite Hnone.
Qed.

(** ** The examples of the specification *)

(** Playlist of 100 rows, window of 20: centring on 5, 95 and 50 gives
    the windows [0,20), [80,100) and [40,60); centring on 100 gives nothing. *)
Example try_center_id_examples om :
  let pl := sample_playlist 100 in
  let c := mkCanvas 0 20 0 in
  try_center_id om pl c 5 = Ok (Some (mkCanvas 0 20 5)) /\
  try_center_id om pl c 95 = Ok (Some (mkCanvas 80 100 95)) /\
  try_center_id om pl c 50 = Ok (Some (mkCanvas 40 60 50)) /\
  try_center_id om pl c 100 = Ok None.
Proof. destruct om; vm_compute; auto. Qed.

(** Fifteen rows in a window of twenty, target 12: line 1027 computes
    [15 - 20]. *)
Example try_center_id_short_playlist :
  try_center_id Checked (sample_playlist 15) (mkCanvas 0 20 0) 12
    = Panic ArithOverflow /\
  try_center_id Wrapping (sample_playlist 15) (mkCanvas 0 20 0) 12
    = Ok (Some (mkCanvas 18446744073709551611 15 12)).
Proof. by vm_compute. Qed.

(** Keys that arrive faster than redraws: [bottom_line] is only
    recomputed by the render loop, so after 21 arrow-downs with no redraw in
    a window of 20 rows the selection (row 21) is below the rows [1,21) that
    the next redraw shows, and a page-down after 90 arrow-downs selects row
    110 of a playlist of 100. *)
Example stale_bottom_line om :
  let pl := sample_playlist 100 in
  let c := mkCanvas 0 20 0 in
  nav_run om 20 pl (replicate 21 Down) c = Ok (mkCanvas 1 20 21) /\
  ~ visible 20 100 (mkCanvas 1 20 21) /\
  nav_run om 20 pl (replicate 90 Down ++ [PageDown]) c = Ok (mkCanvas 21 20 110).
Proof.
  destruct om; (split; [by vm_compute|]); (split; [|by vm_compute]);
    unfold visible; cbn; lia.
Qed.

Lemma at_most_one_current_none playlist :
  Forall (fun e => PlaylistEntry.current e = false) playlist ->
  at_most_one_current playlist.
Proof.
  intros Hnone i j e f Hi _ He _. rewrite Forall_lookup in Hnone.
  specialize (Hnone i e Hi). congruence.
Qed.

Lemma sample_playlist_no_current n :
  Forall (fun e => PlaylistEntry.current e = false) (sample_playlist n).
Proof.
  unfold sample_playlist. generalize 0.
  induction n as [|n IH]; intros start; cbn; constructor; [done | apply IH].
Qed.

(** ** Witnesses *)

Lemma try_center_id_refines_witness :
  try_center_id Checked (sample_playlist 100) (mkCanvas 0 20 0) 50 =
    Ok (canvas_of_window 50 <$>
          spec_center (len (sample_playlist 100)) (20 - 0) 50).
Proof.
  apply (try_center_id_refines Checked (sample_playlist 100) (mkCanvas 0 20 0) 50);
    by_compute.
Defined.


Lemma nav_step_visible_witness :
  exists c', nav_step Wrapping 20 (sample_playlist 100) Down (mkCanvas 30 50 49) = Ok c' /\
    visible 20 (len (sample_playlist 100)) c'.
Proof.
  apply (nav_step_visible Wrapping 20 (sample_playlist 100)).
  - by_compute.
  - by_decide.
Defined.

Lemma try_center_id_view_inv_witness :
  exists c', try_center_id Checked (sample_playlist 100) (mkCanvas 0 21 0) 90 = Ok (Some c') /\
    view_inv 21 (len (sample_playlist 100)) c' /\ selected_line c' = 90.
Proof.
  apply (try_center_id_view_inv Checked (sample_playlist 100) 21 (mkCanvas 0 21 0) 90);
    by_compute.
Defined.

Lemma try_center_id_underflow_checked_witness :
  try_center_id Checked (sample_playlist 15) (mkCanvas 0 20 0) 12 = Panic ArithOverflow.
Proof.
  apply (try_center_id_underflow_checked (sample_playlist 15) (mkCanvas 0 20 0) 12);
    by_compute.
Defined.

Lemma nav_empty_playlist_witness :
  nav_step Checked 20 [] Down (mkCanvas 0 20 0) = Panic ArithOverflow /\
  exists c', nav_step Wrapping 20 [] Down (mkCanvas 0 20 0) = Ok c' /\ 0 < selected_line c'.
Proof.
  apply (nav_empty_playlist 20 (mkCanvas 0 20 0) Down); try by_compute. by left.
Defined.

Lemma jump_to_current_centers_witness :
  (forall (k : nat) e, sample_playlist 3 !! k = Some e -> PlaylistEntry.current e = true ->
     jump_to_current Checked (sample_playlist 3) (mkCanvas 0 20 0) =
     try_center_id Checked (sample_playlist 3) (mkCanvas 0 20 0) (Z.of_nat k)) /\
  (Forall (fun e => PlaylistEntry.current e = false) (sample_playlist 3) ->
     jump_to_current Checked (sample_playlist 3) (mkCanvas 0 20 0) =
     try_center_id Checked (sample_playlist 3) (mkCanvas 0 20 0) 0).
Proof.
  apply (jump_to_current_centers Checked (sample_playlist 3) (mkCanvas 0 20 0)).
  apply at_most_one_current_none, sample_playlist_no_current.
Defined.
