(* ===== verification/Search.v ===== *)
(** * Search: the playlist search

    - [search_playlist] (main.rs 1002-1011) collects the ids of the entries
      whose file name or title contains the pattern;
    - [key_n] (main.rs 486-512) is the arm of the input listener that moves
      to the next match: it advances the cursor of [search_results] cyclically
      and centres the window on the match;
    - [search_key] (main.rs 564-643) is one iteration of the prompt loop that
      [/] enters, and [search_loop] (main.rs 555-644) runs it over the keys
      that [getch] returns until [Enter] or [Esc] leaves the loop.

    A handler returns the new values of the records it writes and the list of
    requests it sends, in the order of the sends. *)

From Stdlib Require Import ZArith Lia String Sorted.
From stdpp Require Import prelude strings.
From S2P Require Import Prelude.
From S2P Require Import Float64.
From S2P Require Import Utf8.
From S2P Require Import Types.
From S2P Require Import Viewport.

#[local] Open Scope Z_scope.
#[local] Open Scope rust_scope.

(** ** The code *)

(** The test of main.rs 1005. *)
Definition entry_matches (search_pattern : string) (entry : PlaylistEntry.t) : bool :=
  contains (PlaylistEntry.filename entry) search_pattern ||
  contains (PlaylistEntry.title entry) search_pattern.

(** main.rs 1002-1011. *)
Fixpoint search_playlist (playlist : Playlist) (search_pattern : string) : list Z :=
  match playlist with
  | [] => []
  | entry :: rest =>
      if entry_matches search_pattern entry
      then PlaylistEntry.id entry :: search_playlist rest search_pattern
      else search_playlist rest search_pattern
  end.

(** What a handler of the input listener returns: the two records and the
    requests sent. *)
Definition handled : Type := Player * PlaylistCanvas * list Repaint.t.

Section Code.
Context (om : overflow_mode).

(** main.rs 491-495: the new cursor. *)
Definition next_cursor (count cursor : Z) : outcome Z :=
  last <- usize_sub om count 1 ;;
  if cursor <? last then usize_add om cursor 1 else Ok 0.

(** main.rs 486-512, key [n].  The cursor is stored before the window is
    computed, so it advances even when centring returns [None]. *)
Definition key_n (player : Player) (canvas : PlaylistCanvas) : outcome handled :=
  let results := (search_results player).1 in
  if 0 <? len results then
    cursor <- next_cursor (len results) (search_results player).2 ;;
    let player := set_search_results (results, cursor) player in
    target <- vec_index results cursor ;;
    new_canvas <- try_center_id om (playlist player) canvas target ;;
    match new_canvas with
    | Some new_canvas => Ok (player, new_canvas, [repaint_list])
    | None => Ok (player, canvas, [])
    end
  else Ok (player, canvas, []).

(** The text of the prompt, [format!("Search: {}", search_string)]. *)
Definition prompt_text (search_string : string) : string :=
  "Search: " +:+ search_string.

Definition status_message (text : string) : Repaint.t :=
  Repaint.StatusBar (UpdateStatusBar.Message text Formatting.Normal).

Definition status_clear : Repaint.t := Repaint.StatusBar UpdateStatusBar.Clear.

(** main.rs 571-616, [Enter] in the prompt. *)
Definition search_commit (search_string : string) (player : Player)
    (canvas : PlaylistCanvas) : outcome handled :=
  if String.eqb search_string "" then
    Ok (set_search_results ([], 0) player, canvas, [status_clear])
  else
    let result := (search_playlist (playlist player) search_string, 0) in
    let match_count := len result.1 in
    if 0 <? usize_as_i32 match_count then
      target <- vec_index result.1 result.2 ;;
      new_canvas <- try_center_id om (playlist player) canvas target ;;
      match new_canvas with
      | Some new_canvas =>
          Ok (set_search_results result player, new_canvas,
              [repaint_list; status_clear])
      | None => Ok (set_search_results result player, canvas, [])
      end
    else
      Ok (set_search_results result player, canvas,
          [status_message "Search pattern not found"]).

(** main.rs 564-643, one key in the prompt.  The first component is the
    pattern with which the loop continues, [None] when the loop is left. *)
Definition search_key (ch : Z) (search_string : string) (player : Player)
    (canvas : PlaylistCanvas) : outcome (option string * handled) :=
  if ch =? KEY_ESC then
    Ok (None, (player, canvas, [status_clear]))
  else if ch =? KEY_ENTER then
    r <- search_commit search_string player canvas ;;
    Ok (None, r)
  else if ch =? KEY_BACKSPACE then
    let search_string := pop search_string in
    Ok (Some search_string,
        (player, canvas, [status_clear; status_message (prompt_text search_string)]))
  else
    c <- unwrap (char_from_u32 (i32_as_u32 ch)) ;;
    let search_string := push search_string c in
    Ok (Some search_string,
        (player, canvas, [status_message (prompt_text search_string)])).

(** main.rs 555-644: the prompt from the first request to the end of the
    loop, over the keys [getch] returns.  The result holds the keys that were
    not consumed; [None] for the pattern means the loop was left. *)
Fixpoint search_loop (keys : list Z) (search_string : string) (player : Player)
    (canvas : PlaylistCanvas) (sent : list Repaint.t)
  : outcome (option string * handled * list Z) :=
  match keys with
  | [] => Ok (Some search_string, (player, canvas, sent), [])
  | ch :: keys' =>
      r <- search_key ch search_string player canvas ;;
      let '(next, (player', canvas', sent')) := r in
      match next with
      | Some search_string' =>
          search_loop keys' search_string' player' canvas' (sent ++ sent')
      | None => Ok (None, (player', canvas', sent ++ sent'), keys')
      end
  end.

(** main.rs 554-645, key [/]: the prompt is announced, then the loop runs on
    an empty pattern. *)
Definition key_slash (keys : list Z) (player : Player) (canvas : PlaylistCanvas)
  : outcome (option string * handled * list Z) :=
  search_loop keys "" player canvas [status_message "Search:"].

End Code.

(** Entries numbered by position from [start]. *)
Definition numbered_from (start : Z) (playlist : Playlist) : Prop :=
  forall (i : nat) e, playlist !! i = Some e -> PlaylistEntry.id e = start + Z.of_nat i.

(** A player of 100 entries, and one of the three titles of the
    specification's example, for the examples below. *)
Definition sample_player (results : list Z) (cursor : Z) : Player :=
  mkPlayer f64_zero false false None (sample_playlist 100) (results, cursor)
    f64_zero f64_zero f64_zero.

Definition alpha_player : Player :=
  mkPlayer f64_zero false false None
    (playlist_of_titles 0 ["Alpha"; "Beta"; "Alphabet"]%string) ([], 0)
    f64_zero f64_zero f64_zero.

(** ** Lemmas: [search_playlist] *)

(** [search_playlist] is a filter on [entry_matches]. *)
Lemma search_playlist_matches playlist search_pattern :
  search_playlist playlist search_pattern =
    PlaylistEntry.id <$> filter (fun e => entry_matches search_pattern e = true) playlist.
Proof.
  induction playlist as [|e rest IH]; [done|].
  cbn [search_playlist]. rewrite filter_cons.
  destruct (entry_matches search_pattern e) eqn:He.
  - rewrite decide_True by done. cbn. by rewrite IH.
  - rewrite decide_False by congruence. done.
Qed.

(** C10. [search_playlist] returns the ids of exactly the entries whose file
    name or title contains the pattern, in playlist order. *)
Theorem search_playlist_filter playlist search_pattern :
  search_playlist playlist search_pattern =
    PlaylistEntry.id <$>
      filter (fun e => contains (PlaylistEntry.filename e) search_pattern = true \/
                       contains (PlaylistEntry.title e) search_pattern = true)
        playlist.
Proof.
  rewrite search_playlist_matches. f_equal. apply list_filter_iff.
  intros e. unfold entry_matches. apply orb_true_iff.
Qed.

Lemma entry_matches_spec search_pattern e :
  entry_matches search_pattern e = true <->
  (exists pre post, PlaylistEntry.filename e = pre +:+ search_pattern +:+ post) \/
  (exists pre post, PlaylistEntry.title e = pre +:+ search_pattern +:+ post).
Proof. unfold entry_matches. by rewrite orb_true_iff, !contains_spec. Qed.

Lemma search_playlist_elem playlist search_pattern i :
  i ∈ search_playlist playlist search_pattern <->
  exists e, e ∈ playlist /\ PlaylistEntry.id e = i /\
    entry_matches search_pattern e = true.
Proof.
  rewrite search_playlist_matches, list_elem_of_fmap. split.
  - intros (e & -> & [He Hin]%list_elem_of_filter). eauto.
  - intros (e & Hin & <- & He). exists e. split; [done|]. by apply list_elem_of_filter.
Qed.

Lemma search_playlist_len playlist search_pattern :
  len (search_playlist playlist search_pattern) <= len playlist.
Proof.
  unfold len. rewrite search_playlist_matches, length_fmap.
  pose proof (length_filter (fun e => entry_matches search_pattern e = true) playlist). lia.
Qed.

(** With entries numbered by position, a result is a valid row. *)
Lemma search_playlist_bound playlist search_pattern i :
  playlist_wf playlist -> i ∈ search_playlist playlist search_pattern ->
  0 <= i < len playlist.
Proof.
  intros Hwf (e & Hin & <- & _)%search_playlist_elem.
  apply list_elem_of_lookup in Hin as [k Hk].
  rewrite (Hwf k e Hk). apply lookup_lt_Some in Hk. unfold len. lia.
Qed.

(** The empty pattern matches every entry: the guard of line 573 is what
    makes an empty search return nothing. *)
Lemma search_playlist_empty_pattern playlist :
  search_playlist playlist "" = PlaylistEntry.id <$> playlist.
Proof.
  induction playlist as [|e rest IH]; [done|].
  cbn [search_playlist]. unfold entry_matches. rewrite contains_empty. cbn. by rewrite IH.
Qed.

(** Titles "Alpha", "Beta", "Alphabet" and pattern "Alpha": the matches
    are rows 0 and 2, in this order; the search is case sensitive. *)
Example search_playlist_example :
  let pl := playlist_of_titles 0 ["Alpha"; "Beta"; "Alphabet"]%string in
  search_playlist pl "Alpha" = [0; 2] /\ search_playlist pl "alpha" = [].
Proof. by vm_compute. Qed.

(** ** Lemmas: the cursor *)

(** The cursor of "next match" advances cyclically: over [count]
    results it goes from [cursor] to [(cursor + 1) mod count], in both build
    profiles. *)
Lemma next_cursor_mod om count cursor :
  0 < count <= usize_max -> 0 <= cursor < count ->
  next_cursor om count cursor = Ok ((cursor + 1) mod count).
Proof.
  intros Hcount Hcursor. unfold next_cursor.
  rewrite usize_sub_ok by (unfold_ints; lia). simpl_outcome.
  destruct (Z.ltb_spec cursor (count - 1)).
  - rewrite usize_add_ok by (unfold_ints; lia). by rewrite Z.mod_small by lia.
  - replace (cursor + 1) with count by lia. by rewrite Z.mod_same by lia.
Qed.

(** A stale cursor (at or past the end, after a shorter result list was
    stored) restarts at 0. *)
Lemma next_cursor_stale om count cursor :
  0 < count <= usize_max -> count <= cursor -> next_cursor om count cursor = Ok 0.
Proof.
  intros Hcount Hcursor. unfold next_cursor.
  rewrite usize_sub_ok by (unfold_ints; lia). simpl_outcome.
  by destruct (Z.ltb_spec cursor (count - 1)); [lia|].
Qed.

(** Three results: 0, 1, 2, 0, ... *)
Example next_cursor_cycle om :
  next_cursor om 3 0 = Ok 1 /\ next_cursor om 3 1 = Ok 2 /\ next_cursor om 3 2 = Ok 0.
Proof. by destruct om. Qed.

(** ** Lemmas: order of the results *)

Lemma numbered_from_cons start e rest :
  numbered_from start (e :: rest) ->
  PlaylistEntry.id e = start /\ numbered_from (start + 1) rest.
Proof.
  intros H. split.
  - rewrite (H 0%nat e eq_refl). lia.
  - intros i e' Hi. rewrite (H (S i) e' Hi). lia.
Qed.

Lemma search_playlist_lower_bound start playlist search_pattern i :
  numbered_from start playlist -> i ∈ search_playlist playlist search_pattern ->
  start <= i.
Proof.
  intros Hn (e & Hin & <- & _)%search_playlist_elem.
  apply list_elem_of_lookup in Hin as [k Hk]. rewrite (Hn k e Hk). lia.
Qed.

Lemma search_playlist_sorted_from start playlist search_pattern :
  numbered_from start playlist ->
  StronglySorted Z.lt (search_playlist playlist search_pattern).
Proof.
  revert start. induction playlist as [|e rest IH]; intros start Hn; [constructor|].
  apply numbered_from_cons in Hn as [He Hrest]. cbn [search_playlist].
  destruct (entry_matches search_pattern e); [|by eapply IH].
  constructor; [by eapply IH|].
  apply Forall_forall. intros i Hi.
  pose proof (search_playlist_lower_bound _ _ _ _ Hrest Hi). lia.
Qed.

(** With entries numbered by position, the results are strictly
    ascending (so they hold no id twice) and every result is a row of the
    playlist whose file name or title contains the pattern. *)
Theorem search_playlist_sorted playlist search_pattern :
  playlist_wf playlist ->
  StronglySorted Z.lt (search_playlist playlist search_pattern) /\
  forall i, i ∈ search_playlist playlist search_pattern ->
    exists e, playlist !! Z.to_nat i = Some e /\ 0 <= i < len playlist /\
      (contains (PlaylistEntry.filename e) search_pattern = true \/
       contains (PlaylistEntry.title e) search_pattern = true).
Proof.
  intros Hwf. split.
  - apply (search_playlist_sorted_from 0). intros i e Hi. rewrite (Hwf i e Hi). lia.
  - intros i Hi. pose proof (search_playlist_bound _ _ _ Hwf Hi) as Hb.
    apply search_playlist_elem in Hi as (e & Hin & <- & Hm).
    apply list_elem_of_lookup in Hin as [k Hk].
    exists e. rewrite (Hwf k e Hk), Nat2Z.id. split; [done|]. split; [by rewrite <- (Hwf k e Hk)|].
    by apply orb_true_iff.
Qed.

(** ** Lemmas: key [n] *)

Section KeyN.
Context (om : overflow_mode).

(** Without search results the key does nothing. *)
Lemma key_n_no_results player canvas :
  (search_results player).1 = [] -> key_n om player canvas = Ok (player, canvas, []).
Proof. intros H. unfold key_n. by rewrite H. Qed.

(** C16. Key [n] with results that are rows of the playlist, on a redrawn
    canvas whose window the playlist fills: the cursor moves to the next
    result cyclically, the new canvas selects that result and shows it, and
    one redraw of the list is requested. *)
Theorem key_n_selects_next h player canvas results cursor :
  search_results player = (results, cursor) ->
  0 <= cursor < len results -> len results <= usize_max ->
  Forall (fun i => 0 <= i < len (playlist player)) results ->
  1 <= h <= len (playlist player) -> len (playlist player) <= i32_max ->
  0 <= top_line canvas <= i32_max -> bottom_line canvas = top_line canvas + h ->
  exists target canvas',
    results !! Z.to_nat ((cursor + 1) mod len results) = Some target /\
    key_n om player canvas =
      Ok (set_search_results (results, (cursor + 1) mod len results) player,
          canvas', [repaint_list]) /\
    selected_line canvas' = target /\ view_inv h (len (playlist player)) canvas'.
Proof.
  intros Hsr Hcur Hmax Hres Hh Hlen Htop Hbot. unfold key_n. rewrite Hsr. cbn [fst snd].
  destruct (Z.ltb_spec 0 (len results)); [|lia].
  rewrite next_cursor_mod by lia. simpl_outcome.
  set (cursor' := (cursor + 1) mod len results).
  assert (Hc' : 0 <= cursor' < len results) by (apply Z.mod_pos_bound; lia).
  destruct (lookup_lt_is_Some_2 results (Z.to_nat cursor')) as [target Ht];
    [unfold len in *; lia|].
  unfold vec_index. rewrite Ht. simpl_outcome.
  rewrite Forall_lookup in Hres. specialize (Hres _ _ Ht).
  destruct (try_center_id_view_inv om (playlist player) h canvas target)
    as (canvas' & Hcenter & Hview & Hsel); try (unfold_ints; lia).
  { unfold center_underflows. apply andb_false_intro2, Z.ltb_ge. lia. }
  exists target, canvas'. change (playlist (set_search_results _ player)) with (playlist player).
  rewrite Hcenter. simpl_outcome. done.
Qed.

End KeyN.

(** ** Lemmas: the prompt *)

Section Prompt.
Context (om : overflow_mode).

(** [Enter] on an empty pattern stores an empty result list and clears
    the status bar; [Enter] on a pattern that matches nothing stores an empty
    result list and reports it; neither moves the window. *)
Theorem search_commit_no_match search_string player canvas :
  search_playlist (playlist player) search_string = [] \/ search_string = ""%string ->
  search_commit om search_string player canvas =
    Ok (set_search_results ([], 0) player, canvas,
        [if String.eqb search_string "" then status_clear
         else status_message "Search pattern not found"]).
Proof.
  intros H. unfold search_commit.
  destruct (String.eqb_spec search_string ""); [done|].
  destruct H as [H|H]; [|done]. by rewrite H.
Qed.

(** C27. [Enter] on a pattern that matches, on a redrawn canvas whose
    window the playlist fills: the results are stored with the cursor on the
    first one, the window is centred on it, and a redraw of the list and a
    clearing of the status bar are requested, in this order. *)
Theorem search_commit_match h search_string player canvas first rest :
  search_string <> ""%string -> playlist_wf (playlist player) ->
  search_playlist (playlist player) search_string = first :: rest ->
  1 <= h <= len (playlist player) -> len (playlist player) <= i32_max ->
  0 <= top_line canvas <= i32_max -> bottom_line canvas = top_line canvas + h ->
  exists canvas',
    search_commit om search_string player canvas =
      Ok (set_search_results (first :: rest, 0) player, canvas',
          [repaint_list; status_clear]) /\
    selected_line canvas' = first /\ view_inv h (len (playlist player)) canvas'.
Proof.
  intros Hne Hwf Hres Hh Hlen Htop Hbot. unfold search_commit.
  destruct (String.eqb_spec search_string ""); [done|].
  pose proof (search_playlist_len (playlist player) search_string) as Hle.
  pose proof (search_playlist_bound (playlist player) search_string first Hwf) as Hb.
  rewrite Hres in *. specialize (Hb ltac:(left)).
  cbn [fst snd]. rewrite len_cons in *. pose proof (len_nonneg rest).
  rewrite usize_as_i32_small by (unfold_ints; lia).
  destruct (Z.ltb_spec 0 (len rest + 1)); [|lia].
  change (vec_index (first :: rest) 0) with (Ok first). simpl_outcome.
  destruct (try_center_id_view_inv om (playlist player) h canvas first)
    as (canvas' & -> & Hview & Hsel); try (unfold_ints; lia).
  { unfold center_underflows. apply andb_false_intro2, Z.ltb_ge. lia. }
  by exists canvas'.
Qed.

(** C28. A key code that is no character makes the prompt panic: line 634
    unwraps the conversion of [ch as u32] to a [char].  This is the case of
    every negative code ([getch] returns -1 when it fails), of the
    surrogates and of every code above U+10FFFF. *)
Theorem search_key_invalid_char ch search_string player canvas :
  i32_min <= ch < 0 \/ 55296 <= ch <= 57343 \/ 1114111 < ch <= i32_max ->
  search_key om ch search_string player canvas = Panic UnwrapNone.
Proof.
  intros Hch. unfold search_key, KEY_ESC, KEY_ENTER, KEY_BACKSPACE.
  assert (Hc : char_from_u32 (i32_as_u32 ch) = None).
  { unfold char_from_u32, i32_as_u32. unfold_ints. case_cmp; cbn; try done; lia_div. }
  rewrite Hc. by case_cmp; try lia.
Qed.

(** A character key followed by backspace leaves the pattern as it
    was, and both keys keep the prompt open. *)
Theorem search_key_backspace_undoes ch search_string player canvas :
  0 <= ch <= 1114111 -> ~ (55296 <= ch <= 57343) ->
  ch <> KEY_ESC -> ch <> KEY_ENTER -> ch <> KEY_BACKSPACE ->
  exists typed sent1 sent2,
    search_key om ch search_string player canvas =
      Ok (Some typed, (player, canvas, sent1)) /\
    search_key om KEY_BACKSPACE typed player canvas =
      Ok (Some search_string, (player, canvas, sent2)).
Proof.
  intros Hch Hsur Hesc Henter Hbs. unfold search_key.
  destruct (Z.eqb_spec ch KEY_ESC); [done|].
  destruct (Z.eqb_spec ch KEY_ENTER); [done|].
  destruct (Z.eqb_spec ch KEY_BACKSPACE); [done|].
  assert (Hu : i32_as_u32 ch = ch) by (unfold i32_as_u32; apply Z.mod_small; lia).
  assert (Hc : char_from_u32 ch = Some ch).
  { unfold char_from_u32. case_cmp; cbn; try done; lia. }
  rewrite Hu, Hc. simpl_outcome. eexists _, _, _. split; [reflexivity|].
  cbn. by rewrite pop_push.
Qed.

(** An arrow key in the prompt is appended to the pattern as U+0103. *)
Example search_key_arrow player canvas :
  search_key om KEY_UP "" player canvas =
    Ok (Some (encode_utf8 259), (player, canvas,
          [status_message (prompt_text (encode_utf8 259))])).
Proof. reflexivity. Qed.

(** [Esc] leaves the prompt and changes nothing. *)
Lemma search_key_esc search_string player canvas :
  search_key om KEY_ESC search_string player canvas =
    Ok (None, (player, canvas, [status_clear])).
Proof. reflexivity. Qed.

End Prompt.

(** The whole prompt on the specification's example: [/], "Alpha", [Enter]
    selects row 0, stores the matches 0 and 2, and consumes the six keys. *)
Example key_slash_example :
  let pl := playlist_of_titles 0 ["Alpha"; "Beta"; "Alphabet"]%string in
  let player := mkPlayer f64_zero false false None pl ([], 0) f64_zero f64_zero f64_zero in
  exists sent,
    key_slash Checked [65; 108; 112; 104; 97; KEY_ENTER; KEY_N] player (mkCanvas 0 2 1) =
      Ok (None, (set_search_results ([0; 2], 0) player, mkCanvas 0 2 0, sent), [KEY_N]) /\
    length sent = 8%nat.
Proof. eexists. split; [by vm_compute | done]. Qed.

(** ** Witnesses *)

Lemma next_cursor_mod_witness : next_cursor Checked 3 2 = Ok ((2 + 1) mod 3).
Proof. apply (next_cursor_mod Checked 3 2); by_compute. Defined.

Lemma search_playlist_sorted_witness :
  let pl := playlist_of_titles 0 ["Alpha"; "Beta"; "Alphabet"]%string in
  StronglySorted Z.lt (search_playlist pl "Alpha") /\
  forall i, i ∈ search_playlist pl "Alpha" ->
    exists e, pl !! Z.to_nat i = Some e /\ 0 <= i < len pl /\
      (contains (PlaylistEntry.filename e) "Alpha" = true \/
       contains (PlaylistEntry.title e) "Alpha" = true).
Proof.
  apply (search_playlist_sorted (playlist_of_titles 0 ["Alpha"; "Beta"; "Alphabet"]%string)).
  apply playlist_of_titles_wf.
Defined.

Lemma key_n_selects_next_witness :
  exists target canvas',
    [5; 50; 95] !! Z.to_nat ((2 + 1) mod len [5; 50; 95]) = Some target /\
    key_n Checked (sample_player [5; 50; 95] 2) (mkCanvas 40 60 50) =
      Ok (set_search_results ([5; 50; 95], (2 + 1) mod len [5; 50; 95])
            (sample_player [5; 50; 95] 2),
          canvas', [repaint_list]) /\
    selected_line canvas' = target /\
    view_inv 20 (len (playlist (sample_player [5; 50; 95] 2))) canvas'.
Proof.
  apply (key_n_selects_next Checked 20 (sample_player [5; 50; 95] 2) (mkCanvas 40 60 50)
           [5; 50; 95] 2); first [reflexivity | by_decide | by_compute].
Defined.

Lemma search_commit_no_match_witness :
  search_commit Checked "zzz" (sample_player [] 0) (mkCanvas 0 20 0) =
    Ok (set_search_results ([], 0) (sample_player [] 0), mkCanvas 0 20 0,
        [if String.eqb "zzz" "" then status_clear
         else status_message "Search pattern not found"]).
Proof.
  apply (search_commit_no_match Checked "zzz" (sample_player [] 0) (mkCanvas 0 20 0)).
  left. by vm_compute.
Defined.

Lemma search_commit_match_witness :
  exists canvas',
    search_commit Checked "Alpha" alpha_player (mkCanvas 0 2 1) =
      Ok (set_search_results ([0; 2], 0) alpha_player, canvas',
          [repaint_list; status_clear]) /\
    selected_line canvas' = 0 /\ view_inv 2 (len (playlist alpha_player)) canvas'.
Proof.
  apply (search_commit_match Checked 2 "Alpha" alpha_player (mkCanvas 0 2 1) 0 [2]);
    first [by_compute | by_decide | apply playlist_of_titles_wf].
Defined.

Lemma search_key_invalid_char_witness :
  search_key Checked (-1) "ab" (sample_player [] 0) (mkCanvas 0 20 0) = Panic UnwrapNone.
Proof. apply (search_key_invalid_char Checked (-1)). left. by_compute. Defined.

Lemma search_key_backspace_undoes_witness :
  exists typed sent1 sent2,
    search_key Checked 97 "ab" (sample_player [] 0) (mkCanvas 0 20 0) =
      Ok (Some typed, (sample_player [] 0, mkCanvas 0 20 0, sent1)) /\
    search_key Checked KEY_BACKSPACE typed (sample_player [] 0) (mkCanvas 0 20 0) =
      Ok (Some "ab"%string, (sample_player [] 0, mkCanvas 0 20 0, sent2)).
Proof.
  apply (search_key_backspace_undoes Checked 97 "ab"); first [by_compute | lia].
Defined.
