(* ===== verification/PrettyTime.v ===== *)
(** * PrettyTime: [get_pretty_time]

    [get_pretty_time] (main.rs 938-979) turns a number of seconds into
    [mm:ss] below one hour and [hh:mm:ss] from there.  The argument is an
    [f64]; the function casts it to [i64] three times and compares it with
    [3600 as f64] once.  The division and the remainder of Rust truncate
    toward zero ([Z.quot], [Z.rem]); none of the [i64] operations can
    overflow, since [hours * 3600] is at most the magnitude of the argument.

    [parse_pretty_time] is the inverse the round-trip theorem is stated
    with; it is not part of the program. *)

From Stdlib Require Import ZArith Lia Ascii String DecimalString.
From stdpp Require Import prelude strings.
From S2P Require Import Prelude.
From S2P Require Import Float64.
From S2P Require Import Utf8.

#[local] Open Scope Z_scope.

(** ** The code *)

(** main.rs 945-949 and its five copies: a field, with a leading zero below
    10.  A negative field is also below 10. *)
Definition two_digits (n : Z) : string :=
  if n <? 10 then "0" +:+ fmt_int n else fmt_int n.

(** main.rs 938-979. *)
Definition get_pretty_time (seconds : f64) : string :=
  let hours := f64_as_i64 seconds `quot` 3600 in
  let mins := (f64_as_i64 seconds - hours * 3600) `quot` 60 in
  let secs := f64_as_i64 seconds `rem` 60 in
  if f64_ltb seconds (f64_of_Z 3600) then
    two_digits mins +:+ ":" +:+ two_digits secs
  else
    two_digits hours +:+ ":" +:+ two_digits mins +:+ ":" +:+ two_digits secs.

(** ** The inverse *)

(** The fields of [s] between colons; [acc] holds the field being read. *)
Fixpoint split_colon (acc s : string) : list string :=
  match s with
  | EmptyString => [acc]
  | String a s' =>
      if Ascii.eqb a ":" then acc :: split_colon EmptyString s'
      else split_colon (acc +:+ String a EmptyString) s'
  end.

Definition parse_pretty_time (s : string) : option Z :=
  match parse_int <$> split_colon EmptyString s with
  | [Some m; Some s] => Some (m * 60 + s)
  | [Some h; Some m; Some s] => Some (h * 3600 + m * 60 + s)
  | _ => None
  end.

(** ** Lemmas: the fields *)

(** No field holds a byte that is no digit and no sign; a colon, for one. *)
Lemma lacks_two_digits c n : numeral_byte c = false -> lacks c (two_digits n) = true.
Proof.
  intros Hc. unfold two_digits. destruct (n <? 10); [|by apply lacks_fmt_int].
  rewrite lacks_app, lacks_fmt_int by done. cbn [lacks].
  by rewrite (numeral_byte_neq c "0" Hc).
Qed.

Lemma no_colon_two_digits n : lacks ":" (two_digits n) = true.
Proof. by apply lacks_two_digits. Qed.

(** The output holds digits, signs and colons only. *)
Lemma lacks_get_pretty_time c seconds :
  numeral_byte c = false -> Ascii.eqb ":" c = false ->
  lacks c (get_pretty_time seconds) = true.
Proof.
  intros Hc Hcolon. unfold get_pretty_time.
  destruct (f64_ltb _ _); rewrite !lacks_app, !lacks_two_digits by done;
    cbn [lacks]; by rewrite Hcolon.
Qed.

(** Below 100 a field has exactly two bytes and reads back as the number. *)
Lemma two_digits_table :
  forallb (fun n => (str_len (two_digits n) =? 2) &&
                    bool_decide (parse_int (two_digits n) = Some n))
    (seqZ 0 100) = true.
Proof. by vm_compute. Qed.

Lemma two_digits_small n :
  0 <= n < 100 -> str_len (two_digits n) = 2 /\ parse_int (two_digits n) = Some n.
Proof.
  intros Hn. pose proof two_digits_table as H.
  rewrite forallb_forall in H. specialize (H n).
  rewrite <- list_elem_of_In, elem_of_seqZ in H. specialize (H ltac:(lia)).
  apply andb_prop in H as [H1 H2].
  split; [by apply Z.eqb_eq | by apply bool_decide_eq_true in H2].
Qed.

Lemma parse_two_digits n : 0 <= n -> parse_int (two_digits n) = Some n.
Proof.
  intros Hn. destruct (Z.lt_ge_cases n 100); [by apply two_digits_small|].
  unfold two_digits. destruct (Z.ltb_spec n 10); [lia|]. apply parse_fmt_int.
Qed.

(** ** Lemmas: splitting *)

Lemma split_colon_field acc s rest :
  lacks ":" s = true ->
  split_colon acc (s +:+ ":" +:+ rest) = (acc +:+ s) :: split_colon EmptyString rest.
Proof.
  revert acc. induction s as [|a s IH]; intros acc Hs.
  - rewrite str_app_nil, str_app_nil_r. reflexivity.
  - cbn [lacks] in Hs. apply andb_prop in Hs as [Ha Hs].
    rewrite str_app_cons. cbn [split_colon].
    destruct (Ascii.eqb a ":"); [done|].
    rewrite (IH _ Hs). by rewrite str_app_assoc.
Qed.

Lemma split_colon_last acc s :
  lacks ":" s = true -> split_colon acc s = [acc +:+ s].
Proof.
  revert acc. induction s as [|a s IH]; intros acc Hs.
  - by rewrite str_app_nil_r.
  - cbn [lacks] in Hs. apply andb_prop in Hs as [Ha Hs]. cbn [split_colon].
    destruct (Ascii.eqb a ":"); [done|].
    rewrite (IH _ Hs). by rewrite str_app_assoc.
Qed.

(** ** Theorems *)

Section Shape.
Context (seconds : f64) (n : Z).
Context (Hcast : f64_as_i64 seconds = n).

(** Reading the output back gives the seconds that were printed, for
    every non-negative number of seconds whose comparison with one hour
    agrees with its integral part. *)
Lemma parse_shape :
  0 <= n -> f64_ltb seconds (f64_of_Z 3600) = (n <? 3600) ->
  parse_pretty_time (get_pretty_time seconds) = Some n.
Proof.
  intros Hn Hlt. unfold get_pretty_time, parse_pretty_time. rewrite Hcast, Hlt.
  destruct (Z.ltb_spec n 3600).
  - rewrite split_colon_field, split_colon_last by apply no_colon_two_digits.
    rewrite !str_app_nil. cbn [fmap list_fmap].
    rewrite !parse_two_digits by lia_div. f_equal. lia_div.
  - rewrite !split_colon_field, split_colon_last by apply no_colon_two_digits.
    rewrite !str_app_nil. cbn [fmap list_fmap].
    rewrite !parse_two_digits by lia_div. f_equal. lia_div.
Qed.

(** Below one hour the output is [mm:ss]: minutes and seconds, each
    with two digits, five bytes in all. *)
Theorem get_pretty_time_minutes :
  0 <= n < 3600 -> f64_ltb seconds (f64_of_Z 3600) = true ->
  get_pretty_time seconds = two_digits (n / 60) +:+ ":" +:+ two_digits (n mod 60) /\
  str_len (get_pretty_time seconds) = 5.
Proof.
  intros Hn Hlt. unfold get_pretty_time. rewrite Hcast, Hlt.
  replace ((n - n `quot` 3600 * 3600) `quot` 60) with (n / 60) by lia_div.
  replace (n `rem` 60) with (n mod 60) by lia_div.
  split; [done|]. rewrite !str_len_app.
  destruct (two_digits_small (n / 60)) as [-> _]; [lia_div|].
  destruct (two_digits_small (n mod 60)) as [-> _]; [lia_div|]. done.
Qed.

(** From one hour on the output is [hh:mm:ss], and it has eight bytes
    below one hundred hours. *)
Theorem get_pretty_time_hours :
  3600 <= n -> f64_ltb seconds (f64_of_Z 3600) = false ->
  get_pretty_time seconds =
    two_digits (n / 3600) +:+ ":" +:+ two_digits (n mod 3600 / 60) +:+ ":" +:+
    two_digits (n mod 60) /\
  (n < 360000 -> str_len (get_pretty_time seconds) = 8).
Proof.
  intros Hn Hlt. unfold get_pretty_time. rewrite Hcast, Hlt.
  replace ((n - n `quot` 3600 * 3600) `quot` 60) with (n mod 3600 / 60) by lia_div.
  replace (n `rem` 60) with (n mod 60) by lia_div.
  replace (n `quot` 3600) with (n / 3600) by lia_div.
  split; [done|]. intros Hmax. rewrite !str_len_app.
  destruct (two_digits_small (n / 3600)) as [-> _]; [lia_div|].
  destruct (two_digits_small (n mod 3600 / 60)) as [-> _]; [lia_div|].
  destruct (two_digits_small (n mod 60)) as [-> _]; [lia_div|]. done.
Qed.

End Shape.

(** C18. Round trip.  For every value an [f64] can hold whose integral part
    is not negative (NaN included, which prints as zero hours), reading the
    output of [get_pretty_time] back as minutes and seconds, or hours,
    minutes and seconds, gives the integral part [seconds as i64] that was
    printed: no field is lost, merged or out of range. *)
Theorem parse_get_pretty_time seconds :
  f64_valid seconds = true -> 0 <= f64_as_i64 seconds ->
  parse_pretty_time (get_pretty_time seconds) = Some (f64_as_i64 seconds).
Proof.
  intros Hv Hn. destruct (decide (seconds = SpecFloat.S754_nan)) as [->|Hnan]; [done|].
  apply parse_shape; [done.. |]. by apply f64_ltb_3600.
Qed.

(** 65 seconds print as "01:05", 3661 as "01:01:01" and 0 as
    "00:00". *)
Example get_pretty_time_examples :
  get_pretty_time (f64_of_Z 65) = "01:05"%string /\
  get_pretty_time (f64_of_Z 3661) = "01:01:01"%string /\
  get_pretty_time f64_zero = "00:00"%string.
Proof. by vm_compute. Qed.

(** A negative number of seconds prints a sign inside the field, and NaN
    prints as zero hours. *)
Example get_pretty_time_negative :
  get_pretty_time (SpecFloat.SFopp (f64_of_Z 5)) = "00:0-5"%string /\
  get_pretty_time SpecFloat.S754_nan = "00:00:00"%string.
Proof. by vm_compute. Qed.

(** ** Witnesses *)

Lemma get_pretty_time_minutes_witness :
  get_pretty_time (f64_of_Z 65) = two_digits (65 / 60) +:+ ":" +:+ two_digits (65 mod 60) /\
  str_len (get_pretty_time (f64_of_Z 65)) = 5.
Proof. apply (get_pretty_time_minutes (f64_of_Z 65) 65); by_compute. Defined.

Lemma get_pretty_time_hours_witness :
  get_pretty_time (f64_of_Z 3661) =
    two_digits (3661 / 3600) +:+ ":" +:+ two_digits (3661 mod 3600 / 60) +:+ ":" +:+
    two_digits (3661 mod 60) /\
  (3661 < 360000 -> str_len (get_pretty_time (f64_of_Z 3661)) = 8).
Proof. apply (get_pretty_time_hours (f64_of_Z 3661) 3661); by_compute. Defined.

Lemma parse_get_pretty_time_witness :
  parse_pretty_time (get_pretty_time (f64_of_Z 3661)) = Some 3661.
Proof. apply (parse_get_pretty_time (f64_of_Z 3661)); by_compute. Defined.
