(* ===== verification/RepaintQueue.v ===== *)
(** * RepaintQueue: the channel of repaint requests

    [mpsc::channel()] (main.rs 130) gives one receiver, held by the render
    loop, and a sender that is cloned for the property observer and for the
    input listener (main.rs 152, 312-317); the main thread keeps its own and
    uses it once (main.rs 685).  The channel is unbounded: [send] never
    blocks, and it fails only when the receiver is gone, which happens only
    when the process ends.  [recv] blocks on an empty channel.

    The channel is a list of requests, each tagged with the thread that sent
    it (a ghost tag: the program does not look at the sender).  [send]
    appends, [recv] takes the head.  A run of the channel is a sequence of
    labelled steps; the list of what was delivered is kept in the state so
    that ordering can be stated.

    The file also holds the [Error] trait of main.rs 88-104 and its instance
    for the sender. *)

From Stdlib Require Import ZArith Lia String.
From stdpp Require Import prelude strings.
From S2P Require Import Prelude.
From S2P Require Import Float64.
From S2P Require Import Types.

#[local] Open Scope Z_scope.

(** ** The channel *)

(** The threads that hold a sender. *)
Inductive producer : Type := PropertyObserver | InputListener | MainThread.

#[export] Instance producer_eq_dec : EqDecision producer.
Proof. solve_decision. Defined.

Definition message : Type := producer * Repaint.t.

(** The requests in flight, oldest first. *)
Definition channel : Type := list message.

(** [tx.send(r)] by thread [p]. *)
Definition send (p : producer) (r : Repaint.t) (ch : channel) : channel :=
  ch ++ [(p, r)].

(** Several sends in a row by the same thread. *)
Definition send_all (p : producer) (rs : list Repaint.t) (ch : channel) : channel :=
  ch ++ ((fun r => (p, r)) <$> rs).

(** [rx.recv()]: [None] stands for a receiver that stays blocked. *)
Definition recv (ch : channel) : option (message * channel) :=
  match ch with
  | [] => None
  | m :: ch' => Some (m, ch')
  end.

(** ** The [Error] trait (main.rs 88-104) *)

(** What a thread does to the outside: send a request, or sleep. *)
Inductive effect : Type :=
| Send (r : Repaint.t)
| Sleep (millis : Z).

#[export] Instance effect_eq_dec : EqDecision effect.
Proof. solve_decision. Defined.

(** [trait Error { fn error(&self, &str); }] *)
Class Error (T : Type) : Type := error : T -> string -> list effect.

(** [std::sync::mpsc::Sender<Repaint>], identified by its owner. *)
Inductive Sender : Type := SenderOf (owner : producer).

(** main.rs 92-104: show the message, sleep 2.5 seconds, clear the bar. *)
#[export] Instance Error_Sender : Error Sender := fun _ msg =>
  [Send (Repaint.StatusBar (UpdateStatusBar.Message msg Formatting.Normal));
   Sleep 2500;
   Send (Repaint.StatusBar UpdateStatusBar.Clear)].

(** The requests among the effects of a handler, in order. *)
Definition sends_of (es : list effect) : list Repaint.t :=
  omap (fun e => match e with Send r => Some r | Sleep _ => None end) es.

(** The time a handler blocks its thread. *)
Definition sleep_of (es : list effect) : Z :=
  foldr (fun e acc => match e with Send _ => acc | Sleep ms => ms + acc end) 0 es.

(** ** Runs of the channel *)

Record chan_state : Type := mkChan {
  delivered : list message;   (* what the render loop has received, in order *)
  pending : channel;          (* what is in flight *)
}.

Definition chan_init : chan_state := mkChan [] [].

Inductive chan_label : Type :=
| LSend (p : producer) (r : Repaint.t)
| LRecv (m : message).

Inductive chan_step : chan_state -> chan_label -> chan_state -> Prop :=
| step_send d q p r :
    chan_step (mkChan d q) (LSend p r) (mkChan d (send p r q))
| step_recv d q m q' :
    recv q = Some (m, q') ->
    chan_step (mkChan d q) (LRecv m) (mkChan (d ++ [m]) q').

Inductive chan_run : chan_state -> list chan_label -> chan_state -> Prop :=
| run_nil s : chan_run s [] s
| run_cons s l s' ls s'' :
    chan_step s l s' -> chan_run s' ls s'' -> chan_run s (l :: ls) s''.

(** The executable step: a [recv] on an empty channel is not enabled. *)
Definition chan_exec (s : chan_state) (l : chan_label) : option chan_state :=
  match l with
  | LSend p r => Some (mkChan (delivered s) (send p r (pending s)))
  | LRecv m =>
      match recv (pending s) with
      | Some (m', q') =>
          if decide (m = m') then Some (mkChan (delivered s ++ [m]) q') else None
      | None => None
      end
  end.

(** A whole run, executed. *)
Fixpoint chan_exec_all (s : chan_state) (ls : list chan_label) : option chan_state :=
  match ls with
  | [] => Some s
  | l :: ls' =>
      match chan_exec s l with
      | Some s' => chan_exec_all s' ls'
      | None => None
      end
  end.

(** The messages sent along a run, in order. *)
Definition sent_in (ls : list chan_label) : list message :=
  omap (fun l => match l with LSend p r => Some (p, r) | LRecv _ => None end) ls.

(** The messages of one producer. *)
Definition from (p : producer) (ms : list message) : list Repaint.t :=
  omap (fun m => if decide (m.1 = p) then Some m.2 else None) ms.

(** ** Lemmas *)

Lemma chan_exec_step s l s' : chan_exec s l = Some s' <-> chan_step s l s'.
Proof.
  destruct s as [d q]. split.
  - destruct l as [p r|m]; cbn.
    + intros [= <-]. constructor.
    + destruct q as [|m' q']; cbn; [done|].
      case_decide; [|done]. intros [= <-]. subst. by constructor.
  - intros H. inversion H; subst; cbn; [done|].
    destruct q as [|m' q'']; cbn in *; [done|]. simplify_eq. by rewrite decide_True.
Qed.

Lemma chan_exec_all_run s ls s' : chan_exec_all s ls = Some s' <-> chan_run s ls s'.
Proof.
  split.
  - revert s. induction ls as [|l ls IH]; intros s; cbn.
    + intros [= <-]. constructor.
    + destruct (chan_exec s l) as [s1|] eqn:Hs; [|done].
      intros H. econstructor; [by apply chan_exec_step | by apply IH].
  - induction 1 as [|s l s1 ls s2 Hstep _ IH]; cbn; [done|].
    apply chan_exec_step in Hstep. by rewrite Hstep.
Qed.

Lemma chan_run_app s ls s' ls' s'' :
  chan_run s ls s' -> chan_run s' ls' s'' -> chan_run s (ls ++ ls') s''.
Proof. induction 1; cbn; [done|]. intros. econstructor; eauto. Qed.

Lemma sent_in_app ls ls' : sent_in (ls ++ ls') = sent_in ls ++ sent_in ls'.
Proof. apply omap_app. Qed.

Lemma from_app p ms ms' : from p (ms ++ ms') = from p ms ++ from p ms'.
Proof. apply omap_app. Qed.

Lemma from_send_all p rs : from p ((fun r => (p, r)) <$> rs) = rs.
Proof.
  induction rs as [|r rs IH]; [done|].
  cbn. rewrite decide_True by done. cbn. by f_equal.
Qed.

Lemma from_send_all_other p p' rs : p <> p' -> from p ((fun r => (p', r)) <$> rs) = [].
Proof.
  intros Hne. induction rs as [|r rs IH]; [done|].
  cbn. by rewrite decide_False by (cbn; congruence).
Qed.

(** One step keeps "delivered, then pending" equal to what was sent. *)
Lemma chan_step_log s l s' :
  chan_step s l s' ->
  delivered s' ++ pending s' = (delivered s ++ pending s) ++ sent_in [l].
Proof.
  inversion 1; subst; cbn [delivered pending sent_in omap].
  - unfold send. by rewrite app_assoc.
  - destruct q as [|m' q'']; cbn in *; simplify_eq.
    by rewrite app_nil_r, <- app_assoc.
Qed.

(** A run keeps "delivered, then pending" equal to what it started with
    followed by what was sent. *)
Lemma chan_run_log s0 ls s :
  chan_run s0 ls s ->
  delivered s ++ pending s = (delivered s0 ++ pending s0) ++ sent_in ls.
Proof.
  induction 1 as [s|s l s' ls s'' Hstep _ IH].
  - by rewrite app_nil_r.
  - rewrite IH, (chan_step_log _ _ _ Hstep), <- app_assoc.
    by rewrite <- sent_in_app.
Qed.



(** Nothing stays in flight for ever: from any state, as many receives
    as there are pending requests deliver all of them, in order. *)
Theorem chan_drain s :
  exists ls, length ls = length (pending s) /\
    chan_run s ls (mkChan (delivered s ++ pending s) []).
Proof.
  destruct s as [d q]. revert d. induction q as [|m q IH]; intros d; cbn [delivered pending].
  - exists []. rewrite app_nil_r. split; [done | constructor].
  - destruct (IH (d ++ [m])) as (ls & Hlen & Hrun).
    exists (LRecv m :: ls). split; [cbn; by rewrite Hlen|].
    econstructor; [by constructor|].
    cbn [delivered pending] in Hrun. by rewrite <- app_assoc in Hrun.
Qed.

(** A receive is enabled exactly when a request is in flight. *)
Lemma recv_enabled ch : is_Some (recv ch) <-> ch <> [].
Proof. destruct ch; cbn; split; (done || eauto). Qed.

(** A handler's sends arrive in the order of the handler. *)
Lemma send_all_from p rs ch : from p (send_all p rs ch) = from p ch ++ rs.
Proof. unfold send_all. by rewrite from_app, from_send_all. Qed.

Lemma send_all_cons p r rs ch : send_all p (r :: rs) ch = send_all p rs (send p r ch).
Proof. unfold send_all, send. cbn. by rewrite <- app_assoc. Qed.

(** ** Lemmas: the [Error] instance *)

(** Reporting an error sends the message, blocks the calling thread for
    2500 ms and then clears the status bar. *)
Lemma error_sender owner (msg : string) :
  sends_of (error (SenderOf owner) msg) =
    [Repaint.StatusBar (UpdateStatusBar.Message msg Formatting.Normal);
     Repaint.StatusBar UpdateStatusBar.Clear] /\
  sleep_of (error (SenderOf owner) msg) = 2500.
Proof. done. Qed.

(** ** Witnesses *)


