(* ===== verification/PropertyListener.v ===== *)
(** * PropertyListener: the property observer thread

    The thread of main.rs 151-303 subscribes to eight properties of mpv and
    then loops for ever: it waits for an event, and for a property change it
    stores the new value in the shared [Player] and sends repaint requests
    (main.rs 178-300).

    [on_event] is the body of the loop for one event.  It returns the new
    [Player] and the requests sent, in order.  Every access to the record
    takes the lock for one statement; the only other writer of the fields
    written here is the input listener (keys [u] and [n], and the prompt),
    so the function is what the thread does when it is not interleaved with
    that writer between two of its statements.

    [observer_loop] runs the body on the results of [event_listen]; a result
    that is an error makes line 179 panic. *)

From Stdlib Require Import ZArith Lia String.
From stdpp Require Import prelude strings gmap.
From S2P Require Import Prelude.
From S2P Require Import Float64.
From S2P Require Import Types.

#[local] Open Scope Z_scope.
#[local] Open Scope rust_scope.

(** ** The code *)

Definition blinking (text : string) : Repaint.t :=
  Repaint.StatusBar (UpdateStatusBar.Message text Formatting.Blinking).

(** main.rs 183-194. *)
Definition on_duration (data : MpvDataType.t) (player : Player)
  : Player * list Repaint.t :=
  match data with
  | MpvDataType.Double f =>
      (set_duration f player, [Repaint.StatusBar UpdateStatusBar.Time])
  | MpvDataType.Null =>
      (set_time_pos f64_zero (set_duration f64_zero player),
       [Repaint.StatusBar UpdateStatusBar.Clear])
  | _ => (player, [])
  end.

(** main.rs 196-210. *)
Definition on_metadata (data : MpvDataType.t) (player : Player)
  : Player * list Repaint.t :=
  match data with
  | MpvDataType.HashMap metadata =>
      (set_metadata (Some metadata) player, [Repaint.TopBar UpdateTopBar.Metadata])
  | MpvDataType.Null =>
      (set_metadata None player,
       [Repaint.TopBar UpdateTopBar.Clear; Repaint.TopBar UpdateTopBar.Speed;
        Repaint.TopBar UpdateTopBar.Volume])
  | _ => (player, [])
  end.

(** main.rs 212-231. *)
Definition on_mute (data : MpvDataType.t) (player : Player)
  : Player * list Repaint.t :=
  match data with
  | MpvDataType.Bool muted =>
      (set_is_muted muted player,
       [if muted then blinking "Muted" else blinking "     "])
  | _ => (player, [])
  end.

(** main.rs 233-249. *)
Definition on_pause (data : MpvDataType.t) (player : Player)
  : Player * list Repaint.t :=
  match data with
  | MpvDataType.Bool paused =>
      (set_is_paused paused player,
       [if paused then blinking "Paused"
        else Repaint.StatusBar UpdateStatusBar.Clear])
  | _ => (player, [])
  end.

(** main.rs 251-257. *)
Definition on_speed (data : MpvDataType.t) (player : Player)
  : Player * list Repaint.t :=
  match data with
  | MpvDataType.Double f =>
      (set_speed f player, [Repaint.TopBar UpdateTopBar.Speed])
  | _ => (player, [])
  end.

(** main.rs 259-265. *)
Definition on_time_pos (data : MpvDataType.t) (player : Player)
  : Player * list Repaint.t :=
  match data with
  | MpvDataType.Double f =>
      (set_time_pos f player, [Repaint.StatusBar UpdateStatusBar.Time])
  | _ => (player, [])
  end.

(** main.rs 267-285: a playlist of another length clears the pane and
    scrolls to the top, one of the same length is redrawn in place. *)
Definition on_playlist (data : MpvDataType.t) (player : Player)
  : Player * list Repaint.t :=
  match data with
  | MpvDataType.Playlist pl =>
      if negb (len (playlist player) =? len pl)
      then (set_playlist pl player, [Repaint.Playlist true true])
      else (set_playlist pl player, [Repaint.Playlist false false])
  | _ => (player, [])
  end.

(** main.rs 287-293. *)
Definition on_volume (data : MpvDataType.t) (player : Player)
  : Player * list Repaint.t :=
  match data with
  | MpvDataType.Double f =>
      (set_volume f player, [Repaint.TopBar UpdateTopBar.Volume])
  | _ => (player, [])
  end.

(** main.rs 180-298: the dispatch on the event and on the observer id. *)
Definition on_event (event : Event.t) (player : Player) : Player * list Repaint.t :=
  match event with
  | Event.PropertyChange id data =>
      if id =? OBS_ID_DURATION then on_duration data player
      else if id =? OBS_ID_METADATA then on_metadata data player
      else if id =? OBS_ID_MUTE then on_mute data player
      else if id =? OBS_ID_PAUSE then on_pause data player
      else if id =? OBS_ID_SPEED then on_speed data player
      else if id =? OBS_ID_TIME_POS then on_time_pos data player
      else if id =? OBS_ID_PLAYLIST then on_playlist data player
      else if id =? OBS_ID_VOLUME then on_volume data player
      else (player, [])
  | Event.Other => (player, [])
  end.

(** main.rs 178-300: the loop over the results of [event_listen]; [None]
    is an error of the IPC connection, which line 179 unwraps. *)
Fixpoint observer_loop (results : list (option Event.t)) (player : Player)
    (sent : list Repaint.t) : outcome (Player * list Repaint.t) :=
  match results with
  | [] => Ok (player, sent)
  | None :: _ => Panic UnwrapErr
  | Some event :: rest =>
      let '(player', sent') := on_event event player in
      observer_loop rest player' (sent ++ sent')
  end.

(** The fields of [Player] a notification can write. *)
Inductive field : Type :=
| FDuration | FIsMuted | FIsPaused | FMetadata | FPlaylist | FSpeed | FTimePos | FVolume.

(** The fields that differ between two records. *)
Definition differs (f : field) (p q : Player) : Prop :=
  match f with
  | FDuration => duration p <> duration q
  | FIsMuted => is_muted p <> is_muted q
  | FIsPaused => is_paused p <> is_paused q
  | FMetadata => metadata p <> metadata q
  | FPlaylist => playlist p <> playlist q
  | FSpeed => speed p <> speed q
  | FTimePos => time_pos p <> time_pos q
  | FVolume => volume p <> volume q
  end.

(** The fields the notification with observer id [id] may write. *)
Definition fields_of (id : Z) : list field :=
  if id =? OBS_ID_DURATION then [FDuration; FTimePos]
  else if id =? OBS_ID_METADATA then [FMetadata]
  else if id =? OBS_ID_MUTE then [FIsMuted]
  else if id =? OBS_ID_PAUSE then [FIsPaused]
  else if id =? OBS_ID_SPEED then [FSpeed]
  else if id =? OBS_ID_TIME_POS then [FTimePos]
  else if id =? OBS_ID_PLAYLIST then [FPlaylist]
  else if id =? OBS_ID_VOLUME then [FVolume]
  else [].

(** The pane that shows a field. *)
Definition pane_of_field (f : field) : pane :=
  match f with
  | FDuration | FTimePos | FIsMuted | FIsPaused => StatusPane
  | FMetadata | FSpeed | FVolume => TopPane
  | FPlaylist => ListPane
  end.

(** ** Lemmas *)

(** Case analysis on the observer id of a notification. *)
Ltac case_id id :=
  unfold on_event, fields_of;
  destruct (Z.eqb_spec id OBS_ID_DURATION); [subst|];
  [|destruct (Z.eqb_spec id OBS_ID_METADATA); [subst|];
  [|destruct (Z.eqb_spec id OBS_ID_MUTE); [subst|];
  [|destruct (Z.eqb_spec id OBS_ID_PAUSE); [subst|];
  [|destruct (Z.eqb_spec id OBS_ID_SPEED); [subst|];
  [|destruct (Z.eqb_spec id OBS_ID_TIME_POS); [subst|];
  [|destruct (Z.eqb_spec id OBS_ID_PLAYLIST); [subst|];
  [|destruct (Z.eqb_spec id OBS_ID_VOLUME); [subst|]]]]]]]].

Ltac case_data data :=
  unfold on_duration, on_metadata, on_mute, on_pause, on_speed, on_time_pos,
    on_playlist, on_volume;
  destruct data as [?|?|?|?| |?|?]; cbn [fst snd].

(** C35. A notification writes only the fields of its property: the
    duration notification may also reset the position, every other one
    writes one field, and none touches the search results. *)
Theorem on_event_frame id data player f :
  differs f (on_event (Event.PropertyChange id data) player).1 player ->
  f ∈ fields_of id /\
  search_results (on_event (Event.PropertyChange id data) player).1
    = search_results player.
Proof.
  intros Hd. split.
  - revert Hd. case_id id; cbn; case_data data;
      try (destruct (negb _)); destruct f; cbn; intros Hd;
      try done; set_solver.
  - case_id id; cbn; case_data data; try done; by destruct (negb _).
Qed.

(** C11. No silent change: whenever a notification changes the record, a
    request is sent for the pane that shows the changed field. *)
Theorem on_event_signals id data player f :
  differs f (on_event (Event.PropertyChange id data) player).1 player ->
  exists r, r ∈ (on_event (Event.PropertyChange id data) player).2 /\
    pane_of r = pane_of_field f.
Proof.
  case_id id; cbn; case_data data;
    repeat match goal with |- context [if ?b then _ else _] => destruct b end;
    destruct f; cbn; intros Hd; try done;
    eexists; (split; [apply list_elem_of_here | done]).
Qed.

(** A playlist notification always stores the new playlist; it asks
    for a cleared pane scrolled to the top exactly when the length changed,
    and for a redraw in place otherwise. *)
Theorem on_playlist_spec pl player :
  on_event (Event.PropertyChange OBS_ID_PLAYLIST (MpvDataType.Playlist pl)) player =
    (set_playlist pl player,
     [Repaint.Playlist (bool_decide (length (playlist player) <> length pl))
                       (bool_decide (length (playlist player) <> length pl))]).
Proof.
  cbn. destruct (Z.eqb_spec (len (playlist player)) (len pl)) as [H|H];
    unfold len in H; cbn.
  - by rewrite bool_decide_eq_false_2 by lia.
  - by rewrite bool_decide_eq_true_2 by lia.
Qed.

(** The end of a file: mpv reports no duration; duration and position are
    both reset and the status bar is cleared. *)
Lemma on_duration_null player :
  on_event (Event.PropertyChange OBS_ID_DURATION MpvDataType.Null) player =
    (set_time_pos f64_zero (set_duration f64_zero player),
     [Repaint.StatusBar UpdateStatusBar.Clear]).
Proof. reflexivity. Qed.

(** An unknown observer id, or a value of another type than the property
    has, is ignored. *)
Lemma on_event_ignored id data player :
  fields_of id = [] -> on_event (Event.PropertyChange id data) player = (player, []).
Proof. case_id id; cbn; done. Qed.

(** A notification sends at most three requests. *)
Lemma on_event_sends_le event player : (length (on_event event player).2 <= 3)%nat.
Proof.
  destruct event as [id data|]; [|cbn; lia].
  case_id id; cbn; case_data data; try (destruct (negb _)); cbn; lia.
Qed.

(** ** Lemmas: the loop *)

Lemma observer_loop_app results results' player sent :
  observer_loop (results ++ results') player sent =
    (r <- observer_loop results player sent ;;
     observer_loop results' r.1 r.2).
Proof.
  revert player sent. induction results as [|[event|] rest IH]; intros player sent; cbn.
  - done.
  - destruct (on_event event player) as [player' sent']. apply IH.
  - done.
Qed.

(** On a stream of events without error the loop processes every event. *)
Lemma observer_loop_ok events player sent :
  observer_loop (Some <$> events) player sent =
    Ok (foldl (fun acc event =>
                 ((on_event event acc.1).1, acc.2 ++ (on_event event acc.1).2))
          (player, sent) events).
Proof.
  revert player sent. induction events as [|event rest IH]; intros player sent; cbn.
  - done.
  - destruct (on_event event player) as [player' sent'] eqn:E. cbn. apply IH.
Qed.

(** The loop never stops by itself and panics only on an IPC error:
    the events before the first error are all processed, the requests sent
    are those of the single events in order, and the first error of
    [event_listen] is the panic of line 179, whatever follows it. *)
Theorem observer_loop_events results player sent :
  observer_loop results player sent =
    match list_find (fun r => r = None) results with
    | None =>
        Ok (foldl (fun acc event =>
                     ((on_event event acc.1).1, acc.2 ++ (on_event event acc.1).2))
              (player, sent) (omap id results))
    | Some _ => Panic UnwrapErr
    end.
Proof.
  revert player sent. induction results as [|[event|] rest IH]; intros player sent.
  - done.
  - cbn [observer_loop]. destruct (on_event event player) as [player' sent'] eqn:E.
    rewrite IH. cbn. rewrite decide_False by done. cbn.
    destruct (list_find _ rest) as [[]|]; cbn; [done|]. by rewrite E.
  - cbn. by rewrite decide_True.
Qed.

(** ** Witnesses *)

Lemma on_event_frame_witness :
  let player := mkPlayer (f64_of_Z 5) false false None [] ([], 0)
                  f64_zero (f64_of_Z 2) f64_zero in
  FTimePos ∈ fields_of OBS_ID_DURATION /\
  search_results
    (on_event (Event.PropertyChange OBS_ID_DURATION MpvDataType.Null) player).1
    = search_results player.
Proof.
  apply (on_event_frame OBS_ID_DURATION MpvDataType.Null
           (mkPlayer (f64_of_Z 5) false false None [] ([], 0)
              f64_zero (f64_of_Z 2) f64_zero) FTimePos).
  by_compute.
Defined.

Lemma on_event_signals_witness :
  let player := mkPlayer f64_zero false false None [] ([], 0)
                  f64_zero f64_zero f64_zero in
  exists r,
    r ∈ (on_event (Event.PropertyChange OBS_ID_PAUSE (MpvDataType.Bool true)) player).2 /\
    pane_of r = pane_of_field FIsPaused.
Proof.
  apply (on_event_signals OBS_ID_PAUSE (MpvDataType.Bool true)
           (mkPlayer f64_zero false false None [] ([], 0) f64_zero f64_zero f64_zero)
           FIsPaused).
  by_compute.
Defined.
