(* ===== verification/PlaylistView.v ===== *)
(** * PlaylistView: the rows of the playlist pane

    [print_playlist] (main.rs 866-936) draws the rows [top_line ..
    bottom_line) of the playlist: for each one the id, a marker for the entry
    that is playing, and the title (the file name when the title is empty),
    cut with an ellipsis when it is wider than the pane and padded with
    spaces when it is narrower.

    The width is measured in code points ([chars().count()], line 906) and
    the cut is made in bytes ([truncate], line 908).  Strings are UTF-8 byte
    strings here ([Utf8]), so both are what the code computes.

    The model returns what is drawn instead of drawing it: a [row] per entry
    with its line, its text and its two attributes, or the notice for an
    empty playlist, and the height of the vertical rule of line 934.
    [max_x] is the width [getmaxx] returns, an [i32]. *)

From Stdlib Require Import ZArith Lia Ascii String.
From stdpp Require Import prelude strings.
From S2P Require Import Prelude.
From S2P Require Import Float64.
From S2P Require Import Utf8.
From S2P Require Import Types.
From S2P Require Import Viewport.

#[local] Open Scope Z_scope.
#[local] Open Scope rust_scope.

(** ** The code *)

(** U+25B6, the glyph of the marker: three bytes. *)
Definition play_glyph : string := encode_utf8 9654.

(** main.rs 883-899: the gap between id and title, narrower for wider ids,
    with the glyph for the entry that is playing. *)
Definition marker (entry : PlaylistEntry.t) : string :=
  let id := PlaylistEntry.id entry in
  if PlaylistEntry.current entry then
    if id <? 10 then "   " +:+ play_glyph +:+ " "
    else if id <? 100 then "  " +:+ play_glyph +:+ " "
    else " " +:+ play_glyph +:+ " "
  else
    if id <? 10 then "     "
    else if id <? 100 then "    "
    else "   ".

(** main.rs 900-904. *)
Definition label (entry : PlaylistEntry.t) : string :=
  if String.eqb (PlaylistEntry.title entry) "" then PlaylistEntry.filename entry
  else PlaylistEntry.title entry.

(** main.rs 880-905: the text before it is fitted to the pane. *)
Definition row_output (entry : PlaylistEntry.t) : string :=
  fmt_int (PlaylistEntry.id entry) +:+ marker entry +:+ label entry.

(** [n] spaces, pushed one by one at lines 915-917. *)
Fixpoint spaces (n : nat) : string :=
  match n with
  | O => EmptyString
  | S n' => String " " (spaces n')
  end.

(** What is drawn for one entry. *)
Record row : Type := mkRow {
  row_y : Z;            (* the line of the pane *)
  row_text : string;
  row_reverse : bool;   (* A_REVERSE, the selection *)
  row_bold : bool;      (* A_BOLD, the entry that is playing *)
}.

Inductive drawing : Type :=
| Rows (rows : list row)
| EmptyNotice.           (* "Playlist is empty" *)

Section Code.
Context (om : overflow_mode).

(** main.rs 880-918: the text of a row, fitted to [max_x] columns. *)
Definition fit (max_x : Z) (output : string) : outcome string :=
  let len := chars_count output in
  output1 <-
    (if i32_as_usize max_x <? len then
       new_len <- usize_sub om (i32_as_usize max_x) 3 ;;
       cut <- truncate output new_len ;;
       Ok (push_str cut "...")
     else Ok output) ;;
  if len <? i32_as_usize max_x then
    pad <- usize_sub om (i32_as_usize max_x) len ;;
    Ok (output1 +:+ spaces (Z.to_nat pad))
  else Ok output1.

(** main.rs 876-924: one entry. *)
Definition print_entry (max_x selected i y : Z) (entry : PlaylistEntry.t)
  : outcome row :=
  text <- fit max_x (row_output entry) ;;
  Ok (mkRow y text (i =? selected) (PlaylistEntry.current entry)).

(** main.rs 873-927: the loop [for i in from..to], over the list of the
    values of [i]; [y] counts the lines, rows past the end included. *)
Fixpoint print_rows (max_x selected : Z) (playlist : Playlist) (indices : list Z)
    (y : Z) : outcome (list row) :=
  match indices with
  | [] => Ok []
  | i :: indices' =>
      drawn <-
        (if i <? len playlist then
           entry <- vec_index playlist i ;;
           r <- print_entry max_x selected i y entry ;;
           Ok [r]
         else Ok []) ;;
      y' <- i32_add om y 1 ;;
      rest <- print_rows max_x selected playlist indices' y' ;;
      Ok (drawn ++ rest)
  end.

(** main.rs 866-936.  The second component is the height of the vertical
    rule, [(to - from) as i32]. *)
Definition print_playlist (max_x : Z) (playlist : Playlist) (canvas : PlaylistCanvas)
  : outcome (drawing * Z) :=
  let from := top_line canvas in
  let to := bottom_line canvas in
  let selected := selected_line canvas in
  d <-
    (if 0 <? len playlist then
       rows <- print_rows max_x selected playlist (seqZ from (to - from)) 0 ;;
       Ok (Rows rows)
     else Ok EmptyNotice) ;;
  height <- usize_sub om to from ;;
  Ok (d, usize_as_i32 height).

End Code.

(** An entry whose text has only ASCII characters and that is not playing:
    its row is ASCII. *)
Definition plain (entry : PlaylistEntry.t) : Prop :=
  is_ascii (PlaylistEntry.title entry) = true /\
  is_ascii (PlaylistEntry.filename entry) = true /\
  PlaylistEntry.current entry = false /\
  0 <= PlaylistEntry.id entry.

(** What is drawn for the row of index [i] on line [y]. *)
Definition draws (om : overflow_mode) (max_x selected : Z) (playlist : Playlist)
    (i y : Z) (r : row) : Prop :=
  exists entry, playlist !! Z.to_nat i = Some entry /\
    fit om max_x (row_output entry) = Ok (row_text r) /\
    row_y r = y /\ row_reverse r = (i =? selected) /\
    row_bold r = PlaylistEntry.current entry.

(** ** Lemmas: ASCII *)

Lemma is_ascii_app s t : is_ascii (s +:+ t) = is_ascii s && is_ascii t.
Proof.
  induction s as [|a s IH]; [done|].
  rewrite str_app_cons. cbn [is_ascii]. by rewrite IH, andb_assoc.
Qed.

Lemma is_ascii_take n s : is_ascii s = true -> is_ascii (str_take n s) = true.
Proof.
  revert s. induction n as [|n IH]; intros [|a s]; cbn [str_take is_ascii]; try done.
  intros [Ha Hs]%andb_prop. by rewrite Ha, IH.
Qed.

Lemma is_ascii_spaces n : is_ascii (spaces n) = true.
Proof. induction n; [done|]. cbn [spaces is_ascii]. by rewrite IHn. Qed.

Lemma str_len_spaces n : str_len (spaces n) = Z.of_nat n.
Proof. induction n; [done|]. cbn [spaces]. rewrite str_len_cons. lia. Qed.

Lemma is_ascii_uint d : is_ascii (DecimalString.NilEmpty.string_of_uint d) = true.
Proof. induction d; cbn [DecimalString.NilEmpty.string_of_uint is_ascii]; by rewrite ?IHd. Qed.

Lemma is_ascii_fmt_int n : is_ascii (fmt_int n) = true.
Proof.
  unfold fmt_int, DecimalString.NilZero.string_of_int, DecimalString.NilZero.string_of_uint.
  destruct (Z.to_int n) as [d|d]; destruct d; cbn [is_ascii]; try done;
    cbn [DecimalString.NilEmpty.string_of_uint is_ascii]; by rewrite ?is_ascii_uint.
Qed.

Lemma is_ascii_row_output entry : plain entry -> is_ascii (row_output entry) = true.
Proof.
  intros (Ht & Hf & Hc & _). unfold row_output, marker, label.
  rewrite !is_ascii_app, is_ascii_fmt_int, Hc.
  destruct (String.eqb _ _); rewrite ?Ht, ?Hf; by case_cmp.
Qed.

Lemma playlist_of_titles_plain start titles :
  0 <= start -> Forall (fun t => is_ascii t = true) titles ->
  Forall plain (playlist_of_titles start titles).
Proof.
  intros Hstart Ht. revert start Hstart.
  induction Ht as [|t ts Ht _ IH]; intros start Hstart; cbn [playlist_of_titles];
    constructor; [by repeat split | apply IH; lia].
Qed.

(** ** Lemmas: fitting *)

Section Fit.
Context (om : overflow_mode) (max_x : Z).
Context (Hx : 3 <= max_x <= i32_max).

(** An ASCII text that fits is padded to the width. *)
Lemma fit_pad output :
  is_ascii output = true -> str_len output <= max_x ->
  fit om max_x output = Ok (output +:+ spaces (Z.to_nat (max_x - str_len output))).
Proof.
  intros Ha Hlen. unfold fit. rewrite (chars_count_ascii _ Ha).
  rewrite (i32_as_usize_nonneg max_x) by (unfold_ints; lia).
  pose proof (str_len_nonneg output).
  destruct (Z.ltb_spec max_x (str_len output)); [lia|]. simpl_outcome.
  destruct (Z.ltb_spec (str_len output) max_x).
  - by rewrite usize_sub_ok by (unfold_ints; lia).
  - replace (max_x - str_len output) with 0 by lia. by rewrite str_app_nil_r.
Qed.

(** An ASCII text that does not fit is cut three columns before the edge
    and continued with dots. *)
Lemma fit_cut output :
  is_ascii output = true -> max_x < str_len output ->
  fit om max_x output = Ok (str_take (Z.to_nat (max_x - 3)) output +:+ "...").
Proof.
  intros Ha Hlen. unfold fit. rewrite (chars_count_ascii _ Ha).
  rewrite (i32_as_usize_nonneg max_x) by (unfold_ints; lia).
  destruct (Z.ltb_spec max_x (str_len output)); [|lia].
  rewrite (usize_sub_ok om max_x 3) by (unfold_ints; lia). simpl_outcome.
  rewrite truncate_ascii by (done || lia). simpl_outcome.
  by destruct (Z.ltb_spec (str_len output) max_x); [lia|].
Qed.

(** The row of a plain entry can always be drawn. *)
Lemma fit_plain_Ok entry : plain entry -> is_Ok (fit om max_x (row_output entry)).
Proof.
  intros Hp. pose proof (is_ascii_row_output entry Hp) as Ha.
  destruct (Z.le_gt_cases (str_len (row_output entry)) max_x).
  - rewrite fit_pad by done. by eexists.
  - rewrite fit_cut by (done || lia). by eexists.
Qed.

(** The row of an entry with ASCII text that is not playing fills the
    pane exactly: it has [max_x] bytes, all of them ASCII, and it is the
    text padded with spaces or, when the text is too wide, its first
    [max_x - 3] bytes followed by three dots. *)
Theorem fit_ascii_width entry :
  plain entry ->
  exists text, fit om max_x (row_output entry) = Ok text /\
    str_len text = max_x /\ is_ascii text = true /\
    (if str_len (row_output entry) <=? max_x
     then text = row_output entry +:+ spaces (Z.to_nat (max_x - str_len (row_output entry)))
     else text = str_take (Z.to_nat (max_x - 3)) (row_output entry) +:+ "...").
Proof.
  intros Hp. pose proof (is_ascii_row_output entry Hp) as Ha.
  pose proof (str_len_nonneg (row_output entry)).
  destruct (Z.leb_spec (str_len (row_output entry)) max_x).
  - rewrite fit_pad by done. eexists; split; [done|].
    rewrite str_len_app, str_len_spaces, is_ascii_app, Ha, is_ascii_spaces.
    split; [lia | done].
  - rewrite fit_cut by done. eexists; split; [done|].
    rewrite str_len_app, str_len_take, is_ascii_app, is_ascii_take by done.
    change (str_len "...") with 3. split; [lia | done].
Qed.

End Fit.


(** The row of the entry that is playing: the glyph has three bytes and one
    column, so a cut row is two columns short of the pane. *)
Example fit_current_short :
  let entry := PlaylistEntry.mk 7 "a.mp3" "0123456789012345678901234567890123456789" true in
  exists text, fit Checked 30 (row_output entry) = Ok text /\
    str_len text = 30 /\ chars_count text = 28.
Proof. eexists. by vm_compute. Qed.

(** A pane narrower than three columns: [max_x as usize - 3] underflows. *)
Example fit_narrow :
  fit Checked 2 "abc" = Panic ArithOverflow /\ fit Wrapping 2 "abc" = Ok "abc..."%string.
Proof. by vm_compute. Qed.

(** ** Lemmas: the rows *)

Section Rows.
Context (om : overflow_mode) (max_x selected : Z) (playlist : Playlist).
Context (Hfit : Forall (fun entry => is_Ok (fit om max_x (row_output entry))) playlist).

(** One index inside the playlist draws one row. *)
Lemma print_entry_draws i y :
  0 <= i < len playlist ->
  exists r, (entry <- vec_index playlist i ;;
             r <- print_entry om max_x selected i y entry ;; Ok [r]) = Ok [r] /\
    draws om max_x selected playlist i y r.
Proof.
  intros Hi. destruct (lookup_lt_is_Some_2 playlist (Z.to_nat i)) as [entry He];
    [unfold len in Hi; lia|].
  unfold vec_index, print_entry. rewrite He. simpl_outcome.
  rewrite Forall_lookup in Hfit. destruct (Hfit _ _ He) as [text Ht].
  rewrite Ht. simpl_outcome. eexists; split; [done|]. by exists entry.
Qed.

(** The loop over [count] indices from [i] on, from line [y]: the rows of
    the indices inside the playlist, on consecutive lines. *)
Lemma print_rows_spec (count : nat) i y :
  0 <= i -> 0 <= y -> y + Z.of_nat count <= i32_max ->
  exists rows,
    print_rows om max_x selected playlist (seqZ i (Z.of_nat count)) y = Ok rows /\
    len rows = Z.max 0 (Z.min (Z.of_nat count) (len playlist - i)) /\
    forall (j : nat) r, rows !! j = Some r ->
      draws om max_x selected playlist (i + Z.of_nat j) (y + Z.of_nat j) r.
Proof.
  revert i y. induction count as [|count IH]; intros i y Hi Hy Hmax.
  - exists []. split; [done|]. split; [rewrite len_nil; lia | by intros j r [=]].
  - rewrite seqZ_cons by lia. cbn [print_rows].
    replace (Z.pred (Z.of_nat (S count))) with (Z.of_nat count) by lia.
    destruct (IH (Z.succ i) (y + 1)) as (rows & Hrows & Hlen & Hdraw); [lia..|].
    rewrite i32_add_ok by (unfold_ints; lia).
    destruct (Z.ltb_spec i (len playlist)) as [Hin|Hout].
    + destruct (print_entry_draws i y ltac:(lia)) as (r & -> & Hr).
      simpl_outcome. rewrite Hrows. simpl_outcome. exists (r :: rows).
      split; [done|]. split; [rewrite len_cons; lia|].
      intros [|j] r' Hj; cbn in Hj.
      * injection Hj as <-. by rewrite !Z.add_0_r.
      * specialize (Hdraw j r' Hj).
        replace (i + Z.of_nat (S j)) with (Z.succ i + Z.of_nat j) by lia.
        by replace (y + Z.of_nat (S j)) with (y + 1 + Z.of_nat j) by lia.
    + simpl_outcome. rewrite Hrows. simpl_outcome. exists rows.
      split; [done|]. split; [lia|].
      assert (rows = []) as -> by (apply length_zero_iff_nil; unfold len in *; lia).
      by intros j r [=].
Qed.

End Rows.

(** ** Theorems: the pane *)

(** After a redraw of the canvas, [print_playlist] draws the rows of the
    window that exist, one per line from line 0, each with the text of its
    entry fitted to the pane; the selected entry is among them and is the
    one drawn in reverse video; the vertical rule has the height of the
    window. *)
Lemma print_playlist_view om max_x h playlist c :
  view_inv h (len playlist) c -> h <= i32_max -> len playlist <= i32_max ->
  Forall (fun entry => is_Ok (fit om max_x (row_output entry))) playlist ->
  exists rows,
    print_playlist om max_x playlist c = Ok (Rows rows, h) /\
    len rows = Z.min h (len playlist - top_line c) /\
    (forall (j : nat) r, rows !! j = Some r ->
       draws om max_x (selected_line c) playlist (top_line c + Z.of_nat j) (Z.of_nat j) r /\
       (row_reverse r = true <-> top_line c + Z.of_nat j = selected_line c)) /\
    is_Some (rows !! Z.to_nat (selected_line c - top_line c)).
Proof.
  intros Hc Hh Hn' Hfit. unfold print_playlist. open_canvas c.
  destruct Hc as [(Htop & Hn & Hsel) ->].
  destruct (print_rows_spec om max_x sel playlist Hfit (Z.to_nat h) top 0)
    as (rows & Hrows & Hlen & Hdraw); [lia..|].
  replace (top + h - top) with (Z.of_nat (Z.to_nat h)) by lia.
  destruct (Z.ltb_spec 0 (len playlist)); [|lia]. rewrite Hrows. simpl_outcome.
  rewrite usize_sub_ok by (unfold_ints; lia). simpl_outcome.
  replace (top + h - top) with h by lia.
  rewrite usize_as_i32_small by (unfold_ints; lia).
  exists rows. split; [done|]. split; [lia|]. split.
  - intros j r Hj. destruct (Hdraw j r Hj) as (e & He & Ht & Hy & Hrev & Hb).
    rewrite Z.add_0_l in Hy. split; [by exists e|]. rewrite Hrev. apply Z.eqb_eq.
  - apply lookup_lt_is_Some_2. unfold len in *. lia.
Qed.

(** C9. The pane after a redraw of the canvas, as lists: the rows drawn
    are on the lines 0, 1, 2, ... up to the height of the window or the end
    of the playlist; row [y] is in reverse video exactly when
    [top_line + y] is the selection; and the rows are, in order, the
    entries of the playlist from [top_line] on, each with its text fitted to
    the pane and bold when it is playing.  The rule has the height of the
    window. *)
Theorem print_playlist_rows om max_x h playlist c :
  view_inv h (len playlist) c -> h <= i32_max -> len playlist <= i32_max ->
  Forall (fun entry => is_Ok (fit om max_x (row_output entry))) playlist ->
  exists rows,
    print_playlist om max_x playlist c = Ok (Rows rows, h) /\
    len rows = Z.min h (len playlist - top_line c) /\
    row_y <$> rows = seqZ 0 (len rows) /\
    row_reverse <$> rows =
      (fun y => bool_decide (top_line c + y = selected_line c)) <$> seqZ 0 (len rows) /\
    Forall2 (fun r entry =>
               fit om max_x (row_output entry) = Ok (row_text r) /\
               row_bold r = PlaylistEntry.current entry)
      rows (take (Z.to_nat h) (drop (Z.to_nat (top_line c)) playlist)).
Proof.
  intros Hc Hh Hn Hfit.
  destruct (print_playlist_view om max_x h playlist c Hc Hh Hn Hfit)
    as (rows & Hprint & Hlen & Hdraw & _).
  destruct Hc as [((Htop & _) & _ & _) _].
  exists rows. split; [done|]. split; [done|]. split; [|split].
  - rewrite <- (list_fmap_id (seqZ 0 (len rows))). apply fmap_seqZ_lookup.
    intros j r Hj. by destruct (Hdraw j r Hj) as [(e & _ & _ & Hy & _) _].
  - apply fmap_seqZ_lookup. intros j r Hj. destruct (Hdraw j r Hj) as [_ Hrev].
    apply eq_true_iff_eq. by rewrite Hrev, bool_decide_eq_true.
  - apply Forall2_same_length_lookup_2.
    + rewrite length_take, length_drop. unfold len in *. lia.
    + intros j r e Hj [He _]%lookup_take_Some. rewrite lookup_drop in He.
      destruct (Hdraw j r Hj) as [(e' & He' & Ht & _ & _ & Hb) _].
      replace (Z.to_nat (top_line c + Z.of_nat j)) with (Z.to_nat (top_line c) + j)%nat
        in He' by lia.
      by simplify_eq.
Qed.

(** An empty playlist shows the notice and no row. *)
Lemma print_playlist_empty om max_x c :
  0 <= top_line c <= bottom_line c -> bottom_line c <= usize_max ->
  print_playlist om max_x [] c =
    Ok (EmptyNotice, usize_as_i32 (bottom_line c - top_line c)).
Proof.
  intros Hc Hmax. unfold print_playlist. cbn.
  by rewrite usize_sub_ok by (unfold_ints; lia).
Qed.

(** The playlist of the specification in a pane of 12 columns and 2 rows,
    with the second row selected. *)
Example print_playlist_example :
  print_playlist Checked 12 (playlist_of_titles 0 ["Alpha"; "Beta"; "Alphabet"]%string)
    (mkCanvas 1 3 1) =
  Ok (Rows [mkRow 0 "1     Beta  " true false; mkRow 1 "2     Alp..." false false], 2).
Proof. by vm_compute. Qed.

(** ** Witnesses *)

Lemma fit_ascii_width_witness :
  let entry := PlaylistEntry.mk 3 "a.mp3" "Alphabet" false in
  exists text, fit Checked 12 (row_output entry) = Ok text /\
    str_len text = 12 /\ is_ascii text = true /\
    (if str_len (row_output entry) <=? 12
     then text = row_output entry +:+ spaces (Z.to_nat (12 - str_len (row_output entry)))
     else text = str_take (Z.to_nat (12 - 3)) (row_output entry) +:+ "...").
Proof.
  apply (fit_ascii_width Checked 12); [by_compute|].
  unfold plain. cbn. by_compute.
Defined.

Lemma print_playlist_rows_witness :
  let playlist := playlist_of_titles 0 ["Alpha"; "Beta"; "Alphabet"]%string in
  let c := mkCanvas 1 3 1 in
  exists rows,
    print_playlist Checked 12 playlist c = Ok (Rows rows, 2) /\
    len rows = Z.min 2 (len playlist - top_line c) /\
    row_y <$> rows = seqZ 0 (len rows) /\
    row_reverse <$> rows =
      (fun y => bool_decide (top_line c + y = selected_line c)) <$> seqZ 0 (len rows) /\
    Forall2 (fun r entry =>
               fit Checked 12 (row_output entry) = Ok (row_text r) /\
               row_bold r = PlaylistEntry.current entry)
      rows (take (Z.to_nat 2) (drop (Z.to_nat (top_line c)) playlist)).
Proof.
  apply (print_playlist_rows Checked 12 2
           (playlist_of_titles 0 ["Alpha"; "Beta"; "Alphabet"]%string) (mkCanvas 1 3 1));
    [by_decide | by_compute | by_compute |].
  repeat constructor; by eexists.
Defined.
