(* ===== verification/RenderLoop.v ===== *)
(** * RenderLoop: the main loop

    The main thread (main.rs 691-857) receives one request at a time and
    redraws the pane it names.  [render] is the body of the loop for one
    request: it returns the canvas it leaves in the shared record and what
    it paints, as a list of [paint]s.

    - [render_playlist_canvas] (main.rs 705-727): the canvas the playlist arm
      stores (scroll to the top on request, recompute [bottom_line], reset a
      selection past the end); the rows are those of [PlaylistView];
    - [percentage], [time_text], [bar_fill], [bar_glyph] and [progress_bar]
      (main.rs 757-787): the texts of the status bar for the request [Time];
    - [render_metadata] (main.rs 799-831), [speed_text] and [volume_text]
      (main.rs 833-849): the texts of the top bar.

    A [paint] is a call of ncurses with the text it is given; what ncurses
    does with it is not modelled, except that [wprintw] reads its text as a
    format of [printf]: [printf_safe] says that a text holds no conversion.
    [max_x] and [height_playlist_win] are the [i32] values of main.rs 113-119.

    The theorems about a key followed by a redraw are here, because they need
    both the navigation of [Viewport] and the playlist arm. *)

From Stdlib Require Import ZArith Lia Ascii String SpecFloat.
From stdpp Require Import prelude strings gmap.
From S2P Require Import Prelude.
From S2P Require Import Float64.
From S2P Require Import Utf8.
From S2P Require Import Types.
From S2P Require Import Viewport.
From S2P Require Import PrettyTime.
From S2P Require Import PlaylistView.

#[local] Open Scope Z_scope.
#[local] Open Scope rust_scope.

(** ** The code *)

(** What the loop asks of ncurses: [wclear], [wmove] and [wprintw] (the text
    is printed at the cursor when no position is given), and the rows of
    [print_playlist] with the height of its vertical rule. *)
Inductive paint : Type :=
| Erase (p : pane)
| Print (p : pane) (position : option (Z * Z)) (text : string) (blink : bool)
| Draw (d : drawing) (rule : Z).

(** The window a paint writes to. *)
Definition paint_pane (p : paint) : pane :=
  match p with
  | Erase w | Print w _ _ _ => w
  | Draw _ _ => ListPane
  end.

(** The texts a list of paints hands to [wprintw]. *)
Definition printed (ps : list paint) : list string :=
  ps ≫= fun p =>
    match p with
    | Print _ _ text _ => [text]
    | Draw (Rows rows) _ => row_text <$> rows
    | Draw EmptyNotice _ => ["Playlist is empty"%string]
    | Erase _ => []
    end.

(** A text [printf] prints as it is, up to [%%] for a percent sign: every
    percent sign is followed by a second one. *)
Fixpoint printf_safe (s : string) : bool :=
  match s with
  | EmptyString => true
  | String a s' =>
      if Ascii.eqb a "%" then
        match s' with
        | String b s'' => Ascii.eqb b "%" && printf_safe s''
        | EmptyString => false
        end
      else printf_safe s'
  end.

Section Code.
Context (om : overflow_mode) `{FloatFormat}.

(** main.rs 705-727.  [clear_win] only clears the window and does not
    appear here. *)
Definition render_playlist_canvas (h : Z) (scroll_to_beginning : bool)
    (playlist : Playlist) (canvas : PlaylistCanvas) : outcome PlaylistCanvas :=
  let top_line0 := top_line canvas in
  let selected_line0 := selected_line canvas in
  let top_line1 := if scroll_to_beginning then 0 else top_line0 in
  let selected_line1 := if scroll_to_beginning then 0 else selected_line0 in
  let canvas1 :=
    if scroll_to_beginning
    then set_selected_line selected_line1 (set_top_line top_line1 canvas)
    else canvas in
  bottom_line <- usize_add om top_line1 (i32_as_usize h) ;;
  let canvas2 := set_bottom_line bottom_line canvas1 in
  limit <- i32_sub om (usize_as_i32 (len playlist)) 1 ;;
  if limit <? usize_as_i32 selected_line1
  then Ok (set_selected_line 0 canvas2)
  else Ok canvas2.

(** main.rs 759: [100f64 / player.duration * player.time_pos]. *)
Definition percentage (player : Player) : f64 :=
  f64_mul (f64_div (f64_of_Z 100) (duration player)) (time_pos player).

(** main.rs 760-765. *)
Definition time_text (player : Player) : string :=
  "    " +:+ get_pretty_time (time_pos player) +:+ " / " +:+
  get_pretty_time (duration player) +:+ " (" +:+
  fmt_int (f64_as_i32 (percentage player)) +:+ "%)".

(** main.rs 773 and 777: [max_x / 100 * percentage as i32], the column of
    the cursor glyph. *)
Definition bar_fill (max_x : Z) (player : Player) : outcome Z :=
  i32_mul om (max_x `quot` 100) (f64_as_i32 (percentage player)).

(** main.rs 773-785: the glyph of column [i]. *)
Definition bar_glyph (i fill : Z) : string :=
  if i <? fill then "=" else if i =? fill then ">" else "-".

(** main.rs 772-786: the bar; the column of the cursor is computed in every
    iteration, so a terminal of no width computes nothing. *)
Definition progress_bar (max_x : Z) (player : Player) : outcome string :=
  if 0 <? max_x then
    fill <- bar_fill max_x player ;;
    Ok (foldr (fun i acc => bar_glyph i fill +:+ acc) "" (seqZ 0 max_x))
  else Ok ""%string.

(** The text of a metadata value that is a string (main.rs 805-807: other
    types print nothing). *)
Definition string_value (v : MpvDataType.t) : string :=
  match v with MpvDataType.String s => s | _ => "" end.

(** main.rs 799-831: the title and the artist shown in the top bar.
    [media_title] is the answer of mpv to [get_property("media-title")],
    [None] when the call fails. *)
Definition render_metadata (player : Player) (media_title : option string)
  : outcome (string * string) :=
  md <- unwrap (metadata player) ;;
  let title :=
    match md !! "title"%string with
    | Some v => string_value v
    | None => default "<empty>"%string media_title
    end in
  let artist :=
    match md !! "artist"%string with
    | Some v => string_value v
    | None => "<empty>"%string
    end in
  Ok (title, artist).

(** main.rs 835. *)
Definition speed_text (player : Player) : string :=
  "  Speed: " +:+ fmt_fixed 2 (speed player) +:+ " ".

(** main.rs 844: the format leaves two percent signs for [wprintw]. *)
Definition volume_text (player : Player) : string :=
  "  Volume: " +:+ fmt_int (f64_as_usize (volume player)) +:+ "%%".

(** main.rs 767, 838 and 847: the column of a text aligned on the right,
    [max_x - text.len() as i32]. *)
Definition right_aligned (max_x : Z) (text : string) : outcome Z :=
  i32_sub om max_x (usize_as_i32 (str_len text)).

(** main.rs 741-756. *)
Definition is_blinking (formatting : Formatting.t) : bool :=
  match formatting with
  | Formatting.Normal => false
  | Formatting.Blinking => true
  end.

(** main.rs 699-856: one request.  [media_title] is the answer of mpv to
    [get_property("media-title")], asked only when the metadata has no
    title. *)
Definition render (max_x h : Z) (media_title : option string) (request : Repaint.t)
    (player : Player) (canvas : PlaylistCanvas) : outcome (PlaylistCanvas * list paint) :=
  match request with
  | Repaint.Playlist clear_win scroll_to_beginning =>
      canvas' <- render_playlist_canvas h scroll_to_beginning (playlist player) canvas ;;
      d <- print_playlist om max_x (playlist player) canvas' ;;
      Ok (canvas', (if clear_win then [Erase ListPane] else []) ++ [Draw d.1 d.2])
  | Repaint.StatusBar what =>
      match what with
      | UpdateStatusBar.Clear => Ok (canvas, [Erase StatusPane])
      | UpdateStatusBar.Message msg formatting =>
          Ok (canvas, [Print StatusPane (Some (1, 0)) msg (is_blinking formatting)])
      | UpdateStatusBar.Time =>
          x <- right_aligned max_x (time_text player) ;;
          bar <- progress_bar max_x player ;;
          Ok (canvas, [Print StatusPane (Some (1, x)) (time_text player) false;
                       Print StatusPane (Some (2, 0)) bar false])
      end
  | Repaint.TopBar what =>
      match what with
      | UpdateTopBar.Clear => Ok (canvas, [Erase TopPane])
      | UpdateTopBar.Metadata =>
          lines <- render_metadata player media_title ;;
          Ok (canvas, [Print TopPane (Some (0, 0)) "Title:  " false;
                       Print TopPane None lines.1 false;
                       Print TopPane (Some (1, 0)) "Artist: " false;
                       Print TopPane None lines.2 false])
      | UpdateTopBar.Speed =>
          x <- right_aligned max_x (speed_text player) ;;
          Ok (canvas, [Print TopPane (Some (0, x)) (speed_text player) false])
      | UpdateTopBar.Volume =>
          x <- right_aligned max_x (volume_text player) ;;
          Ok (canvas, [Print TopPane (Some (1, x)) (volume_text player) false])
      end
  end.

(** One key of the navigation followed by the redraw it requests. *)
Definition key_then_render (h : Z) (playlist : Playlist) (k : nav_key)
    (canvas : PlaylistCanvas) : outcome PlaylistCanvas :=
  canvas' <- nav_step om h playlist k canvas ;;
  render_playlist_canvas h false playlist canvas'.

(** A session in which every key is redrawn before the next one arrives. *)
Fixpoint session (h : Z) (playlist : Playlist) (ks : list nav_key)
    (canvas : PlaylistCanvas) : outcome PlaylistCanvas :=
  match ks with
  | [] => Ok canvas
  | k :: ks' =>
      canvas' <- key_then_render h playlist k canvas ;;
      session h playlist ks' canvas'
  end.

End Code.

(** A formatter and a player for the examples: three titles, no metadata. *)
Definition sample_format : FloatFormat := fun _ _ => "1.00"%string.

Definition sample_titles : Player :=
  mkPlayer f64_zero false false None
    (playlist_of_titles 0 ["Alpha"; "Beta"; "Alphabet"]%string) ([], 0)
    (f64_of_Z 1) f64_zero (f64_of_Z 50).

(** ** The playlist arm *)

Section Playlist.
Context (om : overflow_mode) (h : Z) (playlist : Playlist).
Context (Hsz : sizes_ok h (len playlist)).

(** A redraw in place of a canvas whose selection is on a shown row keeps
    window and selection and sets [bottom_line]. *)
Lemma render_visible c :
  visible h (len playlist) c ->
  render_playlist_canvas om h false playlist c =
    Ok (set_bottom_line (top_line c + h) c).
Proof.
  intros Hc. unfold render_playlist_canvas. open_canvas c. cast_sizes h playlist.
  rewrite (usize_as_i32_small sel) by (unfold_ints; lia).
  run_ok. done.
Qed.

Lemma render_visible_view_inv c :
  visible h (len playlist) c ->
  exists c', render_playlist_canvas om h false playlist c = Ok c' /\
    view_inv h (len playlist) c'.
Proof.
  intros Hc. rewrite render_visible by done. eexists; split; [done|].
  by open_canvas c.
Qed.

(** After a redraw, every navigation key followed by its redraw runs
    without a panic in both build profiles and gives a canvas whose selection
    is a row of the playlist inside the window, with
    [bottom_line = top_line + height]. *)
Lemma key_then_render_view_inv k c :
  view_inv h (len playlist) c ->
  exists c', key_then_render om h playlist k c = Ok c' /\
    view_inv h (len playlist) c'.
Proof.
  intros Hc. unfold key_then_render.
  destruct (nav_step_visible om h playlist Hsz k c Hc) as (c1 & -> & Hc1).
  simpl_outcome. by apply render_visible_view_inv.
Qed.

(** A whole session of navigation keys, each redrawn before the next,
    on a non-empty playlist: no panic, and at the end (hence at every point)
    [top_line <= selected_line < top_line + height], [selected_line < len]
    and [bottom_line = top_line + height]. *)
Lemma session_view_inv ks c :
  view_inv h (len playlist) c ->
  exists c', session om h playlist ks c = Ok c' /\ view_inv h (len playlist) c'.
Proof.
  revert c. induction ks as [|k ks IH]; intros c Hc; cbn [session].
  - by exists c.
  - destruct (key_then_render_view_inv k c Hc) as (c1 & -> & Hc1).
    simpl_outcome. by apply IH.
Qed.

(** A redraw that scrolls to the top (after the playlist changed its
    length, or after key [u]) leaves the first row selected in the window
    [0, height). *)
Theorem render_scroll_to_beginning c :
  render_playlist_canvas om h true playlist c = Ok (mkCanvas 0 h 0) /\
  view_inv h (len playlist) (mkCanvas 0 h 0).
Proof.
  unfold render_playlist_canvas. open_canvas c. cast_sizes h playlist.
  change (usize_as_i32 0) with 0. split; [run_ok; done | lia].
Qed.

End Playlist.

(** A selection at or past the end of the playlist is reset to row 0
    while [top_line] stays: the redraw after keys that outran the renderer
    leaves a window that starts below the selection, and page-up from there
    panics in a debug build (line 378 subtracts the height from 0). *)
Example render_reset_then_page_up :
  let pl := sample_playlist 100 in
  render_playlist_canvas Checked 20 false pl (mkCanvas 21 20 110)
    = Ok (mkCanvas 21 41 0) /\
  ~ visible 20 100 (mkCanvas 21 41 0) /\
  key_ppage Checked 20 (mkCanvas 21 41 0) = Panic ArithOverflow.
Proof. split; [by vm_compute|]. split; [unfold visible; cbn; lia | by vm_compute]. Qed.

(** On an empty playlist every redraw selects row 0. *)
Lemma render_empty om h scroll c :
  0 <= h <= i32_max -> 0 <= top_line c -> top_line c + h <= usize_max ->
  0 <= selected_line c <= i32_max ->
  exists c', render_playlist_canvas om h scroll [] c = Ok c' /\ selected_line c' = 0 /\
    bottom_line c' = top_line c' + h /\ 0 <= top_line c' <= top_line c.
Proof.
  intros Hh Htop Hmax Hsel. unfold render_playlist_canvas. open_canvas c.
  rewrite (i32_as_usize_nonneg h) by (unfold_ints; lia).
  change (usize_as_i32 (len [])) with 0.
  destruct scroll.
  - change (usize_as_i32 0) with 0. run_ok. close_ok.
  - rewrite (usize_as_i32_small sel) by (unfold_ints; lia). run_ok. close_ok.
Qed.

(** ** The status bar *)

(** C31. With a duration of zero the percentage is not guarded: position
    zero gives NaN, shown as 0, and any position above zero gives
    infinity, shown as 2147483647; the bar then multiplies it by
    [max_x / 100] and panics in a debug build on a terminal of 200 columns
    or more. *)
Theorem percentage_zero_duration player :
  duration player = f64_zero ->
  (time_pos player = f64_zero -> f64_as_i32 (percentage player) = 0) /\
  (forall m e, time_pos player = S754_finite false m e ->
     f64_as_i32 (percentage player) = i32_max /\
     forall max_x, 200 <= max_x <= i32_max ->
       bar_fill Checked max_x player = Panic ArithOverflow).
Proof.
  intros Hd. unfold percentage. rewrite Hd. split.
  - by intros ->.
  - intros m e Ht. rewrite Ht. split; [done|]. intros max_x Hx.
    unfold bar_fill, percentage. rewrite Hd, Ht. change (f64_as_i32 _) with i32_max.
    unfold i32_mul, i32_arith. destruct (in_i32b_spec (max_x `quot` 100 * i32_max)) as [H|H]; [|done].
    exfalso. revert H. unfold_ints. lia_div.
Qed.

(** Half of a track of 200 seconds is 50 percent, and the bar of a terminal
    of 80 columns keeps its cursor in column 0, since [80 / 100] is 0. *)
Example percentage_example :
  let player := mkPlayer (f64_of_Z 200) false false None [] ([], 0)
                  (f64_of_Z 1) (f64_of_Z 100) (f64_of_Z 100) in
  f64_as_i32 (percentage player) = 50 /\
  time_text player = "    01:40 / 03:20 (50%)"%string /\
  bar_fill Checked 80 player = Ok 0 /\
  bar_fill Checked 250 player = Ok 100.
Proof. by vm_compute. Qed.

Lemma bar_glyph_len i fill : str_len (bar_glyph i fill) = 1.
Proof. unfold bar_glyph. by case_cmp. Qed.

Lemma bar_len fill l :
  str_len (foldr (fun i acc => bar_glyph i fill +:+ acc) "" l) = len l.
Proof.
  induction l as [|i l IH]; [done|].
  cbn [foldr]. rewrite str_len_app, bar_glyph_len, IH, len_cons. lia.
Qed.

(** The progress bar fills the width of the pane: when the column
    of the cursor can be computed, the bar has exactly [max_x] glyphs, and
    the cursor column is [(max_x / 100) * percentage], so on a terminal of
    fewer than 100 columns the cursor never leaves column 0. *)
Theorem progress_bar_width om max_x player bar :
  progress_bar om max_x player = Ok bar ->
  str_len bar = Z.max 0 max_x /\
  (0 < max_x < 100 -> bar = foldr (fun i acc => bar_glyph i 0 +:+ acc) "" (seqZ 0 max_x)).
Proof.
  unfold progress_bar. destruct (Z.ltb_spec 0 max_x).
  - intros (fill & Hfill & [= <-])%bind_Ok_inv. split.
    + rewrite bar_len. unfold len. rewrite length_seqZ. lia.
    + intros Hx. unfold bar_fill in Hfill.
      replace (max_x `quot` 100) with 0 in Hfill by lia_div.
      rewrite i32_mul_ok in Hfill by (unfold_ints; lia). by injection Hfill as <-.
  - intros [= <-]. split; [change (str_len "") with 0; lia | intros; lia].
Qed.

(** ** The top bar *)

(** The request [Metadata] unwraps the metadata: when the record holds
    none at the time the request is served, the render loop panics, and
    with it the process. *)
Lemma render_metadata_none player media_title :
  metadata player = None -> render_metadata player media_title = Panic UnwrapNone.
Proof. intros H. unfold render_metadata. by rewrite H. Qed.

Lemma render_metadata_some player md media_title :
  metadata player = Some md ->
  exists title artist, render_metadata player media_title = Ok (title, artist) /\
    (md !! "title"%string = None -> title = default "<empty>"%string media_title) /\
    (md !! "artist"%string = None -> artist = "<empty>"%string).
Proof.
  intros H. unfold render_metadata. rewrite H. simpl_outcome.
  eexists _, _. split; [done|]. split; by intros ->.
Qed.

(** ** The texts handed to [wprintw] *)

(** A text without a percent sign in front changes nothing. *)
Lemma printf_safe_lacks s t : lacks "%" s = true -> printf_safe (s +:+ t) = printf_safe t.
Proof.
  induction s as [|a s IH]; [done|]. cbn [lacks]. intros [Ha Hs]%andb_prop.
  rewrite str_app_cons. cbn [printf_safe].
  destruct (Ascii.eqb a "%"); [done | by apply IH].
Qed.

Section Texts.
Context (om : overflow_mode) `{FloatFormat}.

(** C30. The time text always ends in a percent sign followed by a
    parenthesis, whatever the position and the duration are: [wprintw]
    is handed a format with a conversion that does not exist. *)
Theorem time_text_printf player :
  printf_safe (time_text player) = false /\
  exists text, time_text player = text +:+ "%)" /\ lacks "%" text = true.
Proof.
  set (pre := "    " +:+ get_pretty_time (time_pos player) +:+ " / " +:+
              get_pretty_time (duration player) +:+ " (" +:+
              fmt_int (f64_as_i32 (percentage player))).
  assert (Hpre : lacks "%" pre = true).
  { unfold pre. by rewrite !lacks_app, !lacks_get_pretty_time, lacks_fmt_int. }
  assert (Heq : time_text player = pre +:+ "%)").
  { unfold time_text, pre. by rewrite !str_app_assoc. }
  rewrite Heq. split; [by rewrite printf_safe_lacks | by exists pre].
Qed.

(** The volume text escapes its percent sign. *)
Lemma volume_text_printf player : printf_safe (volume_text player) = true.
Proof.
  unfold volume_text. rewrite !printf_safe_lacks; [done | by apply lacks_fmt_int | done].
Qed.

(** C37. A request paints only the pane it names, and only a request for
    the playlist writes the canvas. *)
Theorem render_pane max_x h media_title request player canvas canvas' paints :
  render om max_x h media_title request player canvas = Ok (canvas', paints) ->
  Forall (fun p => paint_pane p = pane_of request) paints /\
  (pane_of request <> ListPane -> canvas' = canvas).
Proof.
  unfold render. destruct request as [clear_win scroll|[| |msg formatting]|[| | |]];
    cbn [pane_of]; intros Hr;
    repeat match type of Hr with
    | (_ <- _ ;; _) = Ok _ => apply bind_Ok_inv in Hr as (? & _ & Hr)
    end; injection Hr as <- <-; (split; [|done]);
    try destruct clear_win; by repeat constructor.
Qed.

End Texts.

(** ** The playlist arm as a whole *)

Section List.
Context (om : overflow_mode) `{FloatFormat}.
Context (max_x h : Z) (media_title : option string) (player : Player).

(** The redraw of a list whose selection is on a shown row stores
    [bottom_line = top_line + height], moves nothing, and draws the rows of
    the window that exist on consecutive lines from line 0, the selected one
    and only that one in reverse video; the pane is erased first exactly
    when the request says so. *)
Lemma render_playlist_view clear_win c :
  sizes_ok h (len (playlist player)) -> visible h (len (playlist player)) c ->
  Forall (fun entry => is_Ok (fit om max_x (row_output entry))) (playlist player) ->
  exists rows,
    render om max_x h media_title (Repaint.Playlist clear_win false) player c =
      Ok (set_bottom_line (top_line c + h) c,
          (if clear_win then [Erase ListPane] else []) ++ [Draw (Rows rows) h]) /\
    len rows = Z.min h (len (playlist player) - top_line c) /\
    forall (j : nat) r, rows !! j = Some r ->
      draws om max_x (selected_line c) (playlist player)
        (top_line c + Z.of_nat j) (Z.of_nat j) r /\
      (row_reverse r = true <-> top_line c + Z.of_nat j = selected_line c).
Proof.
  intros Hsz Hc Hfit. unfold render. rewrite render_visible by done. simpl_outcome.
  destruct (print_playlist_view om max_x h (playlist player)
              (set_bottom_line (top_line c + h) c))
    as (rows & -> & Hlen & Hdraw & _);
    [by open_canvas c | unfold sizes_ok, i32_max in *; lia.. | done |].
  simpl_outcome. exists rows. by destruct c.
Qed.

(** An empty playlist: the redraw selects row 0 and shows the notice
    instead of rows. *)
Theorem render_empty_playlist clear_win scroll c :
  playlist player = [] ->
  0 <= h <= i32_max -> 0 <= top_line c -> top_line c + h <= usize_max ->
  0 <= selected_line c <= i32_max ->
  exists c',
    render om max_x h media_title (Repaint.Playlist clear_win scroll) player c =
      Ok (c', (if clear_win then [Erase ListPane] else []) ++ [Draw EmptyNotice h]) /\
    selected_line c' = 0 /\ bottom_line c' = top_line c' + h.
Proof.
  intros Hpl Hh Htop Hmax Hsel. unfold render. rewrite Hpl.
  destruct (render_empty om h scroll c) as (c' & -> & Hs & Hb & Ht); [done..|].
  simpl_outcome. rewrite print_playlist_empty by lia. simpl_outcome.
  exists c'. replace (bottom_line c' - top_line c') with h by lia.
  by rewrite usize_as_i32_small by (unfold_ints; lia).
Qed.

End List.

(** A title with a percent sign is handed to [wprintw] as it is. *)
Example row_output_printf :
  printf_safe (row_output (PlaylistEntry.mk 0 "a.mp3" "100%s pure" false)) = false.
Proof. by vm_compute. Qed.

(** ** Witnesses *)

Lemma key_then_render_view_inv_witness :
  exists c', key_then_render Checked 20 (sample_playlist 100) Down (mkCanvas 0 20 19) = Ok c' /\
    view_inv 20 (len (sample_playlist 100)) c'.
Proof.
  apply (key_then_render_view_inv Checked 20 (sample_playlist 100)); by_decide.
Defined.

Lemma session_view_inv_witness :
  exists c', session Checked 20 (sample_playlist 100)
               (replicate 21 Down ++ [PageDown; Up]) (mkCanvas 0 20 0) = Ok c' /\
    view_inv 20 (len (sample_playlist 100)) c'.
Proof.
  apply (session_view_inv Checked 20 (sample_playlist 100)); by_decide.
Defined.

Lemma render_scroll_to_beginning_witness :
  render_playlist_canvas Wrapping 20 true (sample_playlist 3) (mkCanvas 7 9 8)
    = Ok (mkCanvas 0 20 0) /\
  view_inv 20 (len (sample_playlist 3)) (mkCanvas 0 20 0).
Proof.
  apply (render_scroll_to_beginning Wrapping 20 (sample_playlist 3)); by_decide.
Defined.

Lemma percentage_zero_duration_witness :
  let player := mkPlayer f64_zero false false None [] ([], 0)
                  f64_zero (f64_of_Z 3) f64_zero in
  (time_pos player = f64_zero -> f64_as_i32 (percentage player) = 0) /\
  (forall m e, time_pos player = S754_finite false m e ->
     f64_as_i32 (percentage player) = i32_max /\
     forall max_x, 200 <= max_x <= i32_max ->
       bar_fill Checked max_x player = Panic ArithOverflow).
Proof.
  apply (percentage_zero_duration
           (mkPlayer f64_zero false false None [] ([], 0) f64_zero (f64_of_Z 3) f64_zero)).
  reflexivity.
Defined.

Lemma progress_bar_width_witness :
  str_len ">---------" = Z.max 0 10 /\
  (0 < 10 < 100 ->
   ">---------"%string
   = foldr (fun i acc => bar_glyph i 0 +:+ acc) "" (seqZ 0 10)).
Proof.
  apply (progress_bar_width Checked 10
           (mkPlayer (f64_of_Z 200) false false None [] ([], 0)
              (f64_of_Z 1) (f64_of_Z 100) (f64_of_Z 100))).
  by vm_compute.
Defined.

Lemma render_metadata_none_witness :
  render_metadata (mkPlayer f64_zero false false None [] ([], 0) f64_zero f64_zero f64_zero)
    None = Panic UnwrapNone.
Proof. by apply render_metadata_none. Defined.

Lemma render_pane_witness :
  Forall (fun p => paint_pane p = pane_of (Repaint.TopBar UpdateTopBar.Volume))
    [Print TopPane (Some (1, 66)) "  Volume: 50%%" false] /\
  (pane_of (Repaint.TopBar UpdateTopBar.Volume) <> ListPane ->
   mkCanvas 0 2 0 = mkCanvas 0 2 0).
Proof.
  apply (@render_pane Checked sample_format 80 2 None
           (Repaint.TopBar UpdateTopBar.Volume) sample_titles).
  by vm_compute.
Defined.

Lemma render_playlist_view_witness :
  exists rows,
    @render Checked sample_format 12 2 None (Repaint.Playlist true false) sample_titles
      (mkCanvas 1 9 1) =
      Ok (set_bottom_line (top_line (mkCanvas 1 9 1) + 2) (mkCanvas 1 9 1),
          (if true then [Erase ListPane] else []) ++ [Draw (Rows rows) 2]) /\
    len rows = Z.min 2 (len (playlist sample_titles) - top_line (mkCanvas 1 9 1)) /\
    forall (j : nat) r, rows !! j = Some r ->
      draws Checked 12 (selected_line (mkCanvas 1 9 1)) (playlist sample_titles)
        (top_line (mkCanvas 1 9 1) + Z.of_nat j) (Z.of_nat j) r /\
      (row_reverse r = true <->
       top_line (mkCanvas 1 9 1) + Z.of_nat j = selected_line (mkCanvas 1 9 1)).
Proof.
  apply (@render_playlist_view Checked sample_format 12 2 None sample_titles true
           (mkCanvas 1 9 1)); [by_decide | by_decide |].
  repeat constructor; by eexists.
Defined.

Lemma render_empty_playlist_witness :
  exists c',
    @render Checked sample_format 80 20 None (Repaint.Playlist true true)
      (set_playlist [] sample_titles) (mkCanvas 3 23 7) =
      Ok (c', (if true then [Erase ListPane] else []) ++ [Draw EmptyNotice 20]) /\
    selected_line c' = 0 /\ bottom_line c' = top_line c' + 20.
Proof.
  apply (@render_empty_playlist Checked sample_format 80 20 None
           (set_playlist [] sample_titles) true true (mkCanvas 3 23 7)); by_compute.
Defined.
