(* ===== verification/InputListener.v ===== *)
(** * InputListener: the keyboard thread

    The thread of main.rs 311-679 reads one key code at a time with [getch]
    and dispatches on it (main.rs 323-675).  The arms that compute a canvas
    are in [Viewport] (the four navigation keys, [jump_to_current]) and in
    [Search] (key [n], the prompt); this file holds the dispatch, the arms
    that talk to mpv, and the loop.

    - The client of mpv is an interface, the class [Mpv]: a command answers
      with an error message or with nothing, and [get_playlist] answers with
      a playlist or with an error.  The handlers are written against the
      class; what mpv does with a command is outside the program.
    - A handler returns what the thread does to the outside, in order, as a
      list of [action]s: commands to mpv, sends on the channel and sleeps
      (through [RepaintQueue.effect]), and the [endwin] of key [q].
    - The prompt of [/] is a loop inside the arm (main.rs 562-644).  Here
      the thread has a [mode]: [Browsing], or [Prompting] with the pattern
      typed so far, and [on_key] handles one key in either mode.
      [on_key_prompt_loop] shows that this is the nested loop of the source.

    [height_playlist_win] is the parameter [h]. *)

From Stdlib Require Import ZArith Lia String SpecFloat.
From stdpp Require Import prelude strings gmap.
From S2P Require Import Prelude.
From S2P Require Import Float64.
From S2P Require Import Utf8.
From S2P Require Import Types.
From S2P Require Import Viewport.
From S2P Require Import Search.
From S2P Require Import RepaintQueue.

#[local] Open Scope Z_scope.
#[local] Open Scope rust_scope.

(** ** The client of mpv *)

Module SeekOptions.
Inductive t : Type := Relative | Absolute | RelativePercent | AbsolutePercent.
End SeekOptions.

Module NumberChangeOptions.
Inductive t : Type := Absolute | Increase | Decrease.
End NumberChangeOptions.

Module Switch.
Inductive t : Type := On | Off | Toggle.
End Switch.

(** The calls of [mpvipc::Mpv] the thread makes. *)
Inductive mpv_command : Type :=
| Seek (seconds : f64) (option : SeekOptions.t)
| PlaylistPlayId (id : Z)
| Restart
| Next
| Prev
| SetVolume (input_volume : f64) (option : NumberChangeOptions.t)
| SetSpeed (input_speed : f64) (option : NumberChangeOptions.t)
| SetMute (option : Switch.t)
| TogglePause
| PlaylistRemoveId (id : Z)
| Stop
| RunCommand (command : string) (args : list string).

(** What the program expects of the client: a command returns [Err(why)],
    here [Some why], or [Ok(())]; [get_playlist] and [get_metadata] return
    their value or an error, here [None]; [get_property::<T>(name)] returns
    the value of the property, which the caller reads at type [T]. *)
Class Mpv : Type := {
  mpv_call : mpv_command -> option string;
  mpv_get_playlist : option Playlist;
  mpv_get_metadata : option (gmap string MpvDataType.t);
  mpv_get_property : string -> option MpvDataType.t;
}.

(** The literal [0.05] of main.rs 470 and 476: the double nearest to 1/20. *)
Definition f64_0_05 : f64 := S754_finite false 7205759403792794 (-57).

(** ** The code *)

(** What the thread does to the outside. *)
Inductive action : Type :=
| Call (c : mpv_command)
| Do (e : effect)
| EndWin.

Inductive mode : Type :=
| Browsing
| Prompting (search_string : string).

(** [Exit] is [std::process::exit(0)]. *)
Inductive control : Type :=
| Continue (m : mode)
| Exit.

(** The next mode, the two records and the actions of one key. *)
Definition result : Type := control * Player * PlaylistCanvas * list action.

Definition sends (rs : list Repaint.t) : list action := (fun r => Do (Send r)) <$> rs.

(** The requests among the actions, in order. *)
Definition requests_of (acts : list action) : list Repaint.t :=
  omap (fun a => match a with Do (Send r) => Some r | _ => None end) acts.

(** The commands among the actions, in order. *)
Definition commands_of (acts : list action) : list mpv_command :=
  omap (fun a => match a with Call c => Some c | _ => None end) acts.

Section Code.
Context (om : overflow_mode) (h : Z) `{Mpv}.

(** [mpv.<command>(..).expect(..)] and [.unwrap()]: a failed command is a
    panic of the thread. *)
Definition expect (c : mpv_command) : outcome (list action) :=
  match mpv_call c with
  | Some _ => Panic UnwrapErr
  | None => Ok [Call c]
  end.

(** [mpv.get_playlist().unwrap()]. *)
Definition get_playlist : outcome Playlist :=
  match mpv_get_playlist with
  | Some playlist => Ok playlist
  | None => Panic UnwrapErr
  end.

(** main.rs 421-431: a failed seek is reported through [tx.error]. *)
Definition seek (seconds : f64) : list action :=
  Call (Seek seconds SeekOptions.Relative) ::
  match mpv_call (Seek seconds SeekOptions.Relative) with
  | Some why => Do <$> error (SenderOf InputListener) ("Error: " +:+ why)
  | None => []
  end.

(** The arms that call one command and touch nothing else. *)
Definition command (c : mpv_command) (player : Player) (canvas : PlaylistCanvas)
  : outcome result :=
  acts <- expect c ;;
  Ok (Continue Browsing, player, canvas, acts).

(** The arms that store a canvas and ask for a redraw in place. *)
Definition moved (player : Player) (canvas : PlaylistCanvas) : result :=
  (Continue Browsing, player, canvas, sends [repaint_list]).

(** main.rs 514-528 and 661-671: store the canvas [jump_to_current] returns,
    if it returns one. *)
Definition jump (playlist : Playlist) (player : Player) (canvas : PlaylistCanvas)
    (acts : list action) : outcome result :=
  new_canvas <- jump_to_current om playlist canvas ;;
  match new_canvas with
  | Some new_canvas =>
      Ok (Continue Browsing, player, new_canvas, acts ++ sends [repaint_list])
  | None => Ok (Continue Browsing, player, canvas, acts)
  end.

(** main.rs 323-675: one key outside the prompt. *)
Definition browse_key (ch : Z) (player : Player) (canvas : PlaylistCanvas)
  : outcome result :=
  if ch =? KEY_UP then Ok (moved player (key_up canvas))
  else if ch =? KEY_DOWN then
    canvas' <- key_down om h (playlist player) canvas ;; Ok (moved player canvas')
  else if ch =? KEY_PPAGE then
    canvas' <- key_ppage om h canvas ;; Ok (moved player canvas')
  else if ch =? KEY_NPAGE then
    canvas' <- key_npage om h (playlist player) canvas ;; Ok (moved player canvas')
  else if ch =? KEY_LEFT then
    Ok (Continue Browsing, player, canvas, seek (SFopp (f64_of_Z 5)))
  else if ch =? KEY_RIGHT then
    Ok (Continue Browsing, player, canvas, seek (f64_of_Z 5))
  else if ch =? KEY_ENTER then
    acts <- expect (PlaylistPlayId (selected_line canvas)) ;;
    Ok (Continue Browsing, player, canvas, acts ++ sends [repaint_list])
  else if ch =? KEY_BACKSPACE then command Restart player canvas
  else if ch =? KEY_GT then command Next player canvas
  else if ch =? KEY_LT then command Prev player canvas
  else if ch =? KEY_PLUS then
    command (SetVolume (f64_of_Z 2) NumberChangeOptions.Increase) player canvas
  else if ch =? KEY_MINUS then
    command (SetVolume (f64_of_Z 2) NumberChangeOptions.Decrease) player canvas
  else if ch =? KEY_RSBR then
    command (SetSpeed f64_0_05 NumberChangeOptions.Increase) player canvas
  else if ch =? KEY_LSBR then
    command (SetSpeed f64_0_05 NumberChangeOptions.Decrease) player canvas
  else if ch =? KEY_M then command (SetMute Switch.Toggle) player canvas
  else if ch =? KEY_N then
    r <- key_n om player canvas ;;
    Ok (Continue Browsing, r.1.1, r.1.2, sends r.2)
  else if ch =? KEY_O then jump (playlist player) player canvas []
  else if ch =? KEY_P then command TogglePause player canvas
  else if ch =? KEY_Q then Ok (Exit, player, canvas, [EndWin])
  else if ch =? KEY_R then command (PlaylistRemoveId (selected_line canvas)) player canvas
  else if ch =? KEY_S then command Stop player canvas
  else if ch =? KEY_SLASH then
    Ok (Continue (Prompting ""), player, canvas, sends [status_message "Search:"])
  else if ch =? KEY_U then
    new_playlist <- get_playlist ;;
    Ok (Continue Browsing, set_playlist new_playlist player, canvas,
        sends [Repaint.Playlist true true])
  else if ch =? KEY_Z then
    acts <- expect (RunCommand "playlist-shuffle" []) ;;
    new_playlist <- get_playlist ;;
    jump new_playlist player canvas acts
  else Ok (Continue Browsing, player, canvas, []).

(** main.rs 562-644: one key inside the prompt. *)
Definition prompt_key (ch : Z) (search_string : string) (player : Player)
    (canvas : PlaylistCanvas) : outcome result :=
  r <- search_key om ch search_string player canvas ;;
  let next := match r.1 with Some s => Prompting s | None => Browsing end in
  Ok (Continue next, r.2.1.1, r.2.1.2, sends r.2.2).

(** One [getch] and what follows it. *)
Definition on_key (m : mode) (ch : Z) (player : Player) (canvas : PlaylistCanvas)
  : outcome result :=
  match m with
  | Browsing => browse_key ch player canvas
  | Prompting search_string => prompt_key ch search_string player canvas
  end.

(** main.rs 321-676: the loop over the keys [getch] returns.  The result
    holds the keys left when the process exits. *)
Fixpoint input_loop (keys : list Z) (m : mode) (player : Player)
    (canvas : PlaylistCanvas) (done : list action)
  : outcome (result * list Z) :=
  match keys with
  | [] => Ok ((Continue m, player, canvas, done), [])
  | ch :: keys' =>
      r <- on_key m ch player canvas ;;
      let '(c, player', canvas', acts) := r in
      match c with
      | Continue m' => input_loop keys' m' player' canvas' (done ++ acts)
      | Exit => Ok ((Exit, player', canvas', done ++ acts), keys')
      end
  end.

End Code.

(** Clients for the examples: one that accepts every command and holds the
    playlist [pl], and one whose connection is lost. *)
Definition mpv_up (pl : Playlist) : Mpv :=
  {| mpv_call := fun _ => None; mpv_get_playlist := Some pl;
     mpv_get_metadata := None; mpv_get_property := fun _ => None |}.

Definition mpv_down : Mpv :=
  {| mpv_call := fun _ => Some "connection lost"%string; mpv_get_playlist := None;
     mpv_get_metadata := None; mpv_get_property := fun _ => None |}.

(** The key code of a navigation key. *)
Definition nav_code (k : nav_key) : Z :=
  match k with
  | Up => KEY_UP
  | Down => KEY_DOWN
  | PageUp => KEY_PPAGE
  | PageDown => KEY_NPAGE
  end.

(** The keys that only send a command to mpv, with their command. *)
Definition command_of_key (ch selected_line : Z) : option mpv_command :=
  if ch =? KEY_BACKSPACE then Some Restart
  else if ch =? KEY_GT then Some Next
  else if ch =? KEY_LT then Some Prev
  else if ch =? KEY_PLUS then Some (SetVolume (f64_of_Z 2) NumberChangeOptions.Increase)
  else if ch =? KEY_MINUS then Some (SetVolume (f64_of_Z 2) NumberChangeOptions.Decrease)
  else if ch =? KEY_RSBR then Some (SetSpeed f64_0_05 NumberChangeOptions.Increase)
  else if ch =? KEY_LSBR then Some (SetSpeed f64_0_05 NumberChangeOptions.Decrease)
  else if ch =? KEY_M then Some (SetMute Switch.Toggle)
  else if ch =? KEY_P then Some TogglePause
  else if ch =? KEY_R then Some (PlaylistRemoveId selected_line)
  else if ch =? KEY_S then Some Stop
  else None.

(** ** Lemmas *)

Lemma requests_of_sends rs : requests_of (sends rs) = rs.
Proof. induction rs as [|r rs IH]; [done|]. cbn. by f_equal. Qed.

Lemma requests_of_app a b : requests_of (a ++ b) = requests_of a ++ requests_of b.
Proof. apply omap_app. Qed.

Lemma commands_of_sends rs : commands_of (sends rs) = [].
Proof. by induction rs. Qed.

(** [0.05] is the double nearest to 1/20: the error is below half a unit in
    the last place, [2^-58]. *)
Lemma f64_0_05_nearest :
  f64_0_05 = S754_finite false 7205759403792794 (-57) /\
  Z.abs (20 * 7205759403792794 - 2 ^ 57) <= 10 /\
  2 ^ 52 <= 7205759403792794 < 2 ^ 53.
Proof. by vm_compute. Qed.

Section Dispatch.
Context (om : overflow_mode) (h : Z) `{Mpv}.

(** Case analysis on the key of [browse_key], in the order of the arms. *)
Ltac case_key ch :=
  unfold browse_key, command_of_key;
  repeat match goal with
  | |- context [ch =? ?k] => destruct (Z.eqb_spec ch k); [subst ch|]
  end.

(** A key that only sends a command to mpv: when mpv accepts the
    command, the thread sends exactly that command, no request, and leaves
    both records as they are; when mpv refuses it, the thread panics. *)
Theorem browse_key_command ch player canvas c :
  command_of_key ch (selected_line canvas) = Some c ->
  browse_key om h ch player canvas =
    match mpv_call c with
    | None => Ok (Continue Browsing, player, canvas, [Call c])
    | Some _ => Panic UnwrapErr
    end.
Proof.
  case_key ch; intros Hc; try discriminate; injection Hc as <-; cbn;
    unfold command, expect; by destruct (mpv_call _).
Qed.

(** C38. A seek that mpv refuses is reported and does not stop the thread:
    the message is sent, the thread sleeps 2500 ms, and the status bar is
    cleared; the records are untouched. *)
Theorem browse_key_seek_error ch player canvas why :
  ch = KEY_LEFT \/ ch = KEY_RIGHT ->
  (forall seconds, mpv_call (Seek seconds SeekOptions.Relative) = Some why) ->
  exists acts,
    browse_key om h ch player canvas = Ok (Continue Browsing, player, canvas, acts) /\
    requests_of acts =
      [status_message ("Error: " +:+ why); status_clear] /\
    commands_of acts =
      [Seek (if ch =? KEY_LEFT then SFopp (f64_of_Z 5) else f64_of_Z 5)
         SeekOptions.Relative].
Proof.
  intros [-> | ->] Hseek; cbn; unfold seek; rewrite Hseek; eexists; split; done.
Qed.

(** A key without an arm is ignored. *)
Lemma browse_key_unbound ch player canvas :
  ch ∉ [KEY_UP; KEY_DOWN; KEY_PPAGE; KEY_NPAGE; KEY_LEFT; KEY_RIGHT; KEY_ENTER;
        KEY_BACKSPACE; KEY_GT; KEY_LT; KEY_PLUS; KEY_MINUS; KEY_RSBR; KEY_LSBR;
        KEY_M; KEY_N; KEY_O; KEY_P; KEY_Q; KEY_R; KEY_S; KEY_SLASH; KEY_U; KEY_Z] ->
  browse_key om h ch player canvas = Ok (Continue Browsing, player, canvas, []).
Proof.
  intros Hch. repeat (apply not_elem_of_cons in Hch as [? Hch]). by case_key ch.
Qed.

(** A navigation key is the step of [Viewport] followed by one request. *)
Lemma browse_key_nav k player canvas :
  browse_key om h (nav_code k) player canvas =
  (canvas' <- nav_step om h (playlist player) k canvas ;; Ok (moved player canvas')).
Proof. by destruct k. Qed.

(** ** Lemmas: the loop *)

Lemma input_loop_app keys keys' m player canvas acts :
  input_loop om h (keys ++ keys') m player canvas acts =
    (r <- input_loop om h keys m player canvas acts ;;
     match r.1.1.1.1 with
     | Continue m' => input_loop om h keys' m' r.1.1.1.2 r.1.1.2 r.1.2
     | Exit => Ok (r.1, r.2 ++ keys')
     end).
Proof.
  revert m player canvas acts.
  induction keys as [|ch keys IH]; intros m player canvas acts; [done|].
  cbn [app input_loop]. destruct (on_key om h m ch player canvas) as [r|p]; [|done].
  simpl_outcome. destruct r as [[[[m'|] player'] canvas'] acts']; [apply IH | done].
Qed.

(** The prompt of the source, run over [keys], against the loop with a mode. *)
Lemma prompt_input_loop keys search_string player canvas sent acts :
  requests_of acts = sent ->
  match search_loop om keys search_string player canvas sent with
  | Ok (Some s, (player', canvas', sent'), rest) =>
      exists acts', input_loop om h keys (Prompting search_string) player canvas acts =
        Ok ((Continue (Prompting s), player', canvas', acts'), []) /\
        requests_of acts' = sent' /\ rest = []
  | Ok (None, (player', canvas', sent'), rest) =>
      exists acts', input_loop om h keys (Prompting search_string) player canvas acts =
        input_loop om h rest Browsing player' canvas' acts' /\
        requests_of acts' = sent'
  | Panic p => input_loop om h keys (Prompting search_string) player canvas acts = Panic p
  end.
Proof.
  revert search_string player canvas sent acts.
  induction keys as [|ch keys IH]; intros s player canvas sent acts Hacts.
  - cbn. by exists acts.
  - cbn [search_loop input_loop on_key]. unfold prompt_key.
    destruct (search_key om ch s player canvas) as [[next [[player' canvas'] sent']]|p];
      [|done].
    simpl_outcome. cbn [fst snd].
    assert (Hacts' : requests_of (acts ++ sends sent') = sent ++ sent')
      by (by rewrite requests_of_app, requests_of_sends, Hacts).
    destruct next as [s'|]; [by apply IH|].
    by exists (acts ++ sends sent').
Qed.

End Dispatch.


(** C39. Without a connection to mpv, every key that needs an answer of mpv
    makes the thread panic, except the two seek keys: the keyboard is dead
    while the render loop and the observer keep running. *)
Theorem browse_key_mpv_down om h ch player canvas :
  ch ∈ [KEY_ENTER; KEY_BACKSPACE; KEY_GT; KEY_LT; KEY_PLUS; KEY_MINUS; KEY_RSBR;
        KEY_LSBR; KEY_M; KEY_P; KEY_R; KEY_S; KEY_U; KEY_Z] ->
  @browse_key om h mpv_down ch player canvas = Panic UnwrapErr.
Proof.
  intros Hch. repeat (apply elem_of_cons in Hch as [-> | Hch]; [done|]).
  by apply elem_of_nil in Hch.
Qed.

(** Key [q] leaves the loop at once: the keys after it are not read. *)
Example input_loop_quit :
  @input_loop Checked 20 (mpv_up (sample_playlist 100))
    [KEY_DOWN; KEY_Q; KEY_DOWN] Browsing (sample_player [] 0) (mkCanvas 0 20 0) [] =
  Ok ((Exit, sample_player [] 0, mkCanvas 0 20 1, sends [repaint_list] ++ [EndWin]),
      [KEY_DOWN]).
Proof. by vm_compute. Qed.

(** ** Witnesses *)

Lemma browse_key_command_witness :
  @browse_key Checked 20 (mpv_up []) KEY_PLUS (sample_player [] 0) (mkCanvas 0 20 0) =
    match @mpv_call (mpv_up []) (SetVolume (f64_of_Z 2) NumberChangeOptions.Increase) with
    | None => Ok (Continue Browsing, sample_player [] 0, mkCanvas 0 20 0,
                  [Call (SetVolume (f64_of_Z 2) NumberChangeOptions.Increase)])
    | Some _ => Panic UnwrapErr
    end.
Proof.
  apply (@browse_key_command Checked 20 (mpv_up []) KEY_PLUS (sample_player [] 0)
           (mkCanvas 0 20 0)).
  reflexivity.
Defined.

Lemma browse_key_seek_error_witness :
  exists acts,
    @browse_key Checked 20 mpv_down KEY_LEFT (sample_player [] 0) (mkCanvas 0 20 0) =
      Ok (Continue Browsing, sample_player [] 0, mkCanvas 0 20 0, acts) /\
    requests_of acts =
      [status_message ("Error: " +:+ "connection lost"); status_clear] /\
    commands_of acts =
      [Seek (if KEY_LEFT =? KEY_LEFT then SFopp (f64_of_Z 5) else f64_of_Z 5)
         SeekOptions.Relative].
Proof.
  apply (@browse_key_seek_error Checked 20 mpv_down KEY_LEFT); [by left | done].
Defined.


Lemma browse_key_mpv_down_witness :
  @browse_key Checked 20 mpv_down KEY_U (sample_player [] 0) (mkCanvas 0 20 0)
    = Panic UnwrapErr.
Proof. apply browse_key_mpv_down. set_solver. Defined.
