(* ===== verification/System.v ===== *)
(** * System: the three threads together

    [main] (main.rs 130-147, 305-310) creates the channel, the shared
    [Player] and the shared [PlaylistCanvas], and runs three loops on them:
    the property observer (main.rs 178-300), the input listener (main.rs
    320-677) and the render loop (main.rs 691-857).

    A [system] is what the three loops share, together with the mode of the
    input listener and a log of what was painted.  A [thread_event] is one
    iteration of one loop: the observer receives a result of [event_listen],
    the input listener a key code, the render loop the oldest request of the
    channel.  [step] runs that iteration with the handlers of
    [PropertyListener], [InputListener] and [RenderLoop], and [run] runs a
    schedule, a list of such events in the order in which they happen.

    An iteration is atomic here.  The source takes each lock for a statement
    or for an arm, so the observer can write the player between two reads of
    another thread.  The schedules of this model are the ones in which it does not;
    every behaviour shown here is therefore a behaviour of the program
    ([Threads.atomic_runs_realized]), and the program has more
    ([Threads.torn_frame]).  [run] stops at the first panic, whichever
    thread raises it; what a panic does to the other threads is in
    [Locking]. *)

From Stdlib Require Import ZArith Lia String.
From stdpp Require Import prelude strings.
From S2P Require Import Prelude.
From S2P Require Import Float64.
From S2P Require Import Utf8.
From S2P Require Import Types.
From S2P Require Import Viewport.
From S2P Require Import Search.
From S2P Require Import RepaintQueue.
From S2P Require Import PropertyListener.
From S2P Require Import PlaylistView.
From S2P Require Import RenderLoop.
From S2P Require Import InputListener.

#[local] Open Scope Z_scope.
#[local] Open Scope rust_scope.

(** ** The code *)

Record system : Type := mkSystem {
  sys_player : Player;            (* Arc<Mutex<Player>>, main.rs 134 *)
  sys_canvas : PlaylistCanvas;    (* Arc<Mutex<PlaylistCanvas>>, main.rs 305 *)
  sys_channel : chan_state;       (* the channel of main.rs 130 *)
  sys_mode : mode;                (* where the input listener is *)
  sys_exited : bool;              (* key [q] was handled *)
  sys_screen : list paint;        (* what was painted, oldest first *)
}.

(** One iteration of one of the three loops. *)
Inductive thread_event : Type :=
| Notify (result : option Event.t)      (* [observer.event_listen()] *)
| Key (ch : Z)                          (* [getch()] *)
| Redraw (media_title : option string). (* [rx.recv()], and mpv's answer
                                           to the lookup of line 811 *)

(** The requests a handler sends join the channel in its order. *)
Definition post (p : producer) (requests : list Repaint.t) (c : chan_state)
  : chan_state :=
  mkChan (delivered c) (send_all p requests (pending c)).

Section Code.
Context (om : overflow_mode) (max_x h : Z) `{Mpv} `{FloatFormat}.

(** main.rs 178-300, one iteration. *)
Definition notify (result : option Event.t) (s : system) : outcome system :=
  event <- match result with Some event => Ok event | None => Panic UnwrapErr end ;;
  let r := on_event event (sys_player s) in
  Ok (mkSystem r.1 (sys_canvas s) (post PropertyObserver r.2 (sys_channel s))
        (sys_mode s) (sys_exited s) (sys_screen s)).

(** main.rs 320-677, one iteration. *)
Definition key (ch : Z) (s : system) : outcome system :=
  r <- on_key om h (sys_mode s) ch (sys_player s) (sys_canvas s) ;;
  let channel := post InputListener (requests_of r.2) (sys_channel s) in
  Ok match r.1.1.1 with
     | Continue m => mkSystem r.1.1.2 r.1.2 channel m false (sys_screen s)
     | Exit => mkSystem r.1.1.2 r.1.2 channel (sys_mode s) true (sys_screen s)
     end.

(** main.rs 691-857, one iteration; on an empty channel the loop stays
    blocked in [recv]. *)
Definition redraw (media_title : option string) (s : system) : outcome system :=
  match recv (pending (sys_channel s)) with
  | None => Ok s
  | Some (m, rest) =>
      r <- render om max_x h media_title m.2 (sys_player s) (sys_canvas s) ;;
      Ok (mkSystem (sys_player s) r.1 (mkChan (delivered (sys_channel s) ++ [m]) rest)
            (sys_mode s) (sys_exited s) (sys_screen s ++ r.2))
  end.

(** After [process::exit] nothing runs. *)
Definition step (s : system) (e : thread_event) : outcome system :=
  if sys_exited s then Ok s
  else match e with
       | Notify result => notify result s
       | Key ch => key ch s
       | Redraw media_title => redraw media_title s
       end.

Fixpoint run (s : system) (schedule : list thread_event) : outcome system :=
  match schedule with
  | [] => Ok s
  | e :: schedule' => s' <- step s e ;; run s' schedule'
  end.

End Code.

(** The state [main] starts the loops in (main.rs 134-147, 305-310, 685):
    the canvas [(0, max_y as usize, 0)] and one request for the list in the
    channel. *)
Definition boot (player : Player) (max_y : Z) : system :=
  mkSystem player (mkCanvas 0 (i32_as_usize max_y) 0)
    (post MainThread [repaint_list] chan_init) Browsing false [].

(** A schedule in which every navigation key is redrawn before the next
    key is read. *)
Definition synchronous (keys : list nav_key) : list thread_event :=
  keys ≫= fun k => [Key (nav_code k); Redraw None].

(** The input listener waits for a key outside the prompt, nothing is in
    flight, and every row can be drawn in [max_x] columns. *)
Definition calm (om : overflow_mode) (max_x : Z) (s : system) : Prop :=
  sys_mode s = Browsing /\ sys_exited s = false /\ pending (sys_channel s) = [] /\
  Forall (fun entry => is_Ok (fit om max_x (row_output entry)))
    (playlist (sys_player s)).

(** ** Lemmas *)

Lemma synchronous_snoc keys k :
  synchronous (keys ++ [k]) = synchronous keys ++ [Key (nav_code k); Redraw None].
Proof. unfold synchronous. by rewrite bind_app. Qed.

Section Run.
Context (om : overflow_mode) (max_x h : Z) `{Mpv} `{FloatFormat}.

Lemma run_app s schedule schedule' :
  run om max_x h s (schedule ++ schedule') =
    (s' <- run om max_x h s schedule ;; run om max_x h s' schedule').
Proof.
  revert s. induction schedule as [|e schedule IH]; intros s; [done|].
  cbn [app run]. destruct (step om max_x h s e); [apply IH | done].
Qed.

(** A navigation key in a calm system and the redraw that follows it. *)
Lemma key_redraw k s :
  sizes_ok h (len (playlist (sys_player s))) ->
  calm om max_x s -> view_inv h (len (playlist (sys_player s))) (sys_canvas s) ->
  exists s',
    run om max_x h s [Key (nav_code k); Redraw None] = Ok s' /\
    calm om max_x s' /\ sys_player s' = sys_player s /\
    view_inv h (len (playlist (sys_player s'))) (sys_canvas s') /\
    exists rows, last (sys_screen s') = Some (Draw (Rows rows) h) /\
      forall (j : nat) r, rows !! j = Some r ->
        (row_reverse r = true <->
         top_line (sys_canvas s') + Z.of_nat j = selected_line (sys_canvas s')).
Proof.
  intros Hsz (Hmode & Hexit & Hpend & Hfit) Hinv.
  destruct s as [player canvas [dlv pnd] m exited screen]; cbn in *. subst.
  destruct (nav_step_visible om h (playlist player) Hsz k canvas Hinv)
    as (canvas1 & Hnav & Hvis).
  destruct (render_playlist_view om max_x h None player false canvas1 Hsz Hvis Hfit)
    as (rows & Hrender & _ & Hrows).
  cbn [run step sys_exited]. unfold key.
  cbn [sys_mode on_key sys_player sys_canvas sys_channel sys_screen].
  rewrite browse_key_nav, Hnav. simpl_outcome. unfold moved. cbn [fst snd].
  rewrite requests_of_sends. cbn [step sys_exited]. unfold redraw, post, send_all.
  cbn [pending delivered recv fmap list_fmap app fst snd sys_player sys_canvas
       sys_channel sys_mode sys_exited sys_screen]. unfold repaint_list.
  rewrite Hrender. simpl_outcome. cbn [fst snd]. eexists. split; [reflexivity|].
  split; [done|]. split; [done|]. cbn.
  split; [by destruct canvas1, Hvis|].
  exists rows. split; [by rewrite last_snoc|].
  intros j r Hj. destruct canvas1. by apply Hrows.
Qed.

End Run.

(** ** Theorems *)

(** C1. Keys that never outrun the renderer: from a calm system whose
    canvas was redrawn, on a playlist that is not empty, every schedule in
    which each navigation key is followed by its redraw runs without a panic
    in both build profiles; at its end nothing is in flight, the player is
    untouched, the selection is a row of the playlist inside the window, and
    the last thing painted is the list with the selected row, and no other,
    in reverse video. *)
Theorem run_synchronous om max_x h `{Mpv} `{FloatFormat} keys s :
  sizes_ok h (len (playlist (sys_player s))) ->
  calm om max_x s -> view_inv h (len (playlist (sys_player s))) (sys_canvas s) ->
  exists s',
    run om max_x h s (synchronous keys) = Ok s' /\
    calm om max_x s' /\ sys_player s' = sys_player s /\
    view_inv h (len (playlist (sys_player s'))) (sys_canvas s') /\
    (keys <> [] ->
     exists rows, last (sys_screen s') = Some (Draw (Rows rows) h) /\
       forall (j : nat) r, rows !! j = Some r ->
         (row_reverse r = true <->
          top_line (sys_canvas s') + Z.of_nat j = selected_line (sys_canvas s'))).
Proof.
  intros Hsz Hcalm Hinv.
  induction keys as [|k keys IH] using rev_ind; [by exists s|].
  destruct IH as (s1 & Hrun & Hcalm1 & Hp1 & Hinv1 & _).
  rewrite synchronous_snoc, run_app, Hrun. simpl_outcome. rewrite <- Hp1 in Hsz.
  destruct (key_redraw om max_x h k s1 Hsz Hcalm1 Hinv1)
    as (s2 & Hrun2 & Hcalm2 & Hp2 & Hinv2 & Hrows).
  exists s2. rewrite Hrun2. split; [done|]. split; [done|].
  split; [congruence|]. split; [done|]. by intros _.
Qed.

(** C24. The metadata race.  The observer stores the metadata of a new
    file and asks for the top bar; before the render loop serves the request
    the file ends and the observer stores [None].  The render loop then
    unwraps [None] at line 801 and the process ends. *)
Theorem run_metadata_race om max_x h `{Mpv} `{FloatFormat} s metadata media_title :
  sys_exited s = false -> pending (sys_channel s) = [] ->
  run om max_x h s
    [Notify (Some (Event.PropertyChange OBS_ID_METADATA (MpvDataType.HashMap metadata)));
     Notify (Some (Event.PropertyChange OBS_ID_METADATA MpvDataType.Null));
     Redraw media_title] = Panic UnwrapNone.
Proof.
  intros Hexit Hpend. destruct s as [player canvas [dlv pnd] m exited screen].
  cbn in Hexit, Hpend. subst. reflexivity.
Qed.


(** ** Witnesses *)

Lemma run_synchronous_witness :
  let s := mkSystem (mkPlayer f64_zero false false None (sample_playlist 100) ([], 0)
                       f64_zero f64_zero f64_zero)
             (mkCanvas 0 20 19) chan_init Browsing false [] in
  exists s',
    @run Checked 80 20 (mpv_up []) sample_format s (synchronous [Down; PageDown; Up]) = Ok s' /\
    calm Checked 80 s' /\ sys_player s' = sys_player s /\
    view_inv 20 (len (playlist (sys_player s'))) (sys_canvas s') /\
    ([Down; PageDown; Up] <> [] ->
     exists rows, last (sys_screen s') = Some (Draw (Rows rows) 20) /\
       forall (j : nat) r, rows !! j = Some r ->
         (row_reverse r = true <->
          top_line (sys_canvas s') + Z.of_nat j = selected_line (sys_canvas s'))).
Proof.
  apply (@run_synchronous Checked 80 20 (mpv_up []) sample_format [Down; PageDown; Up]);
    [by_decide | | by_decide].
  repeat split.
  eapply Forall_impl; [|intros entry; apply (fit_plain_Ok Checked 80); by_compute].
  apply playlist_of_titles_plain; [lia | by apply Forall_replicate].
Defined.

Lemma run_metadata_race_witness :
  @run Checked 80 20 (mpv_up []) sample_format
    (boot (mkPlayer f64_zero false false None [] ([], 0) f64_zero f64_zero f64_zero) 26)
    [Redraw None] = Ok (mkSystem
      (mkPlayer f64_zero false false None [] ([], 0) f64_zero f64_zero f64_zero)
      (mkCanvas 0 20 0) (mkChan [(MainThread, repaint_list)] []) Browsing false
      [Draw EmptyNotice 20]) /\
  @run Checked 80 20 (mpv_up []) sample_format
    (mkSystem (mkPlayer f64_zero false false None [] ([], 0) f64_zero f64_zero f64_zero)
       (mkCanvas 0 20 0) (mkChan [(MainThread, repaint_list)] []) Browsing false
       [Draw EmptyNotice 20])
    [Notify (Some (Event.PropertyChange OBS_ID_METADATA (MpvDataType.HashMap ∅)));
     Notify (Some (Event.PropertyChange OBS_ID_METADATA MpvDataType.Null));
     Redraw None] = Panic UnwrapNone.
Proof.
  split; [by vm_compute|].
  by apply (@run_metadata_race Checked 80 20 (mpv_up []) sample_format).
Defined.
