(* ===== verification/Startup.v ===== *)
(** * Startup: what [main] does before the loops

    [main] (main.rs 106-177, 305-319, 678-688, 858-864) starts curses,
    measures the terminal, creates the three windows, connects to mpv, reads
    the first values of the player, spawns the two threads and prints a first
    status line.  The property observer opens a connection of its own and
    subscribes to eight properties before its loop (main.rs 157-173).

    - The terminal is a list of [curses_call]s, in the order of the calls.
    - The server is the class [Socket]: a connection or a refusal with its
      code.  The first values are read through [Mpv]; [get_property::<T>]
      fails on a value of another type.
    - [thread::Builder::spawn] can fail; [spawn] says which thread starts.
    - What [main] did is returned with its end: a panic, the refusal, or the
      state in which the loops start ([System.boot]).

    The macro [error!] of line 861 is in macros.rs, which is not among the
    sources; it is the event [Report] with the text of the call.

    The theorems: the three windows tile the terminal; a refused connection
    is reported after [endwin]; a failed first read is a panic inside curses
    mode; on success the first iteration of the render loop draws the first
    frame and establishes the invariant of [System.run_synchronous]; the
    subscriptions are the ids the loop dispatches on. *)

From Stdlib Require Import ZArith Lia String.
From stdpp Require Import prelude strings gmap.
From S2P Require Import Prelude.
From S2P Require Import Float64.
From S2P Require Import Utf8.
From S2P Require Import Types.
From S2P Require Import Viewport.
From S2P Require Import RepaintQueue.
From S2P Require Import PropertyListener.
From S2P Require Import PlaylistView.
From S2P Require Import RenderLoop.
From S2P Require Import InputListener.
From S2P Require Import System.

#[local] Open Scope Z_scope.
#[local] Open Scope rust_scope.

(** ** The terminal *)

(** [newwin(nlines, ncols, begin_y, begin_x)]. *)
Record WINDOW : Type := mkWindow {
  nlines : Z;
  ncols : Z;
  begin_y : Z;
  begin_x : Z;
}.

#[export] Instance WINDOW_eq_dec : EqDecision WINDOW.
Proof. solve_decision. Defined.

(** main.rs 117-128. *)
Record layout : Type := mkLayout {
  height_playlist_win : Z;
  top_bar : WINDOW;
  playlist_win : WINDOW;
  status_bar : WINDOW;
}.

Inductive curses_call : Type :=
| Setlocale | Initscr | Noecho | Keypad | CursSet
| Newwin (w : WINDOW)
| Endwin.

#[export] Instance curses_call_eq_dec : EqDecision curses_call.
Proof. solve_decision. Defined.

(** What [main] does to the outside before its loop. *)
Inductive main_event : Type :=
| Curses (call : curses_call)
| Spawn (name : string)
| Show (p : paint)
| Report (message : string).

(** ** The server *)

Inductive connection : Type :=
| Connected (mpv : Mpv)
| Refused (code : string).

(** [Mpv::connect(path)]. *)
Class Socket : Type := connect : string -> connection.

(** [observer.observe_property(&id, name)]: [Err(why)] is [Some why]. *)
Class Observer : Type := observe_property : Z -> string -> option string.

(** How [main] ends before its loop. *)
Inductive started : Type :=
| Loops (l : layout) (s : system)
| NoServer.

(** ** The code *)

Section Code.
Context (om : overflow_mode).

(** main.rs 117-128: the three windows of a terminal of [max_y] rows and
    [max_x] columns.  The playlist window starts at row [height_status_bar]. *)
Definition windows (max_y max_x : Z) : outcome layout :=
  let height_top_bar := 3 in
  let height_status_bar := 3 in
  rest <- i32_sub om max_y height_status_bar ;;
  height_playlist_win <- i32_sub om rest height_top_bar ;;
  y <- i32_add om height_top_bar height_playlist_win ;;
  Ok (mkLayout height_playlist_win
        (mkWindow height_top_bar max_x 0 0)
        (mkWindow height_playlist_win max_x height_status_bar 0)
        (mkWindow height_status_bar max_x y 0)).

(** [mpv.get_property::<bool>(name).unwrap()]. *)
Definition get_bool `{Mpv} (name : string) : outcome bool :=
  match mpv_get_property name with
  | Some (MpvDataType.Bool b) => Ok b
  | _ => Panic UnwrapErr
  end.

(** [mpv.get_property::<f64>(name).unwrap()]. *)
Definition get_f64 `{Mpv} (name : string) : outcome f64 :=
  match mpv_get_property name with
  | Some (MpvDataType.Double f) => Ok f
  | _ => Panic UnwrapErr
  end.

(** main.rs 134-148: the fields in the order in which the struct expression
    evaluates them.  A failed [get_metadata] is [None]; every other failed
    read is a panic. *)
Definition init_player `{Mpv} : outcome Player :=
  let metadata := mpv_get_metadata in
  is_muted <- get_bool "mute" ;;
  is_paused <- get_bool "pause" ;;
  playlist <- get_playlist ;;
  speed <- get_f64 "speed" ;;
  volume <- get_f64 "volume" ;;
  Ok (mkPlayer f64_zero is_muted is_paused metadata playlist ([], 0) speed
        f64_zero volume).

(** main.rs 981-985. *)
Definition print_status (win : pane) (msg : string) : paint :=
  Print win (Some (1, 0)) msg false.

(** main.rs 107-111. *)
Definition curses_init : list main_event :=
  Curses <$> [Setlocale; Initscr; Noecho; Keypad; CursSet].

(** main.rs 107-128: curses is started and the windows are created. *)
Definition window_events (l : layout) : list main_event :=
  curses_init ++
  (Curses <$> [Newwin (top_bar l); Newwin (playlist_win l); Newwin (status_bar l)]).

(** main.rs 859-862: the connection is refused. *)
Definition no_server (code : string) : list main_event :=
  [Curses Endwin; Report ("Error: Could not connect to mpv socket: " +:+ code)].

(** main.rs 681-682. *)
Definition first_status : main_event :=
  Show (print_status StatusPane "This is a test").

(** main.rs 106-148, 305-319, 678-688 and 858-862: [main] up to its loop,
    on a terminal of [max_y] rows and [max_x] columns. *)
Definition main_start `{Socket} (spawn : string -> bool) (max_y max_x : Z)
  : list main_event * outcome started :=
  match windows max_y max_x with
  | Panic p => (curses_init, Panic p)
  | Ok l =>
      let wins := window_events l in
      match connect "/tmp/mpvsocket" with
      | Refused code =>
          (wins ++ no_server code, Ok NoServer)
      | Connected mpv =>
          match @init_player mpv with
          | Panic p => (wins, Panic p)
          | Ok player =>
              if negb (spawn "property_observer") then (wins, Panic UnwrapErr)
              else if negb (spawn "input_listener")
              then (wins ++ [Spawn "property_observer"], Panic UnwrapErr)
              else
                (wins ++ [Spawn "property_observer"; Spawn "input_listener"; first_status],
                 Ok (Loops l (boot player max_y)))
          end
      end
  end.

End Code.

(** main.rs 158-173: the subscriptions of the observer, in order. *)
Definition subscriptions : list (Z * string) :=
  [(OBS_ID_DURATION, "duration"); (OBS_ID_METADATA, "metadata");
   (OBS_ID_MUTE, "mute"); (OBS_ID_PLAYLIST, "playlist");
   (OBS_ID_PAUSE, "pause"); (OBS_ID_SPEED, "speed");
   (OBS_ID_TIME_POS, "time-pos"); (OBS_ID_VOLUME, "volume")]%string.

(** Each [observe_property(..).unwrap()] in turn; the ids observed. *)
Fixpoint observe_all `{Observer} (subs : list (Z * string)) : outcome (list Z) :=
  match subs with
  | [] => Ok []
  | (id, name) :: subs' =>
      match observe_property id name with
      | Some _ => Panic UnwrapErr
      | None => ids <- observe_all subs' ;; Ok (id :: ids)
      end
  end.

(** main.rs 157-173: the connection of the observer, [None] when it is
    refused, and its subscriptions. *)
Definition observer_start (observer : option Observer) : outcome (list Z) :=
  match observer with
  | None => Panic UnwrapErr
  | Some o => @observe_all o subscriptions
  end.

(** main.rs 155-301: the thread of the observer on the results of
    [event_listen]. *)
Definition property_observer (observer : option Observer)
    (results : list (option Event.t)) (player : Player)
  : outcome (Player * list Repaint.t) :=
  _ <- observer_start observer ;;
  observer_loop results player [].

(** The property from which [main] reads the first value of a field
    (main.rs 136-147), for the fields it reads. *)
Definition first_read (f : field) : option string :=
  match f with
  | FIsMuted => Some "mute"
  | FIsPaused => Some "pause"
  | FPlaylist => Some "playlist"
  | FSpeed => Some "speed"
  | FVolume => Some "volume"
  | FMetadata => Some "metadata"
  | FDuration | FTimePos => None
  end%string.

(** For the examples: a server with an idle player, and one that is down. *)
Definition mpv_idle (pl : Playlist) : Mpv :=
  {| mpv_call := fun _ => None;
     mpv_get_playlist := Some pl;
     mpv_get_metadata := None;
     mpv_get_property := fun name =>
       if String.eqb name "mute" then Some (MpvDataType.Bool false)
       else if String.eqb name "pause" then Some (MpvDataType.Bool true)
       else if String.eqb name "speed" then Some (MpvDataType.Double (f64_of_Z 1))
       else if String.eqb name "volume" then Some (MpvDataType.Double (f64_of_Z 50))
       else None |}.

Definition socket_up (pl : Playlist) : Socket := fun _ => Connected (mpv_idle pl).

Definition socket_down : Socket := fun _ => Refused "ConnectError".

(** The calls to curses and the threads spawned among the events of
    [main], in order. *)
Definition calls_of (events : list main_event) : list curses_call :=
  omap (fun e => match e with Curses call => Some call | _ => None end) events.

Definition spawned (events : list main_event) : list string :=
  omap (fun e => match e with Spawn name => Some name | _ => None end) events.

(** The rows a window covers. *)
Definition rows_of (w : WINDOW) : list Z := seqZ (begin_y w) (nlines w).

(** ** Lemmas *)

Section Windows.
Context (om : overflow_mode) (max_y max_x : Z).
Context (Hy : 6 <= max_y <= i32_max).

Lemma windows_Ok :
  windows om max_y max_x =
    Ok (mkLayout (max_y - 6) (mkWindow 3 max_x 0 0) (mkWindow (max_y - 6) max_x 3 0)
          (mkWindow 3 max_x (max_y - 3) 0)).
Proof.
  unfold windows. run_ok.
  replace (max_y - 3 - 3) with (max_y - 6) by lia.
  by replace (3 + (max_y - 6)) with (max_y - 3) by lia.
Qed.

End Windows.

Lemma elem_of_seqZ_iff (m n i : Z) : i ∈ seqZ m n <-> m <= i < m + n.
Proof. apply elem_of_seqZ. Qed.

Lemma calls_of_window_events l : Endwin ∉ calls_of (window_events l).
Proof.
  cbn. intros Hin. repeat (apply elem_of_cons in Hin as [?|Hin]; [done|]).
  by apply elem_of_nil in Hin.
Qed.

Lemma init_player_Ok (mpv : Mpv) muted paused pl speed volume :
  @mpv_get_property mpv "mute" = Some (MpvDataType.Bool muted) ->
  @mpv_get_property mpv "pause" = Some (MpvDataType.Bool paused) ->
  @mpv_get_playlist mpv = Some pl ->
  @mpv_get_property mpv "speed" = Some (MpvDataType.Double speed) ->
  @mpv_get_property mpv "volume" = Some (MpvDataType.Double volume) ->
  @init_player mpv =
    Ok (mkPlayer f64_zero muted paused (@mpv_get_metadata mpv) pl ([], 0) speed
          f64_zero volume).
Proof.
  intros Hmute Hpause Hpl Hspeed Hvolume.
  unfold init_player, get_bool, get_f64, get_playlist.
  by rewrite Hmute, Hpause, Hpl, Hspeed, Hvolume.
Qed.

(** A typed read of a property that does not hold a value of the type. *)
Lemma get_bool_Panic (mpv : Mpv) name :
  (forall b, @mpv_get_property mpv name <> Some (MpvDataType.Bool b)) ->
  @get_bool mpv name = Panic UnwrapErr.
Proof.
  intros Hb. unfold get_bool.
  destruct (mpv_get_property name) as [[]|] eqn:E; try done. by destruct (Hb b).
Qed.

Lemma get_f64_Panic (mpv : Mpv) name :
  (forall f, @mpv_get_property mpv name <> Some (MpvDataType.Double f)) ->
  @get_f64 mpv name = Panic UnwrapErr.
Proof.
  intros Hb. unfold get_f64.
  destruct (mpv_get_property name) as [[]|] eqn:E; try done. by destruct (Hb f).
Qed.

Lemma outcome_cases {A} (m : outcome A) : (exists a, m = Ok a) \/ (exists p, m = Panic p).
Proof. destruct m; eauto. Qed.

Lemma init_player_Panic (mpv : Mpv) :
  (forall b, @mpv_get_property mpv "mute" <> Some (MpvDataType.Bool b)) \/
  (forall b, @mpv_get_property mpv "pause" <> Some (MpvDataType.Bool b)) \/
  @mpv_get_playlist mpv = None \/
  (forall f, @mpv_get_property mpv "speed" <> Some (MpvDataType.Double f)) \/
  (forall f, @mpv_get_property mpv "volume" <> Some (MpvDataType.Double f)) ->
  @init_player mpv = Panic UnwrapErr.
Proof.
  intros Hbad. unfold init_player.
  assert (forall name, exists r, @get_bool mpv name = r /\
            (r = Panic UnwrapErr \/ exists b, r = Ok b)) as Hbool.
  { intros name. unfold get_bool. destruct (mpv_get_property name) as [[]|]; eauto. }
  assert (forall name, exists r, @get_f64 mpv name = r /\
            (r = Panic UnwrapErr \/ exists b, r = Ok b)) as Hf64.
  { intros name. unfold get_f64. destruct (mpv_get_property name) as [[]|]; eauto. }
  destruct (Hbool "mute"%string) as (r1 & E1 & [->|[b1 ->]]); rewrite E1; [done|].
  destruct (Hbool "pause"%string) as (r2 & E2 & [->|[b2 ->]]); rewrite E2; [done|].
  simpl_outcome. unfold get_playlist.
  destruct (@mpv_get_playlist mpv) as [pl|] eqn:E3; [|done]. simpl_outcome.
  destruct (Hf64 "speed"%string) as (r4 & E4 & [->|[b4 ->]]); rewrite E4; [done|].
  destruct (Hf64 "volume"%string) as (r5 & E5 & [->|[b5 ->]]); rewrite E5; [done|].
  exfalso. destruct Hbad as [Hb | [Hb | [Hb | [Hb | Hb]]]].
  - by rewrite get_bool_Panic in E1.
  - by rewrite get_bool_Panic in E2.
  - done.
  - by rewrite get_f64_Panic in E4.
  - by rewrite get_f64_Panic in E5.
Qed.

Lemma subscribed_cases id :
  id ∈ subscriptions.*1 ->
  id = OBS_ID_DURATION \/ id = OBS_ID_METADATA \/ id = OBS_ID_MUTE \/
  id = OBS_ID_PLAYLIST \/ id = OBS_ID_PAUSE \/ id = OBS_ID_SPEED \/
  id = OBS_ID_TIME_POS \/ id = OBS_ID_VOLUME.
Proof.
  cbn. intros Hin.
  repeat (apply elem_of_cons in Hin as [->|Hin]; [tauto|]). by apply elem_of_nil in Hin.
Qed.

Lemma subscriptions_first_read :
  Forall (fun p => Forall (fun f => forall name', first_read f = Some name' -> name' = p.2)
                     (fields_of p.1)) subscriptions.
Proof.
  unfold subscriptions.
  repeat (apply Forall_cons; split;
          [repeat (apply Forall_cons; split; [by intros ? [= <-] || done|]);
           apply Forall_nil; exact I|]).
  by apply Forall_nil.
Qed.

Lemma observe_all_refused (o : Observer) subs id name why :
  (id, name) ∈ subs -> @observe_property o id name = Some why ->
  @observe_all o subs = Panic UnwrapErr.
Proof.
  intros Hs Hwhy. induction subs as [|[id' name'] subs IH]; [by apply elem_of_nil in Hs|].
  cbn [observe_all]. destruct (observe_property id' name') eqn:E; [done|].
  apply elem_of_cons in Hs as [[= -> ->]|Hs]; [congruence|]. by rewrite IH.
Qed.

(** ** Theorems *)

(** C33. The three windows tile the terminal: on a terminal of 6 to
    [i32::MAX] rows [windows] does not overflow in either build profile, the
    playlist window has [max_y - 6] rows, and every row of the terminal
    belongs to exactly one of the three windows. *)
Theorem windows_tile om max_y max_x :
  6 <= max_y <= i32_max ->
  exists l, windows om max_y max_x = Ok l /\
    height_playlist_win l = max_y - 6 /\
    forall y, 0 <= y < max_y <->
      (y ∈ rows_of (top_bar l) /\ (y ∉ rows_of (playlist_win l)) /\ (y ∉ rows_of (status_bar l))) \/
      ((y ∉ rows_of (top_bar l)) /\ y ∈ rows_of (playlist_win l) /\ (y ∉ rows_of (status_bar l))) \/
      ((y ∉ rows_of (top_bar l)) /\ (y ∉ rows_of (playlist_win l)) /\ y ∈ rows_of (status_bar l)).
Proof.
  intros Hy. eexists. split; [by apply windows_Ok|]. split; [done|].
  intros y. unfold rows_of. cbn [top_bar playlist_win status_bar begin_y nlines].
  rewrite !elem_of_seqZ_iff. lia.
Qed.

(** C40. A terminal of fewer than 6 rows: the playlist window gets a height
    that is negative, and [windows] returns it in both build profiles.  Cast
    to [usize], as every arm of the input listener and the render loop does,
    the height is [2^64 + max_y - 6]. *)
Theorem windows_small om max_y max_x :
  0 <= max_y < 6 ->
  exists l, windows om max_y max_x = Ok l /\
    height_playlist_win l = max_y - 6 /\
    nlines (playlist_win l) < 0 /\
    i32_as_usize (height_playlist_win l) = usize_modulus + max_y - 6.
Proof.
  intros Hy. unfold windows. run_ok. eexists. split; [reflexivity|].
  cbn. split; [lia|]. split; [lia|]. unfold_ints.
  rewrite <- (Z_mod_plus_full _ 1), Z.mod_small by lia. lia.
Qed.

(** C32. A refused connection is reported and nothing starts: [main]
    returns without a panic in both build profiles, the last call to curses
    is [endwin], the message is written after it, and no thread is
    spawned. *)
Theorem main_start_refused om `{Socket} spawn max_y max_x code :
  6 <= max_y <= i32_max ->
  connect "/tmp/mpvsocket" = Refused code ->
  exists events,
    main_start om spawn max_y max_x = (events, Ok NoServer) /\
    last (calls_of events) = Some Endwin /\
    last events = Some (Report ("Error: Could not connect to mpv socket: " +:+ code)) /\
    spawned events = [].
Proof.
  intros Hy Hc. unfold main_start. rewrite (windows_Ok om max_y max_x Hy), Hc.
  by eexists.
Qed.

(** With the server up and both threads started, the loops start in
    [System.boot]: the player holds what mpv answered, position and duration
    are 0, no search is stored, the canvas is [(0, max_y, 0)], and the
    channel holds the first request of [main].  The observer is spawned
    before the input listener, and curses is not ended. *)
Lemma main_start_loops om `{Socket} spawn max_y max_x mpv muted paused pl speed volume :
  6 <= max_y <= i32_max ->
  connect "/tmp/mpvsocket" = Connected mpv ->
  @mpv_get_property mpv "mute" = Some (MpvDataType.Bool muted) ->
  @mpv_get_property mpv "pause" = Some (MpvDataType.Bool paused) ->
  @mpv_get_playlist mpv = Some pl ->
  @mpv_get_property mpv "speed" = Some (MpvDataType.Double speed) ->
  @mpv_get_property mpv "volume" = Some (MpvDataType.Double volume) ->
  spawn "property_observer" = true -> spawn "input_listener" = true ->
  exists events l,
    main_start om spawn max_y max_x =
      (events,
       Ok (Loops l (mkSystem
                      (mkPlayer f64_zero muted paused (@mpv_get_metadata mpv) pl
                         ([], 0) speed f64_zero volume)
                      (mkCanvas 0 max_y 0)
                      (mkChan [] [(MainThread, repaint_list)]) Browsing false []))) /\
    height_playlist_win l = max_y - 6 /\
    (Endwin ∉ calls_of events) /\
    spawned events = ["property_observer"; "input_listener"]%string.
Proof.
  intros Hy Hc Hmute Hpause Hpl Hspeed Hvolume Hs1 Hs2.
  unfold main_start. rewrite (windows_Ok om max_y max_x Hy), Hc.
  rewrite (init_player_Ok mpv muted paused pl speed volume) by done.
  rewrite Hs1, Hs2. cbn [negb]. eexists _, _. split.
  - unfold boot, post, send_all, i32_as_usize.
    rewrite wrap_usize_small by (unfold_ints; lia). reflexivity.
  - split; [reflexivity|]. split; [apply calls_of_window_events | reflexivity].
Qed.

(** C12. From start to the first frame.  With the server up, on a terminal
    of 7 to 2^30 rows and a playlist of 1 to 2^31-1 entries whose rows can
    be drawn, [main] reads the player from mpv, spawns the observer and then
    the input listener, and enters its loop; the first iteration of the loop
    serves the request [main] sent to itself and draws the list in the
    [max_y - 6] rows of the playlist window with row 0, and no other, in
    reverse video.  The system is then calm and its canvas is
    [(0, max_y - 6, 0)], which is what [System.run_synchronous] starts
    from: until then [bottom_line] holds the height of the terminal. *)
Theorem start_first_frame om `{Socket} `{FloatFormat} spawn max_y max_x mpv
    muted paused pl speed volume media_title :
  7 <= max_y <= 1073741824 -> 1 <= len pl <= i32_max ->
  Forall (fun entry => is_Ok (fit om max_x (row_output entry))) pl ->
  connect "/tmp/mpvsocket" = Connected mpv ->
  @mpv_get_property mpv "mute" = Some (MpvDataType.Bool muted) ->
  @mpv_get_property mpv "pause" = Some (MpvDataType.Bool paused) ->
  @mpv_get_playlist mpv = Some pl ->
  @mpv_get_property mpv "speed" = Some (MpvDataType.Double speed) ->
  @mpv_get_property mpv "volume" = Some (MpvDataType.Double volume) ->
  spawn "property_observer" = true -> spawn "input_listener" = true ->
  exists events l s s' rows,
    main_start om spawn max_y max_x = (events, Ok (Loops l s)) /\
    spawned events = ["property_observer"; "input_listener"]%string /\
    bottom_line (sys_canvas s) = max_y /\
    @System.run om max_x (height_playlist_win l) mpv _ s [Redraw media_title] = Ok s' /\
    calm om max_x s' /\
    sys_player s' = mkPlayer f64_zero muted paused (@mpv_get_metadata mpv) pl
                      ([], 0) speed f64_zero volume /\
    sys_canvas s' = mkCanvas 0 (max_y - 6) 0 /\
    view_inv (height_playlist_win l) (len pl) (sys_canvas s') /\
    sys_screen s' = [Draw (Rows rows) (max_y - 6)] /\
    forall (j : nat) r, rows !! j = Some r -> (row_reverse r = true <-> j = 0%nat).
Proof.
  intros Hy Hn Hfit Hc Hmute Hpause Hpl Hspeed Hvolume Hs1 Hs2.
  destruct (main_start_loops om spawn max_y max_x mpv muted paused pl speed volume)
    as (events & l & Hstart & Hh & _ & Hspawn); try done; [unfold_ints; lia|].
  set (player := mkPlayer _ _ _ _ _ _ _ _ _) in *.
  assert (sizes_ok (max_y - 6) (len (playlist player))) as Hsz by (split; cbn; lia).
  destruct (render_playlist_view om max_x (max_y - 6) media_title player false
              (mkCanvas 0 max_y 0) Hsz) as (rows & Hrender & _ & Hrows);
    [repeat split; cbn; lia | done |].
  eexists events, l, _, _, rows. split; [exact Hstart|]. split; [done|].
  split; [done|]. rewrite Hh. cbn [System.run System.step sys_exited].
  unfold redraw. cbn [sys_channel pending recv sys_player sys_canvas snd].
  unfold repaint_list. rewrite Hrender. simpl_outcome.
  split; [reflexivity|]. cbn.
  split; [done|]. split; [done|]. split; [done|].
  split; [repeat split; cbn; lia|]. split; [done|].
  intros j r Hj. apply (Hrows j r) in Hj as [_ ->]. cbn. lia.
Qed.

(** C26. A first read that fails is a panic of [main] between [initscr] and
    any [endwin]: when mpv is connected and does not answer one of [mute],
    [pause], [speed] and [volume] with a value of the type asked for, or does
    not return the playlist, [main] panics, no thread was spawned, and the
    terminal was left in curses mode. *)
Theorem main_start_read_fails om `{Socket} spawn max_y max_x mpv :
  6 <= max_y <= i32_max ->
  connect "/tmp/mpvsocket" = Connected mpv ->
  (forall b, @mpv_get_property mpv "mute" <> Some (MpvDataType.Bool b)) \/
  (forall b, @mpv_get_property mpv "pause" <> Some (MpvDataType.Bool b)) \/
  @mpv_get_playlist mpv = None \/
  (forall f, @mpv_get_property mpv "speed" <> Some (MpvDataType.Double f)) \/
  (forall f, @mpv_get_property mpv "volume" <> Some (MpvDataType.Double f)) ->
  exists events,
    main_start om spawn max_y max_x = (events, Panic UnwrapErr) /\
    Initscr ∈ calls_of events /\ (Endwin ∉ calls_of events) /\
    spawned events = [].
Proof.
  intros Hy Hc Hbad. unfold main_start. rewrite (windows_Ok om max_y max_x Hy), Hc.
  rewrite (init_player_Panic mpv Hbad). eexists. split; [reflexivity|].
  split; [|split; [apply calls_of_window_events | reflexivity]].
  cbn. apply elem_of_cons. right. apply elem_of_cons. by left.
Qed.


(** The observer on a server that refuses a subscription: the thread
    panics at the first refusal, before its loop, and so stores nothing and
    sends nothing, whatever mpv would have notified. *)
Theorem property_observer_refused (o : Observer) results player id name why :
  (id, name) ∈ subscriptions -> @observe_property o id name = Some why ->
  property_observer (Some o) results player = Panic UnwrapErr.
Proof.
  intros Hin Hwhy. unfold property_observer, observer_start.
  by rewrite (observe_all_refused o subscriptions id name why).
Qed.

(** ** Witnesses *)

Lemma windows_tile_witness :
  exists l, windows Checked 26 80 = Ok l /\
    height_playlist_win l = 26 - 6 /\
    forall y, 0 <= y < 26 <->
      (y ∈ rows_of (top_bar l) /\ (y ∉ rows_of (playlist_win l)) /\ (y ∉ rows_of (status_bar l))) \/
      ((y ∉ rows_of (top_bar l)) /\ y ∈ rows_of (playlist_win l) /\ (y ∉ rows_of (status_bar l))) \/
      ((y ∉ rows_of (top_bar l)) /\ (y ∉ rows_of (playlist_win l)) /\ y ∈ rows_of (status_bar l)).
Proof. apply (windows_tile Checked 26 80). by_compute. Defined.

Lemma main_start_refused_witness :
  exists events,
    @main_start Checked socket_down (fun _ => true) 26 80 = (events, Ok NoServer) /\
    last (calls_of events) = Some Endwin /\
    last events =
      Some (Report ("Error: Could not connect to mpv socket: " +:+ "ConnectError")) /\
    spawned events = [].
Proof.
  apply (@main_start_refused Checked socket_down (fun _ => true) 26 80 "ConnectError");
    [by_compute | reflexivity].
Defined.

Lemma windows_small_witness :
  exists l, windows Checked 4 80 = Ok l /\
    height_playlist_win l = 4 - 6 /\
    nlines (playlist_win l) < 0 /\
    i32_as_usize (height_playlist_win l) = usize_modulus + 4 - 6.
Proof. apply (windows_small Checked 4 80). lia. Defined.

Lemma start_first_frame_witness :
  exists events l s s' rows,
    @main_start Checked (socket_up (sample_playlist 3)) (fun _ => true) 26 80 =
      (events, Ok (Loops l s)) /\
    spawned events = ["property_observer"; "input_listener"]%string /\
    bottom_line (sys_canvas s) = 26 /\
    @System.run Checked 80 (height_playlist_win l) (mpv_idle (sample_playlist 3))
      sample_format s [Redraw None] = Ok s' /\
    calm Checked 80 s' /\
    sys_player s' = mkPlayer f64_zero false true None (sample_playlist 3)
                      ([], 0) (f64_of_Z 1) f64_zero (f64_of_Z 50) /\
    sys_canvas s' = mkCanvas 0 (26 - 6) 0 /\
    view_inv (height_playlist_win l) (len (sample_playlist 3)) (sys_canvas s') /\
    sys_screen s' = [Draw (Rows rows) (26 - 6)] /\
    forall (j : nat) r, rows !! j = Some r -> (row_reverse r = true <-> j = 0%nat).
Proof.
  apply (@start_first_frame Checked (socket_up (sample_playlist 3)) sample_format
           (fun _ => true) 26 80 (mpv_idle (sample_playlist 3)) false true
           (sample_playlist 3) (f64_of_Z 1) (f64_of_Z 50) None);
    [lia | by_compute | | reflexivity..].
  eapply Forall_impl; [|intros entry; apply (fit_plain_Ok Checked 80); by_compute].
  apply playlist_of_titles_plain; [lia | by apply Forall_replicate].
Defined.

Lemma main_start_read_fails_witness :
  exists events,
    @main_start Checked (fun _ => Connected mpv_down) (fun _ => true) 26 80 =
      (events, Panic UnwrapErr) /\
    Initscr ∈ calls_of events /\ (Endwin ∉ calls_of events) /\
    spawned events = [].
Proof.
  apply (@main_start_read_fails Checked (fun _ => Connected mpv_down) (fun _ => true) 26 80
           mpv_down); [by_compute | reflexivity | by left].
Defined.

Lemma property_observer_refused_witness :
  property_observer (Some (fun id _ => if id =? OBS_ID_PAUSE then Some "refused" else None))
    [Some (Event.PropertyChange OBS_ID_MUTE (MpvDataType.Bool true))]
    (mkPlayer f64_zero false false None [] ([], 0) f64_zero f64_zero f64_zero)
    = Panic UnwrapErr.
Proof.
  apply (property_observer_refused _ _ _ OBS_ID_PAUSE "pause" "refused");
    [by_decide | reflexivity].
Defined.
