(* ===== verification/Locking.v ===== *)
(** * Locking: the two mutexes and the threads that take them

    The player and the canvas are each an [Arc<Mutex<..>>] (main.rs 134 and
    310).  A thread reaches a field through [x.lock().unwrap()]: it waits for
    the mutex, panics when the mutex is poisoned, and holds the guard until
    the guard goes out of scope, which is the end of the statement for a
    temporary and the end of the block for a guard bound with [let] or
    borrowed by a [let ref].

    This file holds the mechanism, independent of what the arms compute:

    - [prog], the programs of a thread at the grain of one lock operation,
      one access to a record, one send or receive: a free monad over these
      operations, with [Fail] for a panic and [ProcessExit] for
      [std::process::exit];
    - [exec], a program run by its thread with no other thread running;
    - [pool_step], one operation of one thread of the pool of three ([config]),
      and [pool_run], a schedule: the list of the threads that move, in order;
    - a panic releases and poisons the mutexes its thread holds; a panic of
      the main thread ends the process;
    - [locked], the discipline of the source as a judgement on programs:
      a record is accessed under its mutex, the player mutex is never
      requested by a thread that holds a mutex, the canvas mutex never by a
      thread that holds it, nothing is held while waiting on the channel and
      nothing at the end of an arm.

    The lemmas: the discipline is kept by every step (preservation), a
    pool that keeps it never deadlocks on its mutexes (progress), two threads
    are never both inside an access to the same record, a poisoned mutex
    kills whoever asks for it, every run of finite programs ends and can
    stop only at rest, only [exit] and a panic of the main thread end the
    process, and a program that [exec] runs to its end is run to the same
    end by the pool.  They are stated for any programs; [Threads] applies
    them to the programs of main.rs.

    The programs of the three threads are in [Threads]. *)

From Stdlib Require Import ZArith Lia String Relations Wellfounded.
From stdpp Require Import prelude strings.
From S2P Require Import Prelude.
From S2P Require Import Float64.
From S2P Require Import Utf8.
From S2P Require Import Types.
From S2P Require Import RepaintQueue.
From S2P Require Import PlaylistView.
From S2P Require Import RenderLoop.
From S2P Require Import InputListener.

#[local] Open Scope Z_scope.

(** ** The shared state *)

Inductive mutex : Type := PlayerMutex | CanvasMutex.

#[export] Instance mutex_eq_dec : EqDecision mutex.
Proof. solve_decision. Defined.

(** A [std::sync::Mutex]: who holds it, and whether a holder panicked. *)
Record lock_state : Type := mkLock {
  owner : option producer;
  poisoned : bool;
}.

Abbreviation free := (mkLock None false) (only parsing).

(** What a thread does to the outside, apart from the channel. *)
Inductive output : Type :=
| Acted (a : action)
| Painted (p : paint).

(** What the three threads share: the two records behind their mutexes, the
    channel, and the log of what was done to the outside, oldest first. *)
Record store : Type := mkStore {
  st_player : Player;
  st_canvas : PlaylistCanvas;
  st_player_lock : lock_state;
  st_canvas_lock : lock_state;
  st_channel : chan_state;
  st_log : list (producer * output);
}.

Definition lock_of (m : mutex) (s : store) : lock_state :=
  match m with
  | PlayerMutex => st_player_lock s
  | CanvasMutex => st_canvas_lock s
  end.

Definition set_lock (m : mutex) (l : lock_state) (s : store) : store :=
  match m with
  | PlayerMutex =>
      mkStore (st_player s) (st_canvas s) l (st_canvas_lock s) (st_channel s) (st_log s)
  | CanvasMutex =>
      mkStore (st_player s) (st_canvas s) (st_player_lock s) l (st_channel s) (st_log s)
  end.

(** What [lock()] finds. *)
Inductive lock_view : Type := IsFree | IsHeld (by_thread : producer) | IsPoisoned.

Definition view (l : lock_state) : lock_view :=
  if poisoned l then IsPoisoned
  else match owner l with Some t => IsHeld t | None => IsFree end.

(** The guard is created: the thread holds the mutex. *)
Definition acquire (t : producer) (m : mutex) (s : store) : store :=
  set_lock m (mkLock (Some t) (poisoned (lock_of m s))) s.

(** The guard is dropped. *)
Definition release (m : mutex) (s : store) : store :=
  set_lock m (mkLock None (poisoned (lock_of m s))) s.

(** A guard dropped while its thread unwinds poisons its mutex. *)
Definition unwind_lock (t : producer) (l : lock_state) : lock_state :=
  if decide (owner l = Some t) then mkLock None true else l.

(** The thread panics: every guard it holds is dropped in the unwinding. *)
Definition unwind (t : producer) (s : store) : store :=
  mkStore (st_player s) (st_canvas s)
    (unwind_lock t (st_player_lock s)) (unwind_lock t (st_canvas_lock s))
    (st_channel s) (st_log s).

Definition write_player (f : Player -> Player) (s : store) : store :=
  mkStore (f (st_player s)) (st_canvas s) (st_player_lock s) (st_canvas_lock s)
    (st_channel s) (st_log s).

Definition write_canvas (f : PlaylistCanvas -> PlaylistCanvas) (s : store) : store :=
  mkStore (st_player s) (f (st_canvas s)) (st_player_lock s) (st_canvas_lock s)
    (st_channel s) (st_log s).

(** [tx.send(r)] by thread [t]. *)
Definition transmit (t : producer) (r : Repaint.t) (s : store) : store :=
  mkStore (st_player s) (st_canvas s) (st_player_lock s) (st_canvas_lock s)
    (mkChan (delivered (st_channel s)) (send t r (pending (st_channel s))))
    (st_log s).

(** [rx.recv()] returned [m]; [rest] stays in flight. *)
Definition deliver (m : message) (rest : channel) (s : store) : store :=
  mkStore (st_player s) (st_canvas s) (st_player_lock s) (st_canvas_lock s)
    (mkChan (delivered (st_channel s) ++ [m]) rest) (st_log s).

Definition emit (t : producer) (o : output) (s : store) : store :=
  mkStore (st_player s) (st_canvas s) (st_player_lock s) (st_canvas_lock s)
    (st_channel s) (st_log s ++ [(t, o)]).

(** ** Programs *)

(** The program of a thread, one operation at a time.  [Lock m] is
    [m.lock().unwrap()] up to the creation of the guard, [Unlock m] the drop
    of the guard; the accesses go through the guard. *)
Inductive prog (A : Type) : Type :=
| Ret (a : A)
| Fail (why : panic)
| ProcessExit
| Lock (m : mutex) (k : prog A)
| Unlock (m : mutex) (k : prog A)
| ReadPlayer (k : Player -> prog A)
| WritePlayer (f : Player -> Player) (k : prog A)
| ReadCanvas (k : PlaylistCanvas -> prog A)
| WriteCanvas (f : PlaylistCanvas -> PlaylistCanvas) (k : prog A)
| Transmit (r : Repaint.t) (k : prog A)
| Receive (k : Repaint.t -> prog A)
| Emit (o : output) (k : prog A).
Arguments Ret {A} a.
Arguments Fail {A} why.
Arguments ProcessExit {A}.
Arguments Lock {A} m k.
Arguments Unlock {A} m k.
Arguments ReadPlayer {A} k.
Arguments WritePlayer {A} f k.
Arguments ReadCanvas {A} k.
Arguments WriteCanvas {A} f k.
Arguments Transmit {A} r k.
Arguments Receive {A} k.
Arguments Emit {A} o k.

Fixpoint prog_bind {A B} (p : prog A) (f : A -> prog B) : prog B :=
  match p with
  | Ret a => f a
  | Fail why => Fail why
  | ProcessExit => ProcessExit
  | Lock m k => Lock m (prog_bind k f)
  | Unlock m k => Unlock m (prog_bind k f)
  | ReadPlayer k => ReadPlayer (fun x => prog_bind (k x) f)
  | WritePlayer g k => WritePlayer g (prog_bind k f)
  | ReadCanvas k => ReadCanvas (fun x => prog_bind (k x) f)
  | WriteCanvas g k => WriteCanvas g (prog_bind k f)
  | Transmit r k => Transmit r (prog_bind k f)
  | Receive k => Receive (fun x => prog_bind (k x) f)
  | Emit o k => Emit o (prog_bind k f)
  end.

Declare Scope prog_scope.
Delimit Scope prog_scope with prog.
Bind Scope prog_scope with prog.

Notation "x <- p ;; k" := (prog_bind p (fun x => k))
  (at level 100, p at next level, k at level 200, right associativity,
   format "'[v' x  <-  p  ;;  '/' k ']'") : prog_scope.
Notation "p ;; k" := (prog_bind p (fun _ => k))
  (at level 100, k at level 200, right associativity,
   format "'[v' p  ;;  '/' k ']'") : prog_scope.

(** A computation that may panic, made by the thread without touching what
    is shared. *)
Definition lift {A} (m : outcome A) : prog A :=
  match m with
  | Ok a => Ret a
  | Panic why => Fail why
  end.

Definition lock (m : mutex) : prog unit := Lock m (Ret tt).
Definition unlock (m : mutex) : prog unit := Unlock m (Ret tt).
Definition transmit_one (r : Repaint.t) : prog unit := Transmit r (Ret tt).
Definition emit_one (o : output) : prog unit := Emit o (Ret tt).

(** A field read through a guard the thread holds. *)
Definition read_player {B} (f : Player -> B) : prog B := ReadPlayer (fun p => Ret (f p)).
Definition read_canvas {B} (f : PlaylistCanvas -> B) : prog B :=
  ReadCanvas (fun c => Ret (f c)).

(** [player.lock().unwrap().field] as an expression, and
    [player.lock().unwrap().field = v;]: the guard is a temporary of the
    statement. *)
Definition player_get {B} (f : Player -> B) : prog B :=
  Lock PlayerMutex (ReadPlayer (fun p => Unlock PlayerMutex (Ret (f p)))).
Definition player_set (f : Player -> Player) : prog unit :=
  Lock PlayerMutex (WritePlayer f (Unlock PlayerMutex (Ret tt))).
Definition canvas_get {B} (f : PlaylistCanvas -> B) : prog B :=
  Lock CanvasMutex (ReadCanvas (fun c => Unlock CanvasMutex (Ret (f c)))).
Definition canvas_set (f : PlaylistCanvas -> PlaylistCanvas) : prog unit :=
  Lock CanvasMutex (WriteCanvas f (Unlock CanvasMutex (Ret tt))).

(** The actions of a handler, one after the other: a send goes to the
    channel, everything else to the log. *)
Fixpoint perform (acts : list action) : prog unit :=
  match acts with
  | [] => Ret tt
  | Do (Send r) :: acts' => Transmit r (perform acts')
  | a :: acts' => Emit (Acted a) (perform acts')
  end.

Fixpoint transmit_all (rs : list Repaint.t) : prog unit :=
  match rs with
  | [] => Ret tt
  | r :: rs' => Transmit r (transmit_all rs')
  end.

Fixpoint show (ps : list paint) : prog unit :=
  match ps with
  | [] => Ret tt
  | p :: ps' => Emit (Painted p) (show ps')
  end.

(** The actions of a handler that are not sends. *)
Definition outward (acts : list action) : list action :=
  omap (fun a => match a with Do (Send _) => None | _ => Some a end) acts.

(** ** One thread alone *)

(** How a program ends when no other thread runs. *)
Inductive ending (A : Type) : Type :=
| Returns (a : A)
| Panics (why : panic)
| Exits
| Blocks.
Arguments Returns {A} a.
Arguments Panics {A} why.
Arguments Exits {A}.
Arguments Blocks {A}.

(** The program [p] run by thread [t] from [s] to its end. *)
Fixpoint exec {A} (t : producer) (p : prog A) (s : store) : ending A * store :=
  match p with
  | Ret a => (Returns a, s)
  | Fail why => (Panics why, unwind t s)
  | ProcessExit => (Exits, s)
  | Lock m k =>
      match view (lock_of m s) with
      | IsPoisoned => (Panics UnwrapErr, unwind t s)
      | IsHeld _ => (Blocks, s)
      | IsFree => exec t k (acquire t m s)
      end
  | Unlock m k => exec t k (release m s)
  | ReadPlayer k => exec t (k (st_player s)) s
  | WritePlayer f k => exec t k (write_player f s)
  | ReadCanvas k => exec t (k (st_canvas s)) s
  | WriteCanvas f k => exec t k (write_canvas f s)
  | Transmit r k => exec t k (transmit t r s)
  | Receive k =>
      match recv (pending (st_channel s)) with
      | None => (Blocks, s)
      | Some (m, rest) => exec t (k m.2) (deliver m rest s)
      end
  | Emit o k => exec t k (emit t o s)
  end.

(** What is left to do after a first program ended. *)
Definition and_then {A B} (t : producer) (r : ending A * store) (f : A -> prog B)
  : ending B * store :=
  match r.1 with
  | Returns a => exec t (f a) r.2
  | Panics why => (Panics why, r.2)
  | Exits => (Exits, r.2)
  | Blocks => (Blocks, r.2)
  end.

(** ** The pool *)

Inductive status : Type :=
| Running (p : prog unit)
| Finished
| Panicked (why : panic).

Record config : Type := mkConfig {
  cf_store : store;
  cf_observer : status;
  cf_input : status;
  cf_main : status;
  cf_exited : bool;       (* the process has ended *)
}.

Definition thread (t : producer) (c : config) : status :=
  match t with
  | PropertyObserver => cf_observer c
  | InputListener => cf_input c
  | MainThread => cf_main c
  end.

Definition update (t : producer) (st : status) (s : store) (exited : bool) (c : config)
  : config :=
  match t with
  | PropertyObserver => mkConfig s st (cf_input c) (cf_main c) exited
  | InputListener => mkConfig s (cf_observer c) st (cf_main c) exited
  | MainThread => mkConfig s (cf_observer c) (cf_input c) st exited
  end.

(** The thread goes on with [p] on the store [s]. *)
Definition continue (t : producer) (p : prog unit) (s : store) (c : config) : config :=
  update t (Running p) s false c.

(** The thread panics.  The process ends with its main thread. *)
Definition die (t : producer) (why : panic) (c : config) : config :=
  update t (Panicked why) (unwind t (cf_store c)) (bool_decide (t = MainThread)) c.

(** One operation of thread [t]; [None] when the thread cannot move: it has
    ended, the process has ended, the mutex it asks for is held, or the
    channel it reads is empty. *)
Definition pool_step (t : producer) (c : config) : option config :=
  let s := cf_store c in
  if cf_exited c then None
  else match thread t c with
       | Running p =>
           match p with
           | Ret _ => Some (update t Finished s false c)
           | Fail why => Some (die t why c)
           | ProcessExit => Some (update t Finished s true c)
           | Lock m k =>
               match view (lock_of m s) with
               | IsPoisoned => Some (die t UnwrapErr c)
               | IsHeld _ => None
               | IsFree => Some (continue t k (acquire t m s) c)
               end
           | Unlock m k => Some (continue t k (release m s) c)
           | ReadPlayer k => Some (continue t (k (st_player s)) s c)
           | WritePlayer f k => Some (continue t k (write_player f s) c)
           | ReadCanvas k => Some (continue t (k (st_canvas s)) s c)
           | WriteCanvas f k => Some (continue t k (write_canvas f s) c)
           | Transmit r k => Some (continue t k (transmit t r s) c)
           | Receive k =>
               match recv (pending (st_channel s)) with
               | None => None
               | Some (m, rest) => Some (continue t (k m.2) (deliver m rest s) c)
               end
           | Emit o k => Some (continue t k (emit t o s) c)
           end
       | Finished | Panicked _ => None
       end.

(** A schedule names the thread that moves, step after step.  A schedule
    that names a thread that cannot move is not a run. *)
Fixpoint pool_run (schedule : list producer) (c : config) : option config :=
  match schedule with
  | [] => Some c
  | t :: schedule' =>
      match pool_step t c with
      | Some c' => pool_run schedule' c'
      | None => None
      end
  end.

(** One step of some thread. *)
Definition steps_to (c c' : config) : Prop := exists t, pool_step t c = Some c'.

(** Some schedule leads from [c] to [c']. *)
Definition reaches (c c' : config) : Prop :=
  exists schedule, pool_run schedule c = Some c'.

(** ** The discipline *)

(** The mutexes a thread holds. *)
Record held : Type := mkHeld {
  holds_player : bool;
  holds_canvas : bool;
}.

#[export] Instance held_eq_dec : EqDecision held.
Proof. solve_decision. Defined.

Definition nothing : held := mkHeld false false.

Definition holds (h : held) (m : mutex) : bool :=
  match m with
  | PlayerMutex => holds_player h
  | CanvasMutex => holds_canvas h
  end.

Definition with_lock (m : mutex) (b : bool) (h : held) : held :=
  match m with
  | PlayerMutex => mkHeld b (holds_canvas h)
  | CanvasMutex => mkHeld (holds_player h) b
  end.

(** The order of the source: the player mutex is requested only by a thread
    that holds nothing, the canvas mutex only by a thread that does not hold
    it. *)
Definition may_lock (h : held) (m : mutex) : bool :=
  match m with
  | PlayerMutex => negb (holds_player h) && negb (holds_canvas h)
  | CanvasMutex => negb (holds_canvas h)
  end.

(** [locked h h' p]: a thread that holds [h] can run [p] within the
    discipline, and holds [h'] when [p] returns. *)
Fixpoint locked {A} (h h' : held) (p : prog A) : Prop :=
  match p with
  | Ret _ => h = h'
  | Fail _ => True
  | ProcessExit => h = nothing
  | Lock m k => may_lock h m = true /\ locked (with_lock m true h) h' k
  | Unlock m k => holds h m = true /\ locked (with_lock m false h) h' k
  | ReadPlayer k => holds_player h = true /\ forall x, locked h h' (k x)
  | WritePlayer _ k => holds_player h = true /\ locked h h' k
  | ReadCanvas k => holds_canvas h = true /\ forall x, locked h h' (k x)
  | WriteCanvas _ k => holds_canvas h = true /\ locked h h' k
  | Transmit _ k | Emit _ k => locked h h' k
  | Receive k => h = nothing /\ forall r, locked h h' (k r)
  end.

(** An arm: it starts and ends with no mutex held. *)
Definition arm {A} (p : prog A) : Prop := locked nothing nothing p.

(** The mutexes thread [t] holds in [s]. *)
Definition held_by (t : producer) (s : store) : held :=
  mkHeld (bool_decide (owner (st_player_lock s) = Some t))
         (bool_decide (owner (st_canvas_lock s) = Some t)).

(** A thread of the pool keeps the discipline: what is left of its program
    is an arm from what it holds, and a thread that has ended holds
    nothing. *)
Definition keeps (t : producer) (c : config) : Prop :=
  match thread t c with
  | Running p => locked (held_by t (cf_store c)) nothing p
  | Finished | Panicked _ => held_by t (cf_store c) = nothing
  end.

Definition disciplined (c : config) : Prop := forall t, keeps t c.

(** The thread is inside an access to the record behind [m]. *)
Definition accesses {A} (m : mutex) (p : prog A) : Prop :=
  match p, m with
  | ReadPlayer _, PlayerMutex | WritePlayer _ _, PlayerMutex => True
  | ReadCanvas _, CanvasMutex | WriteCanvas _ _, CanvasMutex => True
  | _, _ => False
  end.

(** The thread waits for a request on an empty channel. *)
Definition waiting (t : producer) (c : config) : Prop :=
  exists k, thread t c = Running (Receive k) /\ pending (st_channel (cf_store c)) = [].

(** The immediate continuations of a program, and of a status. *)
Inductive follows {A} : prog A -> prog A -> Prop :=
| follows_Lock m k : follows k (Lock m k)
| follows_Unlock m k : follows k (Unlock m k)
| follows_ReadPlayer k x : follows (k x) (ReadPlayer k)
| follows_WritePlayer f k : follows k (WritePlayer f k)
| follows_ReadCanvas k x : follows (k x) (ReadCanvas k)
| follows_WriteCanvas f k : follows k (WriteCanvas f k)
| follows_Transmit r k : follows k (Transmit r k)
| follows_Receive k x : follows (k x) (Receive k)
| follows_Emit o k : follows k (Emit o k).

Inductive later : status -> status -> Prop :=
| later_Running p p' : follows p' p -> later (Running p') (Running p)
| later_Finished p : later Finished (Running p)
| later_Panicked p why : later (Panicked why) (Running p).

(** The initial pool: the three programs on a store with both mutexes
    free. *)
Definition idle (s : store) : Prop :=
  st_player_lock s = free /\ st_canvas_lock s = free.

Definition pool (s : store) (observer input main : prog unit) : config :=
  mkConfig s (Running observer) (Running input) (Running main) false.

(** A program that never ends the process: it has no [exit]. *)
Fixpoint quiet {A} (p : prog A) : Prop :=
  match p with
  | Ret _ | Fail _ => True
  | ProcessExit => False
  | Lock _ k | Unlock _ k | WritePlayer _ k | WriteCanvas _ k | Transmit _ k | Emit _ k =>
      quiet k
  | ReadPlayer k => forall x, quiet (k x)
  | ReadCanvas k => forall x, quiet (k x)
  | Receive k => forall r, quiet (k r)
  end.

(** A pool in which no thread that runs can end the process, and in which
    the process has ended only if the main thread has panicked. *)
Definition stays (c : config) : Prop :=
  (forall t p, thread t c = Running p -> quiet p) /\
  (cf_exited c = true -> exists why, cf_main c = Panicked why).

(** ** Lemmas: programs *)

#[local] Open Scope prog_scope.

Section Programs.
Context {A B : Type}.
Implicit Types (p : prog A) (f : A -> prog B) (s : store) (t : producer).

Lemma exec_bind t p f s : exec t (prog_bind p f) s = and_then t (exec t p s) f.
Proof.
  revert s. induction p as [| | |m k IH|m k IH|k IH|g k IH|k IH|g k IH|r k IH|k IH|o k IH];
    intros s; cbn [prog_bind exec]; try done.
  - by destruct (view _).
  - by destruct (recv _) as [[? ?]|].
Qed.

Lemma exec_bind_Returns t p f s a s' :
  exec t p s = (Returns a, s') -> exec t (prog_bind p f) s = exec t (f a) s'.
Proof. intros E. by rewrite exec_bind, E. Qed.

Lemma exec_bind_Panics t p f s why s' :
  exec t p s = (Panics why, s') -> exec t (prog_bind p f) s = (Panics why, s').
Proof. intros E. by rewrite exec_bind, E. Qed.

Lemma locked_bind h h1 h2 p f :
  locked h h1 p -> (forall a, locked h1 h2 (f a)) -> locked h h2 (prog_bind p f).
Proof.
  intros Hp Hf. revert h Hp.
  induction p as [| | |m k IH|m k IH|k IH|g k IH|k IH|g k IH|r k IH|k IH|o k IH];
    intros h Hp; cbn [prog_bind locked] in *;
    first [ by subst | done | by apply IH | by split; [apply Hp | apply IH, Hp]
          | by split; [apply Hp | intros x; apply IH, Hp] ].
Qed.

End Programs.

Lemma exec_lift {A} t (m : outcome A) s :
  exec t (lift m) s =
    match m with Ok a => (Returns a, s) | Panic why => (Panics why, unwind t s) end.
Proof. by destruct m. Qed.

Lemma locked_lift {A} h (m : outcome A) : locked h h (lift m).
Proof. by destruct m. Qed.

Lemma with_lock_back m h : holds h m = false -> with_lock m false (with_lock m true h) = h.
Proof. destruct m, h as [[] []]; cbn; congruence. Qed.

Lemma locked_player_get {B} h (f : Player -> B) :
  h = nothing -> locked h h (player_get f).
Proof. by intros ->. Qed.

Lemma locked_player_set h f : h = nothing -> locked h h (player_set f).
Proof. by intros ->. Qed.

Lemma locked_canvas_get {B} h (f : PlaylistCanvas -> B) :
  holds_canvas h = false -> locked h h (canvas_get f).
Proof. destruct h as [[] []]; by intros [=]. Qed.

Lemma locked_canvas_set h f : holds_canvas h = false -> locked h h (canvas_set f).
Proof. destruct h as [[] []]; by intros [=]. Qed.

Lemma locked_perform h acts : locked h h (perform acts).
Proof. induction acts as [|[c|[r|ms]|] acts IH]; by cbn. Qed.

Lemma locked_transmit_all h rs : locked h h (transmit_all rs).
Proof. by induction rs. Qed.

Lemma locked_show h ps : locked h h (show ps).
Proof. by induction ps. Qed.

Create HintDb locks discriminated.
#[export] Hint Resolve locked_lift locked_perform locked_transmit_all locked_show : locks.
#[export] Hint Resolve locked_player_get locked_player_set locked_canvas_get
  locked_canvas_set : locks.

(** Decide the discipline of a program built from the operations above:
    split binds, case on what the program branches on, and close the leaves
    with the lemmas of the database. *)
Ltac solve_locked :=
  repeat first
    [ progress intros
    | match goal with
      | |- arm _ => unfold arm
      | |- locked _ _ (prog_bind _ _) => eapply locked_bind
      | |- locked _ _ (lock _) => unfold lock; cbn [locked may_lock with_lock]
      | |- locked _ _ (unlock _) => unfold unlock; cbn [locked holds with_lock]
      | |- locked _ _ (read_player _) => unfold read_player; cbn [locked]
      | |- locked _ _ (read_canvas _) => unfold read_canvas; cbn [locked]
      | |- locked _ _ (transmit_one _) => unfold transmit_one; cbn [locked]
      | |- locked _ _ (emit_one _) => unfold emit_one; cbn [locked]
      | |- locked _ _ (match ?x with _ => _ end) => destruct x
      | |- locked _ _ (if ?x then _ else _) => destruct x
      | |- _ /\ _ => split
      | |- locked _ _ (Ret _) => reflexivity
      | |- locked _ _ _ => solve [eauto with locks]
      | |- locked _ _ _ => progress cbn [locked may_lock holds with_lock]
      | |- _ = _ => reflexivity
      end ].

(** *** Programs without [exit] *)

Lemma quiet_bind {A B} (p : prog A) (f : A -> prog B) :
  quiet p -> (forall a, quiet (f a)) -> quiet (prog_bind p f).
Proof.
  intros Hp Hf.
  induction p as [| | |m k IH|m k IH|k IH|g k IH|k IH|g k IH|r k IH|k IH|o k IH];
    cbn [prog_bind quiet] in *; first [done | by apply IH | by intros x; apply IH].
Qed.

Lemma quiet_lift {A} (m : outcome A) : quiet (lift m).
Proof. by destruct m. Qed.

Lemma quiet_transmit_all rs : quiet (transmit_all rs).
Proof. by induction rs. Qed.

Lemma quiet_show ps : quiet (show ps).
Proof. by induction ps. Qed.

Lemma quiet_player_get {B} (f : Player -> B) : quiet (player_get f).
Proof. done. Qed.

Lemma quiet_player_set f : quiet (player_set f).
Proof. done. Qed.

Lemma quiet_canvas_get {B} (f : PlaylistCanvas -> B) : quiet (canvas_get f).
Proof. done. Qed.

Lemma quiet_canvas_set f : quiet (canvas_set f).
Proof. done. Qed.

#[export] Hint Resolve quiet_lift quiet_transmit_all quiet_show quiet_player_get
  quiet_player_set quiet_canvas_get quiet_canvas_set : locks.

(** Decide that a program built from the operations above has no [exit]. *)
Ltac solve_quiet :=
  repeat first
    [ progress intros
    | match goal with
      | |- quiet (prog_bind _ _) => apply quiet_bind
      | |- quiet (match ?x with _ => _ end) => destruct x
      | |- quiet (if ?x then _ else _) => destruct x
      | |- quiet _ => solve [eauto with locks]
      | |- quiet _ => progress cbn [quiet lock unlock read_player read_canvas
                                    transmit_one emit_one]
      | |- True => exact I
      end ].

(** ** Lemmas: the pool *)

Lemma thread_update t t' st s e c :
  thread t' (update t st s e c) = if decide (t' = t) then st else thread t' c.
Proof. by destruct t, t'. Qed.

Lemma thread_update_same t st s e c : thread t (update t st s e c) = st.
Proof. rewrite thread_update. by destruct (decide _). Qed.

Lemma thread_update_other t t' st s e c :
  t' <> t -> thread t' (update t st s e c) = thread t' c.
Proof. intros Hne. rewrite thread_update. by destruct (decide _). Qed.

Lemma store_update t st s e c : cf_store (update t st s e c) = s.
Proof. by destruct t. Qed.

Lemma exited_update t st s e c : cf_exited (update t st s e c) = e.
Proof. by destruct t. Qed.

Lemma holds_held_by t m s :
  holds (held_by t s) m = true <-> owner (lock_of m s) = Some t.
Proof. destruct m; cbn; apply bool_decide_eq_true. Qed.

Lemma held_by_nothing t s :
  held_by t s = nothing <-> forall m, owner (lock_of m s) <> Some t.
Proof.
  unfold held_by, nothing. split.
  - intros [= Hp Hc] [|]; cbn;
      [by apply bool_decide_eq_false in Hp | by apply bool_decide_eq_false in Hc].
  - intros Hm. f_equal; apply bool_decide_eq_false;
      [apply (Hm PlayerMutex) | apply (Hm CanvasMutex)].
Qed.

(** A mutex that a thread may request is not one it holds. *)
Lemma may_lock_not_held h m : may_lock h m = true -> holds h m = false.
Proof. destruct m, h as [[] []]; cbn; congruence. Qed.

Lemma view_IsFree l : view l = IsFree -> owner l = None /\ poisoned l = false.
Proof. unfold view. by destruct l as [[?|] []]. Qed.

Lemma view_IsHeld l t : view l = IsHeld t -> owner l = Some t /\ poisoned l = false.
Proof. unfold view. destruct l as [[?|] []]; cbn; try done. by intros [= ->]. Qed.

Lemma view_IsPoisoned l : view l = IsPoisoned <-> poisoned l = true.
Proof. unfold view. by destruct l as [[?|] []]. Qed.

Section HeldBy.
Context (t t' : producer) (m : mutex) (s : store).

Lemma held_by_acquire_same :
  owner (lock_of m s) = None ->
  held_by t (acquire t m s) = with_lock m true (held_by t s).
Proof.
  intros Hfree. unfold held_by, acquire. destruct m; cbn in *;
    f_equal; by rewrite bool_decide_eq_true_2.
Qed.

Lemma held_by_acquire_other :
  t' <> t -> owner (lock_of m s) = None -> held_by t' (acquire t m s) = held_by t' s.
Proof.
  intros Hne Hfree. unfold held_by, acquire. destruct m; cbn in *; rewrite Hfree;
    f_equal; rewrite !bool_decide_eq_false_2; congruence.
Qed.

Lemma held_by_release_same : held_by t (release m s) = with_lock m false (held_by t s).
Proof.
  unfold held_by, release. destruct m; cbn; f_equal; by rewrite bool_decide_eq_false_2.
Qed.

Lemma held_by_release_other :
  t' <> t -> owner (lock_of m s) = Some t -> held_by t' (release m s) = held_by t' s.
Proof.
  intros Hne Hown. unfold held_by, release. destruct m; cbn in *; rewrite Hown;
    f_equal; rewrite !bool_decide_eq_false_2; congruence.
Qed.

Lemma held_by_unwind_same : held_by t (unwind t s) = nothing.
Proof.
  unfold held_by, unwind, unwind_lock, nothing. cbn.
  f_equal; apply bool_decide_eq_false; by destruct (decide _).
Qed.

Lemma held_by_unwind_other : t' <> t -> held_by t' (unwind t s) = held_by t' s.
Proof.
  intros Hne. unfold held_by, unwind, unwind_lock. cbn.
  f_equal; destruct (decide _) as [E|]; cbn; [|done | |done];
    rewrite E, !bool_decide_eq_false_2; congruence.
Qed.

End HeldBy.

(** The status a step leaves its thread in is right for the store it
    leaves, and the other threads hold what they held. *)
Lemma disciplined_update t st s e c :
  disciplined c ->
  (forall t', t' <> t -> held_by t' s = held_by t' (cf_store c)) ->
  match st with
  | Running p => locked (held_by t s) nothing p
  | Finished | Panicked _ => held_by t s = nothing
  end ->
  disciplined (update t st s e c).
Proof.
  intros Hc Hother Hst t'. unfold keeps. rewrite store_update, thread_update.
  destruct (decide (t' = t)) as [->|Hne]; [done|].
  rewrite (Hother t' Hne). apply Hc.
Qed.

Lemma disciplined_die t why c : disciplined c -> disciplined (die t why c).
Proof.
  intros Hc. apply disciplined_update; [done| |apply held_by_unwind_same].
  intros t' Hne. by apply held_by_unwind_other.
Qed.

(** A step that leaves the locks alone. *)
Lemma disciplined_continue t p s c :
  disciplined c ->
  st_player_lock s = st_player_lock (cf_store c) ->
  st_canvas_lock s = st_canvas_lock (cf_store c) ->
  locked (held_by t (cf_store c)) nothing p ->
  disciplined (continue t p s c).
Proof.
  intros Hc Hp Hv Hl.
  assert (forall t', held_by t' s = held_by t' (cf_store c)) as Hsame.
  { intros t'. unfold held_by. by rewrite Hp, Hv. }
  apply disciplined_update; [done | by intros | by rewrite Hsame].
Qed.

(** What the discipline says of a thread that holds a mutex: it is running,
    and it is not waiting for the player mutex. *)
Lemma holder_running c t m :
  disciplined c -> owner (lock_of m (cf_store c)) = Some t ->
  exists p, thread t c = Running p /\ locked (held_by t (cf_store c)) nothing p.
Proof.
  intros Hc Hown. specialize (Hc t). unfold keeps in Hc.
  destruct (thread t c) as [p| |why]; [by exists p| |];
    by destruct (proj1 (held_by_nothing _ _) Hc m).
Qed.

(** A thread that holds the canvas mutex can move. *)
Lemma canvas_holder_moves c t :
  disciplined c -> cf_exited c = false ->
  owner (st_canvas_lock (cf_store c)) = Some t -> is_Some (pool_step t c).
Proof.
  intros Hc He Hown.
  destruct (holder_running c t CanvasMutex Hc Hown) as (p & Hp & Hl).
  assert (holds_canvas (held_by t (cf_store c)) = true) as Hh
    by (by apply (holds_held_by t CanvasMutex)).
  unfold pool_step. rewrite He, Hp.
  destruct p as [| | |m k|m k|k|g k|k|g k|r k|k|o k]; cbn [locked] in Hl;
    try (by eexists).
  - destruct Hl as [Hm _]. destruct (held_by _ _) as [[] []], m; by cbn in *.
  - destruct Hl as [Hn _]. by rewrite Hn in Hh.
Qed.

(** A thread that holds a mutex can move, or waits for the canvas mutex,
    which a thread that can move holds. *)
Lemma holder_moves c t m :
  disciplined c -> cf_exited c = false ->
  owner (lock_of m (cf_store c)) = Some t ->
  exists t', is_Some (pool_step t' c).
Proof.
  intros Hc He Hown.
  destruct (holder_running c t m Hc Hown) as (p & Hp & Hl).
  assert (holds (held_by t (cf_store c)) m = true) as Hh by (by apply holds_held_by).
  destruct (pool_step t c) as [c'|] eqn:Hstep; [by exists t|].
  unfold pool_step in Hstep. rewrite He, Hp in Hstep.
  destruct p as [| | |m' k|m' k|k|g k|k|g k|r k|k|o k]; cbn [locked] in Hl; try done.
  - destruct Hl as [Hm _]. destruct (view _) as [|t1|] eqn:Hv; try done.
    apply view_IsHeld in Hv as [Hown1 _].
    destruct m'; [|exists t1; by apply canvas_holder_moves].
    exfalso. destruct (held_by _ _) as [[] []], m; by cbn in *.
  - destruct Hl as [Hn _]. rewrite Hn in Hh. by destruct m.
Qed.

Lemma run_schedule_app schedule schedule' c :
  pool_run (schedule ++ schedule') c = pool_run schedule c ≫= pool_run schedule'.
Proof.
  revert c. induction schedule as [|t schedule IH]; intros c; [done|].
  cbn [app pool_run]. by destruct (pool_step t c).
Qed.

Lemma follows_wf {A} : well_founded (@follows A).
Proof.
  intros p. induction p as [| | |m k IH|m k IH|k IH|g k IH|k IH|g k IH|r k IH|k IH|o k IH];
    constructor; intros q Hq; inversion Hq; subst; auto.
Qed.

Lemma later_wf : well_founded later.
Proof.
  assert (forall p, Acc later (Running p)) as Hrun.
  { intros p. induction (follows_wf p) as [p _ IH].
    constructor. intros st Hst. inversion Hst; subst; [by apply IH| |];
      constructor; intros st' Hst'; inversion Hst'. }
  intros [p| |why]; [apply Hrun| |]; constructor; intros st Hst; inversion Hst.
Qed.

(** A step moves its thread to a later status and leaves the others. *)
Lemma step_later t c c' :
  pool_step t c = Some c' ->
  later (thread t c') (thread t c) /\ forall t', t' <> t -> thread t' c' = thread t' c.
Proof.
  unfold pool_step, die, continue. destruct (cf_exited c); [done|].
  destruct (thread t c) as [p| |why] eqn:Hp; [|done|done].
  destruct p as [| | |m k|m k|k|g k|k|g k|r k|k|o k];
    try destruct (view _); try destruct (recv _) as [[? ?]|]; intros [= <-];
    rewrite thread_update_same;
    (split; [by repeat constructor | by intros; apply thread_update_other]).
Qed.

(** The pool is disciplined at the start. *)
Lemma pool_disciplined s observer input main :
  idle s -> arm observer -> arm input -> arm main ->
  disciplined (pool s observer input main).
Proof.
  intros [Hp Hc] Ho Hi Hm t.
  assert (held_by t s = nothing) as Hn by (unfold held_by; by rewrite Hp, Hc).
  unfold keeps. destruct t; cbn; by rewrite Hn.
Qed.

(** ** The discipline in the pool *)

(** Preservation: a step of any thread keeps the discipline.  In the
    pool it leaves, what is left of every running program is again an arm
    from the mutexes its thread holds, and a thread that returned or
    panicked holds no mutex. *)
Lemma step_disciplined t c c' :
  disciplined c -> pool_step t c = Some c' -> disciplined c'.
Proof.
  intros Hc. pose proof (Hc t) as Ht. unfold keeps in Ht. unfold pool_step.
  destruct (cf_exited c); [done|]. destruct (thread t c) as [p| |why]; [|done|done].
  destruct p as [| | |m k|m k|k|g k|k|g k|r k|k|o k]; cbn [locked] in Ht;
    try (intros [= <-]);
    try (apply disciplined_continue; by try apply Ht).
  - by apply disciplined_update.
  - by apply disciplined_die.
  - by apply disciplined_update.
  - destruct Ht as [_ Ht]. destruct (view _) eqn:Hv; intros [= <-];
      [|by apply disciplined_die].
    apply view_IsFree in Hv as [Hfree _]. apply disciplined_update; [done| |].
    + intros t' Hne. by apply held_by_acquire_other.
    + by rewrite held_by_acquire_same.
  - destruct Ht as [Hh Ht]. apply holds_held_by in Hh. apply disciplined_update; [done| |].
    + intros t' Hne. by apply (held_by_release_other t).
    + by rewrite held_by_release_same.
  - destruct (recv _) as [[msg rest]|]; intros [= <-].
    apply disciplined_continue; by try apply Ht.
Qed.

(** The discipline holds all along a run. *)
Lemma run_disciplined schedule c c' :
  disciplined c -> pool_run schedule c = Some c' -> disciplined c'.
Proof.
  revert c. induction schedule as [|t schedule IH]; intros c Hc; cbn [pool_run].
  - by intros [= <-].
  - destruct (pool_step t c) as [c1|] eqn:Hstep; [|done].
    apply IH. by apply (step_disciplined t c).
Qed.

(** Progress: the mutexes never deadlock.  In a disciplined pool of
    a process that has not ended, whenever a thread is running and is not
    waiting for a request on the empty channel, some thread can move: a
    thread that waits for a mutex waits for a thread that can move, or for
    one that waits for the canvas mutex, whose holder can move. *)
Lemma no_deadlock c t p :
  disciplined c -> cf_exited c = false ->
  thread t c = Running p -> ~ waiting t c ->
  exists t' c', pool_step t' c = Some c'.
Proof.
  intros Hc He Hp Hw.
  enough (exists t', is_Some (pool_step t' c)) as (t' & c' & Hs) by eauto.
  destruct (pool_step t c) as [c'|] eqn:Hstep; [by exists t|].
  unfold pool_step in Hstep. rewrite He, Hp in Hstep.
  destruct p as [| | |m k|m k|k|g k|k|g k|r k|k|o k]; try done.
  - destruct (view _) as [|t1|] eqn:Hv; try done.
    apply view_IsHeld in Hv as [Hown _]. by apply (holder_moves c t1 m).
  - destruct (recv _) as [[msg rest]|] eqn:Hr; [done|].
    destruct Hw. exists k. split; [done|].
    by destruct (pending _).
Qed.

(** Where a run can stop: a disciplined pool in which no thread can move,
    and whose process has not ended, is at rest: every thread that runs
    waits for a request on the empty channel, and both mutexes are free. *)
Lemma stuck_at_rest c :
  disciplined c -> cf_exited c = false -> (forall t, pool_step t c = None) ->
  (forall t p, thread t c = Running p -> waiting t c) /\
  (forall m, owner (lock_of m (cf_store c)) = None).
Proof.
  intros Hc He Hstuck.
  assert (forall t' c', pool_step t' c <> Some c') as Hno
    by (intros t' c'; by rewrite Hstuck).
  split.
  - intros t p Hp. destruct p as [| | |m k|m k|k|g k|k|g k|r k|k|o k];
      try (specialize (Hstuck t); unfold pool_step in Hstuck;
           rewrite He, Hp in Hstuck; done).
    + destruct (no_deadlock c t (Lock m k) Hc He Hp) as (t' & c' & Hs);
        [intros (k' & Heq & _); congruence | by destruct (Hno t' c')].
    + exists k. split; [done|]. specialize (Hstuck t). unfold pool_step in Hstuck.
      rewrite He, Hp in Hstuck. by destruct (pending _) as [|[? ?] ?].
  - intros m. destruct (owner _) as [t|] eqn:Hown; [|done].
    destruct (holder_moves c t m Hc He Hown) as (t' & c' & Hs). by destruct (Hno t' c').
Qed.

(** Mutual exclusion: in a disciplined pool two threads are never both
    inside an access to the same record; a thread that reads or writes the
    player or the canvas is the owner of its mutex. *)
Lemma exclusive_access c m t t' p p' :
  disciplined c ->
  thread t c = Running p -> thread t' c = Running p' ->
  accesses m p -> accesses m p' ->
  t = t' /\ owner (lock_of m (cf_store c)) = Some t.
Proof.
  intros Hc Hp Hp' Ha Ha'.
  assert (forall u q, thread u c = Running q -> accesses m q ->
            owner (lock_of m (cf_store c)) = Some u) as Hown.
  { intros u q Hq Hacc. apply holds_held_by.
    pose proof (Hc u) as Hu. unfold keeps in Hu. rewrite Hq in Hu.
    destruct q, m; cbn in Hacc; try done; cbn [locked] in Hu; apply Hu. }
  pose proof (Hown t p Hp Ha) as E. pose proof (Hown t' p' Hp' Ha') as E'.
  split; [congruence | done].
Qed.

(** Poison stays. *)
Lemma step_poisoned t c c' m :
  pool_step t c = Some c' -> poisoned (lock_of m (cf_store c)) = true ->
  poisoned (lock_of m (cf_store c')) = true.
Proof.
  unfold pool_step, die, continue. destruct (cf_exited c); [done|].
  destruct (thread t c) as [p| |why]; [|done|done]. intros Hstep Hpo.
  assert (forall u, poisoned (lock_of m (unwind u (cf_store c))) = true) as Hunwind.
  { intros u. unfold unwind, unwind_lock. destruct m; cbn in *; by destruct (decide _). }
  destruct p as [| | |m' k|m' k|k|g k|k|g k|r k|k|o k];
    try destruct (view _) eqn:Hv; try destruct (recv _) as [[? ?]|];
    try done; injection Hstep as <-; rewrite store_update; try done;
    unfold acquire, release; destruct m, m'; cbn in *; done.
Qed.

Lemma run_poisoned schedule c c' m :
  pool_run schedule c = Some c' -> poisoned (lock_of m (cf_store c)) = true ->
  poisoned (lock_of m (cf_store c')) = true.
Proof.
  revert c. induction schedule as [|t schedule IH]; intros c; cbn [pool_run].
  - by intros [= <-].
  - destruct (pool_step t c) as [c1|] eqn:Hstep; [|done]. intros Hrun Hpo.
    apply (IH c1 Hrun). by apply (step_poisoned t c).
Qed.

(** Poisoning.  A thread that panics while it holds a mutex poisons
    it for good: after any run that follows, a thread that asks for the mutex
    panics in its turn, with the panic of [unwrap] on an error, and poisons
    what it holds itself; when that thread is the main thread the process
    ends. *)
Lemma poison_spreads c t why m schedule c' t' k :
  cf_exited c = false ->
  thread t c = Running (Fail why) -> owner (lock_of m (cf_store c)) = Some t ->
  pool_run (t :: schedule) c = Some c' ->
  cf_exited c' = false -> thread t' c' = Running (Lock m k) ->
  pool_step t' c' = Some (die t' UnwrapErr c') /\
  thread t' (die t' UnwrapErr c') = Panicked UnwrapErr /\
  cf_exited (die t' UnwrapErr c') = bool_decide (t' = MainThread).
Proof.
  intros He Hp Hown Hrun He' Hp'. cbn [pool_run] in Hrun.
  unfold pool_step in Hrun at 1. rewrite He, Hp in Hrun.
  apply (run_poisoned _ _ _ m) in Hrun.
  - unfold pool_step. rewrite He', Hp'.
    apply view_IsPoisoned in Hrun as ->.
    unfold die. by rewrite thread_update_same, exited_update.
  - unfold die. rewrite store_update. unfold unwind, unwind_lock.
    destruct m; cbn in *; by rewrite decide_True.
Qed.

(** *** One thread alone in the pool *)

Lemma update_update t st st' s s' e e' c :
  update t st s e (update t st' s' e' c) = update t st s e c.
Proof. by destruct t. Qed.

Lemma update_same t c :
  update t (thread t c) (cf_store c) (cf_exited c) c = c.
Proof. by destruct t, c. Qed.

(** How [exec] ends, as a pool: the thread and the store it leaves. *)
Definition ended {A} (t : producer) (k : A -> prog unit) (r : ending A * store)
    (c : config) : option config :=
  match r.1 with
  | Returns a => Some (update t (Running (k a)) r.2 false c)
  | Panics why => Some (update t (Panicked why) r.2 (bool_decide (t = MainThread)) c)
  | Exits => Some (update t Finished r.2 true c)
  | Blocks => None
  end.

Lemma ended_continue {A} t (k : A -> prog unit) r q s c :
  ended t k r (continue t q s c) = ended t k r c.
Proof. unfold ended, continue. destruct r as [[] ?]; cbn; by rewrite ?update_update. Qed.

Lemma pool_run_step t c c1 c' :
  pool_step t c = Some c1 ->
  (exists n, pool_run (replicate n t) c1 = Some c') ->
  exists n, pool_run (replicate n t) c = Some c'.
Proof. intros Hstep [n Hn]. exists (S n). cbn. by rewrite Hstep. Qed.

(** A program that [exec] runs to its end is run to the same end by the
    pool, under the schedule that names its thread at every step. *)
Lemma exec_run {A} (p : prog A) (k : A -> prog unit) t c c' :
  thread t c = Running (prog_bind p k) -> cf_exited c = false ->
  ended t k (exec t p (cf_store c)) c = Some c' ->
  exists n, pool_run (replicate n t) c = Some c'.
Proof.
  revert c.
  induction p as [a|why| |m q IH|m q IH|q IH|g q IH|q IH|g q IH|r q IH|q IH|o q IH];
    intros c Hp He; cbn [exec prog_bind] in *;
    try destruct (view _) eqn:Hv; try destruct (recv _) as [[msg rest]|] eqn:Hr;
    intros Hend; try done;
    try (eapply pool_run_step;
         [ unfold pool_step; rewrite He, Hp, ?Hv, ?Hr; reflexivity
         | eapply IH; [apply thread_update_same | apply exited_update
                     | unfold continue at 1; rewrite store_update, ended_continue;
                       exact Hend] ]).
  - injection Hend as <-. exists 0%nat. cbn. f_equal.
    rewrite <- Hp, <- He. symmetry. apply update_same.
  - injection Hend as <-. exists 1%nat. cbn. unfold pool_step. by rewrite He, Hp.
  - injection Hend as <-. exists 1%nat. cbn. unfold pool_step. by rewrite He, Hp.
  - injection Hend as <-. exists 1%nat. cbn. unfold pool_step. by rewrite He, Hp, Hv.
Qed.

Lemma reaches_refl c : reaches c c.
Proof. by exists []. Qed.

Lemma reaches_trans c c1 c2 : reaches c c1 -> reaches c1 c2 -> reaches c c2.
Proof.
  intros [schedule Hrun] [schedule' Hrun']. exists (schedule ++ schedule').
  by rewrite run_schedule_app, Hrun.
Qed.

Lemma exec_reaches {A} (p : prog A) (k : A -> prog unit) t c c' :
  thread t c = Running (prog_bind p k) -> cf_exited c = false ->
  ended t k (exec t p (cf_store c)) c = Some c' -> reaches c c'.
Proof. intros Hp He Hend. destruct (exec_run p k t c c') as [n Hn]; by try exists (replicate n t). Qed.

(** A thread that has panicked stays so. *)
Lemma step_panicked t c c' u why :
  pool_step t c = Some c' -> thread u c = Panicked why -> thread u c' = Panicked why.
Proof.
  intros Hstep Hu. destruct (decide (u = t)) as [->|Hne].
  - unfold pool_step in Hstep. rewrite Hu in Hstep. by destruct (cf_exited c).
  - apply step_later in Hstep as [_ Hsame]. by rewrite Hsame.
Qed.

Lemma run_panicked schedule c c' u why :
  pool_run schedule c = Some c' -> thread u c = Panicked why -> thread u c' = Panicked why.
Proof.
  revert c. induction schedule as [|t schedule IH]; intros c; cbn [pool_run].
  - by intros [= <-].
  - destruct (pool_step t c) as [c1|] eqn:Hstep; [|done]. intros Hrun Hu.
    apply (IH c1 Hrun). by apply (step_panicked t c).
Qed.

(** Only [exit] and a panic of the main thread end the process. *)
Lemma step_stays t c c' : pool_step t c = Some c' -> stays c -> stays c'.
Proof.
  unfold pool_step, die, continue. destruct (cf_exited c) eqn:He; [done|].
  destruct (thread t c) as [p| |why] eqn:Hp; [|done|done]. intros Hstep [Hq Hx].
  pose proof (Hq t p Hp) as Hquiet.
  assert (forall st s, (forall q, st = Running q -> quiet q) ->
            stays (update t st s false c)) as Hgo.
  { intros st s Hst. split.
    - intros u q. rewrite thread_update. destruct (decide _); [apply Hst | apply Hq].
    - by rewrite exited_update. }
  assert (forall why s, stays (update t (Panicked why) s (bool_decide (t = MainThread)) c))
    as Hdie.
  { intros why s. split.
    - intros u q. rewrite thread_update. destruct (decide _); [done | apply Hq].
    - rewrite exited_update. intros ->%bool_decide_eq_true. by exists why. }
  destruct p as [| | |m k|m k|k|g k|k|g k|r k|k|o k]; cbn [quiet] in Hquiet;
    try destruct (view _); try destruct (recv _) as [[msg rest]|];
    try done; injection Hstep as <-;
    first [ apply Hdie | apply Hgo; intros q [= <-]; first [done | apply Hquiet] | by apply Hgo ].
Qed.

Lemma run_stays schedule c c' : pool_run schedule c = Some c' -> stays c -> stays c'.
Proof.
  revert c. induction schedule as [|t schedule IH]; intros c; cbn [pool_run].
  - by intros [= <-].
  - destruct (pool_step t c) as [c1|] eqn:Hstep; [|done]. intros Hrun Hc.
    apply (IH c1 Hrun). by apply (step_stays t c).
Qed.

(** Termination: every run ends.  The programs of the threads are
    finite and a step consumes one operation of one of them, so there is no
    infinite sequence of steps from any pool, whatever the schedule. *)
Lemma steps_terminate c : Acc (flip steps_to) c.
Proof.
  assert (forall so, Acc later so -> forall si, Acc later si -> forall sm, Acc later sm ->
          forall c, cf_observer c = so -> cf_input c = si -> cf_main c = sm ->
          Acc (flip steps_to) c) as Hacc.
  { intros so Ho. induction Ho as [so Ho IHo]. intros si Hi. induction Hi as [si Hi IHi].
    intros sm Hm. induction Hm as [sm Hm IHm]. intros c0 <- <- <-.
    constructor. intros c' [t Hstep]. apply step_later in Hstep as [Hl Hne].
    assert (forall u, u <> t -> Acc later (thread u c')) as Hu.
    { intros u Hn. rewrite (Hne u Hn). destruct u; by constructor. }
    destruct t; cbn in Hl.
    - by apply (IHo _ Hl _ (Hu InputListener ltac:(done)) _ (Hu MainThread ltac:(done)) c').
    - by apply (IHi _ Hl _ (Hu MainThread ltac:(done)) c' (Hne PropertyObserver ltac:(done))).
    - by apply (IHm _ Hl c' (Hne PropertyObserver ltac:(done))
                  (Hne InputListener ltac:(done))). }
  exact (Hacc _ (later_wf _) _ (later_wf _) _ (later_wf _) c eq_refl eq_refl eq_refl).
Qed.

(** *** Waiting for a mutex *)

(** A thread that is typed at [Lock m] holds neither [m] nor the canvas. *)
Lemma waiter_holds c t m k :
  disciplined c -> thread t c = Running (Lock m k) ->
  owner (lock_of m (cf_store c)) <> Some t /\
  owner (st_canvas_lock (cf_store c)) <> Some t.
Proof.
  intros Hc Hp. pose proof (Hc t) as Ht. unfold keeps in Ht. rewrite Hp in Ht.
  destruct Ht as [Hm _]. split; intros Hown.
  - apply holds_held_by in Hown. apply may_lock_not_held in Hm. congruence.
  - apply (holds_held_by t CanvasMutex) in Hown.
    destruct (held_by _ _) as [[] []], m; by cbn in *.
Qed.

(** A thread that waits for a mutex waits for another thread that can
    move: the holder, or the holder of the canvas the holder waits for. *)
Lemma waiter_not_needed c t m k :
  disciplined c -> cf_exited c = false ->
  thread t c = Running (Lock m k) -> pool_step t c = None ->
  exists t' c1, t' <> t /\ pool_step t' c = Some c1.
Proof.
  intros Hc He Hp Hstep. destruct (waiter_holds c t m k Hc Hp) as [Hnm Hnc].
  unfold pool_step in Hstep. rewrite He, Hp in Hstep.
  destruct (view _) as [|t1|] eqn:Hv; try done. apply view_IsHeld in Hv as [Hown _].
  assert (t1 <> t) as Hne by congruence.
  destruct (pool_step t1 c) as [c1|] eqn:Hstep1; [by exists t1, c1|].
  destruct (holder_running c t1 m Hc Hown) as (p1 & Hp1 & Hl1).
  assert (holds (held_by t1 (cf_store c)) m = true) as Hh by (by apply holds_held_by).
  unfold pool_step in Hstep1. rewrite He, Hp1 in Hstep1.
  destruct p1 as [| | |m' k'|m' k'|k'|g k'|k'|g k'|r k'|k'|o k']; cbn [locked] in Hl1;
    try done.
  - destruct Hl1 as [Hm' _]. destruct (view _) as [|t2|] eqn:Hv2; try done.
    apply view_IsHeld in Hv2 as [Hown2 _]. destruct m'.
    + exfalso. destruct (held_by _ _) as [[] []], m; by cbn in *.
    + destruct (canvas_holder_moves c t2 Hc He Hown2) as [c2 Hc2].
      exists t2, c2. split; [|done]. cbn in Hown2. congruence.
  - destruct Hl1 as [Hn _]. rewrite Hn in Hh. by destruct m.
Qed.

(** Every critical section ends: a thread that waits for a mutex gets its
    turn by steps of the other threads alone, unless the process ends
    first. *)
Lemma waiter_served c t m k :
  disciplined c -> cf_exited c = false -> thread t c = Running (Lock m k) ->
  exists schedule c',
    (t ∉ schedule) /\ pool_run schedule c = Some c' /\
    thread t c' = Running (Lock m k) /\
    (cf_exited c' = true \/ is_Some (pool_step t c')).
Proof.
  intros Hc He Hp. induction (steps_terminate c) as [c _ IH].
  destruct (pool_step t c) as [c1|] eqn:Hstep.
  { exists [], c. split; [apply not_elem_of_nil|]. rewrite Hstep. by eauto. }
  destruct (waiter_not_needed c t m k Hc He Hp Hstep) as (t' & c1 & Hne & Hstep1).
  assert (thread t c1 = Running (Lock m k)) as Hp1.
  { apply step_later in Hstep1 as [_ Hsame]. by rewrite Hsame. }
  destruct (cf_exited c1) eqn:He1.
  { exists [t'], c1. split; [apply not_elem_of_cons; split; [congruence | apply not_elem_of_nil]|].
    cbn. rewrite Hstep1. by eauto. }
  destruct (IH c1) as (schedule & c' & Hnot & Hrun & Hp' & Hend);
    [by exists t' | by apply (step_disciplined t' c) | done | done |].
  exists (t' :: schedule), c'. split; [apply not_elem_of_cons; split; [congruence | done]|].
  cbn. by rewrite Hstep1.
Qed.
