(* ===== verification/Threads.v ===== *)
(** * Threads: the three loops at the grain of their locks

    [PropertyListener], [InputListener] and [RenderLoop] give what one
    iteration of a loop computes when nothing else runs.  This file gives the
    same iterations as programs of [Locking.prog], statement by statement,
    with every [lock()] and every drop of a guard where the source has it:

    - a guard that is a temporary of a statement ([x.lock().unwrap().f] as
      an expression or on the left of an assignment) lives for the statement:
      [player_get], [player_set], [canvas_get], [canvas_set];
    - [let ref playlist = player.lock().unwrap().playlist] (main.rs 346,
      393, 515, 579, 707) and [let player = player.lock().unwrap()] (487,
      758, 800, 834, 843) keep the guard to the end of the block: [lock] at
      the statement, [unlock] at the end of the block;
    - in [x.lock().unwrap().f = e] the value [e] is computed before the
      mutex is taken (main.rs 648).

    An arm computes on the locals it read; where the source calls a function
    ([try_center_id], [jump_to_current], [search_playlist],
    [print_playlist]) or where the computation is that of [Viewport], the
    program calls the same definition on the values read.

    The theorems: every arm keeps the discipline of [Locking], so the
    threads never deadlock and exclude each other on the records; an arm run
    with no other thread running does what the atomic iteration of [System]
    does (refinement), panics included, and every run of [System] is a run
    of the pool; and what the atomic view does not show: a window that two
    threads tear, a panic that poisons the player for the two other threads,
    and a listener that dies alone. *)

From Stdlib Require Import ZArith Lia String SpecFloat.
From stdpp Require Import prelude strings gmap.
From S2P Require Import Prelude.
From S2P Require Import Float64.
From S2P Require Import Utf8.
From S2P Require Import Types.
From S2P Require Import Viewport.
From S2P Require Import Search.
From S2P Require Import RepaintQueue.
From S2P Require Import PropertyListener.
From S2P Require Import PlaylistView.
From S2P Require Import RenderLoop.
From S2P Require Import InputListener.
From S2P Require Import System.
From S2P Require Import Locking.

#[local] Open Scope Z_scope.
#[local] Open Scope prog_scope.

(** ** The code *)

(** The locals [top_line] and [selected_line] of an arm that does not read
    [bottom_line], as the canvas [Viewport] computes on. *)
Definition locals (top_line selected_line : Z) : PlaylistCanvas :=
  mkCanvas top_line 0 selected_line.

(** The two assignments with which a navigation arm ends (main.rs 337-338,
    363-364, 384-385, 413-414), and its send. *)
Definition store_lines (canvas' : PlaylistCanvas) : prog unit :=
  canvas_set (set_top_line (top_line canvas')) ;;
  canvas_set (set_selected_line (selected_line canvas')) ;;
  transmit_one repaint_list.

(** [*playlist_canvas.lock().unwrap() = new_canvas] and the send, when
    centring returned a canvas (main.rs 504-510, 521-527, 595-601,
    664-670). *)
Definition store_canvas (new_canvas : option PlaylistCanvas) : prog bool :=
  match new_canvas with
  | Some new_canvas =>
      canvas_set (fun _ => new_canvas) ;;
      transmit_one repaint_list ;;
      Ret true
  | None => Ret false
  end.

Section Code.
Context (om : overflow_mode) (max_x h : Z) `{Mpv} `{FloatFormat}.

(** *** The property observer *)

(** main.rs 183-194. *)
Definition duration_arm (data : MpvDataType.t) : prog unit :=
  match data with
  | MpvDataType.Double f =>
      player_set (set_duration f) ;;
      transmit_one (Repaint.StatusBar UpdateStatusBar.Time)
  | MpvDataType.Null =>
      player_set (set_duration f64_zero) ;;
      player_set (set_time_pos f64_zero) ;;
      transmit_one (Repaint.StatusBar UpdateStatusBar.Clear)
  | _ => Ret tt
  end.

(** main.rs 196-210. *)
Definition metadata_arm (data : MpvDataType.t) : prog unit :=
  match data with
  | MpvDataType.HashMap metadata =>
      player_set (set_metadata (Some metadata)) ;;
      transmit_one (Repaint.TopBar UpdateTopBar.Metadata)
  | MpvDataType.Null =>
      player_set (set_metadata None) ;;
      transmit_one (Repaint.TopBar UpdateTopBar.Clear) ;;
      transmit_one (Repaint.TopBar UpdateTopBar.Speed) ;;
      transmit_one (Repaint.TopBar UpdateTopBar.Volume)
  | _ => Ret tt
  end.

(** main.rs 212-231. *)
Definition mute_arm (data : MpvDataType.t) : prog unit :=
  match data with
  | MpvDataType.Bool muted =>
      player_set (set_is_muted muted) ;;
      transmit_one (if muted then blinking "Muted" else blinking "     ")
  | _ => Ret tt
  end.

(** main.rs 233-249. *)
Definition pause_arm (data : MpvDataType.t) : prog unit :=
  match data with
  | MpvDataType.Bool paused =>
      player_set (set_is_paused paused) ;;
      transmit_one (if paused then blinking "Paused"
                    else Repaint.StatusBar UpdateStatusBar.Clear)
  | _ => Ret tt
  end.

(** main.rs 251-257. *)
Definition speed_arm (data : MpvDataType.t) : prog unit :=
  match data with
  | MpvDataType.Double f =>
      player_set (set_speed f) ;;
      transmit_one (Repaint.TopBar UpdateTopBar.Speed)
  | _ => Ret tt
  end.

(** main.rs 259-265. *)
Definition time_pos_arm (data : MpvDataType.t) : prog unit :=
  match data with
  | MpvDataType.Double f =>
      player_set (set_time_pos f) ;;
      transmit_one (Repaint.StatusBar UpdateStatusBar.Time)
  | _ => Ret tt
  end.

(** main.rs 267-285: the guard of the comparison is dropped at the end of
    the condition, before the assignment takes the mutex again. *)
Definition playlist_arm (data : MpvDataType.t) : prog unit :=
  match data with
  | MpvDataType.Playlist pl =>
      n <- player_get (fun player => len (playlist player)) ;;
      if negb (n =? len pl) then
        player_set (set_playlist pl) ;;
        transmit_one (Repaint.Playlist true true)
      else
        player_set (set_playlist pl) ;;
        transmit_one (Repaint.Playlist false false)
  | _ => Ret tt
  end.

(** main.rs 287-293. *)
Definition volume_arm (data : MpvDataType.t) : prog unit :=
  match data with
  | MpvDataType.Double f =>
      player_set (set_volume f) ;;
      transmit_one (Repaint.TopBar UpdateTopBar.Volume)
  | _ => Ret tt
  end.

(** main.rs 180-298. *)
Definition event_arm (event : Event.t) : prog unit :=
  match event with
  | Event.PropertyChange id data =>
      if id =? OBS_ID_DURATION then duration_arm data
      else if id =? OBS_ID_METADATA then metadata_arm data
      else if id =? OBS_ID_MUTE then mute_arm data
      else if id =? OBS_ID_PAUSE then pause_arm data
      else if id =? OBS_ID_SPEED then speed_arm data
      else if id =? OBS_ID_TIME_POS then time_pos_arm data
      else if id =? OBS_ID_PLAYLIST then playlist_arm data
      else if id =? OBS_ID_VOLUME then volume_arm data
      else Ret tt
  | Event.Other => Ret tt
  end.

(** main.rs 178-300, on the results of [event_listen]. *)
Fixpoint observer_thread (results : list (option Event.t)) : prog unit :=
  match results with
  | [] => Ret tt
  | None :: _ => Fail UnwrapErr
  | Some event :: rest => event_arm event ;; observer_thread rest
  end.

(** *** The input listener *)

(** main.rs 324-343. *)
Definition up_arm : prog unit :=
  top_line0 <- canvas_get top_line ;;
  selected_line0 <- canvas_get selected_line ;;
  store_lines (key_up (locals top_line0 selected_line0)).

(** main.rs 345-369: the guard of line 346 lives to the end of the arm. *)
Definition down_arm : prog unit :=
  lock PlayerMutex ;;
  playlist <- read_player playlist ;;
  top_line0 <- canvas_get top_line ;;
  bottom_line0 <- canvas_get bottom_line ;;
  selected_line0 <- canvas_get selected_line ;;
  canvas' <- lift (key_down om h playlist (mkCanvas top_line0 bottom_line0 selected_line0)) ;;
  store_lines canvas' ;;
  unlock PlayerMutex.

(** main.rs 371-390. *)
Definition ppage_arm : prog unit :=
  top_line0 <- canvas_get top_line ;;
  selected_line0 <- canvas_get selected_line ;;
  canvas' <- lift (key_ppage om h (locals top_line0 selected_line0)) ;;
  store_lines canvas'.

(** main.rs 392-419: the guard of line 393 lives to the end of the arm. *)
Definition npage_arm : prog unit :=
  lock PlayerMutex ;;
  playlist <- read_player playlist ;;
  top_line0 <- canvas_get top_line ;;
  selected_line0 <- canvas_get selected_line ;;
  canvas' <- lift (key_npage om h playlist (locals top_line0 selected_line0)) ;;
  store_lines canvas' ;;
  unlock PlayerMutex.

(** main.rs 433-444. *)
Definition enter_arm : prog unit :=
  selected_line0 <- canvas_get selected_line ;;
  acts <- lift (expect (PlaylistPlayId selected_line0)) ;;
  perform acts ;;
  transmit_one repaint_list.

(** The arms that call one command: [mpv.<command>(..).expect(..)]. *)
Definition command_arm (c : mpv_command) : prog unit :=
  acts <- lift (expect c) ;;
  perform acts.

(** main.rs 486-512: the guard of line 487 lives to the end of the arm, the
    guard of line 501 to the end of its block. *)
Definition n_arm : prog unit :=
  lock PlayerMutex ;;
  player <- read_player id ;;
  let results := (search_results player).1 in
  (if 0 <? len results then
     cursor <- lift (next_cursor om (len results) (search_results player).2) ;;
     WritePlayer (set_search_results (results, cursor)) (Ret tt) ;;
     lock CanvasMutex ;;
     canvas <- read_canvas id ;;
     target <- lift (vec_index results cursor) ;;
     new_canvas <- lift (try_center_id om (playlist player) canvas target) ;;
     unlock CanvasMutex ;;
     store_canvas new_canvas ;;
     Ret tt
   else Ret tt) ;;
  unlock PlayerMutex.

(** main.rs 514-528: both guards as in the arm of [n]. *)
Definition o_arm : prog unit :=
  lock PlayerMutex ;;
  playlist <- read_player playlist ;;
  lock CanvasMutex ;;
  canvas <- read_canvas id ;;
  new_canvas <- lift (jump_to_current om playlist canvas) ;;
  unlock CanvasMutex ;;
  store_canvas new_canvas ;;
  unlock PlayerMutex.

(** main.rs 534-538: [endwin] and the end of the process. *)
Definition q_arm : prog mode := Emit (Acted EndWin) ProcessExit.

(** main.rs 540-546. *)
Definition r_arm : prog unit :=
  selected_line0 <- canvas_get selected_line ;;
  command_arm (PlaylistRemoveId selected_line0).

(** main.rs 647-653: mpv is asked before the mutex is taken. *)
Definition u_arm : prog unit :=
  new_playlist <- lift get_playlist ;;
  player_set (set_playlist new_playlist) ;;
  transmit_one (Repaint.Playlist true true).

(** main.rs 655-671: the playlist is a local, the player is not locked. *)
Definition z_arm : prog unit :=
  command_arm (RunCommand "playlist-shuffle" []) ;;
  playlist <- lift get_playlist ;;
  lock CanvasMutex ;;
  canvas <- read_canvas id ;;
  new_canvas <- lift (jump_to_current om playlist canvas) ;;
  unlock CanvasMutex ;;
  store_canvas new_canvas ;;
  Ret tt.

(** main.rs 323-675: one key outside the prompt.  The program returns the
    mode in which the listener reads its next key. *)
Definition browse_arm (ch : Z) : prog mode :=
  if ch =? KEY_UP then up_arm ;; Ret Browsing
  else if ch =? KEY_DOWN then down_arm ;; Ret Browsing
  else if ch =? KEY_PPAGE then ppage_arm ;; Ret Browsing
  else if ch =? KEY_NPAGE then npage_arm ;; Ret Browsing
  else if ch =? KEY_LEFT then perform (seek (SFopp (f64_of_Z 5))) ;; Ret Browsing
  else if ch =? KEY_RIGHT then perform (seek (f64_of_Z 5)) ;; Ret Browsing
  else if ch =? KEY_ENTER then enter_arm ;; Ret Browsing
  else if ch =? KEY_BACKSPACE then command_arm Restart ;; Ret Browsing
  else if ch =? KEY_GT then command_arm Next ;; Ret Browsing
  else if ch =? KEY_LT then command_arm Prev ;; Ret Browsing
  else if ch =? KEY_PLUS then
    command_arm (SetVolume (f64_of_Z 2) NumberChangeOptions.Increase) ;; Ret Browsing
  else if ch =? KEY_MINUS then
    command_arm (SetVolume (f64_of_Z 2) NumberChangeOptions.Decrease) ;; Ret Browsing
  else if ch =? KEY_RSBR then
    command_arm (SetSpeed f64_0_05 NumberChangeOptions.Increase) ;; Ret Browsing
  else if ch =? KEY_LSBR then
    command_arm (SetSpeed f64_0_05 NumberChangeOptions.Decrease) ;; Ret Browsing
  else if ch =? KEY_M then command_arm (SetMute Switch.Toggle) ;; Ret Browsing
  else if ch =? KEY_N then n_arm ;; Ret Browsing
  else if ch =? KEY_O then o_arm ;; Ret Browsing
  else if ch =? KEY_P then command_arm TogglePause ;; Ret Browsing
  else if ch =? KEY_Q then q_arm
  else if ch =? KEY_R then r_arm ;; Ret Browsing
  else if ch =? KEY_S then command_arm Stop ;; Ret Browsing
  else if ch =? KEY_SLASH then
    transmit_one (status_message "Search:") ;; Ret (Prompting "")
  else if ch =? KEY_U then u_arm ;; Ret Browsing
  else if ch =? KEY_Z then z_arm ;; Ret Browsing
  else Ret Browsing.

(** main.rs 571-616, [Enter] in the prompt: the guard of line 579 lives to
    the end of the [else] block, and line 613 takes the mutex again. *)
Definition commit_arm (search_string : string) : prog unit :=
  result <-
    (if String.eqb search_string "" then
       transmit_one status_clear ;;
       Ret ([], 0)
     else
       lock PlayerMutex ;;
       playlist <- read_player playlist ;;
       let result := (search_playlist playlist search_string, 0) in
       let match_count := len result.1 in
       (if 0 <? usize_as_i32 match_count then
          lock CanvasMutex ;;
          canvas <- read_canvas id ;;
          target <- lift (vec_index result.1 result.2) ;;
          new_canvas <- lift (try_center_id om playlist canvas target) ;;
          unlock CanvasMutex ;;
          stored <- store_canvas new_canvas ;;
          if stored then transmit_one status_clear else Ret tt
        else transmit_one (status_message "Search pattern not found")) ;;
       unlock PlayerMutex ;;
       Ret result) ;;
  player_set (set_search_results result).

(** main.rs 562-644: one key inside the prompt. *)
Definition prompt_arm (ch : Z) (search_string : string) : prog mode :=
  if ch =? KEY_ESC then transmit_one status_clear ;; Ret Browsing
  else if ch =? KEY_ENTER then commit_arm search_string ;; Ret Browsing
  else if ch =? KEY_BACKSPACE then
    let search_string := pop search_string in
    transmit_one status_clear ;;
    transmit_one (status_message (prompt_text search_string)) ;;
    Ret (Prompting search_string)
  else
    c <- lift (unwrap (char_from_u32 (i32_as_u32 ch))) ;;
    let search_string := push search_string c in
    transmit_one (status_message (prompt_text search_string)) ;;
    Ret (Prompting search_string).

(** One [getch] and what follows it. *)
Definition key_arm (m : mode) (ch : Z) : prog mode :=
  match m with
  | Browsing => browse_arm ch
  | Prompting search_string => prompt_arm ch search_string
  end.

(** main.rs 321-676, on the keys [getch] returns. *)
Fixpoint input_thread (keys : list Z) (m : mode) : prog unit :=
  match keys with
  | [] => Ret tt
  | ch :: keys' => m' <- key_arm m ch ;; input_thread keys' m'
  end.

(** *** The render loop *)

(** main.rs 701-734: the two lines are read before the player is locked
    (705-707); the guard of line 707 lives to the end of the arm, the guard
    of line 732 for the call of [print_playlist]. *)
Definition list_arm (clear_win scroll_to_beginning : bool) : prog unit :=
  top_line0 <- canvas_get top_line ;;
  selected_line0 <- canvas_get selected_line ;;
  lock PlayerMutex ;;
  playlist <- read_player playlist ;;
  show (if clear_win then [Erase ListPane] else []) ;;
  (if scroll_to_beginning then
     canvas_set (set_top_line 0) ;;
     canvas_set (set_selected_line 0)
   else Ret tt) ;;
  let top_line1 := if scroll_to_beginning then 0 else top_line0 in
  let selected_line1 := if scroll_to_beginning then 0 else selected_line0 in
  bottom_line <- lift (usize_add om top_line1 (i32_as_usize h)) ;;
  canvas_set (set_bottom_line bottom_line) ;;
  limit <- lift (i32_sub om (usize_as_i32 (len playlist)) 1) ;;
  (if limit <? usize_as_i32 selected_line1
   then canvas_set (set_selected_line 0)
   else Ret tt) ;;
  lock CanvasMutex ;;
  canvas <- read_canvas id ;;
  d <- lift (print_playlist om max_x playlist canvas) ;;
  show [Draw d.1 d.2] ;;
  unlock CanvasMutex ;;
  unlock PlayerMutex.

(** main.rs 757-787: the guard of line 758 lives to the end of the arm. *)
Definition time_arm : prog unit :=
  lock PlayerMutex ;;
  player <- read_player id ;;
  x <- lift (right_aligned om max_x (time_text player)) ;;
  show [Print StatusPane (Some (1, x)) (time_text player) false] ;;
  bar <- lift (progress_bar om max_x player) ;;
  show [Print StatusPane (Some (2, 0)) bar false] ;;
  unlock PlayerMutex.

(** main.rs 799-831: the guard of line 800 lives to the end of the arm,
    the call to mpv of line 811 included. *)
Definition title_arm (media_title : option string) : prog unit :=
  lock PlayerMutex ;;
  player <- read_player id ;;
  lines <- lift (render_metadata player media_title) ;;
  show [Print TopPane (Some (0, 0)) "Title:  " false;
        Print TopPane None lines.1 false;
        Print TopPane (Some (1, 0)) "Artist: " false;
        Print TopPane None lines.2 false] ;;
  unlock PlayerMutex.

(** main.rs 833-849: the text of a field of the player, aligned on the
    right of line [y] of the top bar. *)
Definition field_arm (y : Z) (text : Player -> string) : prog unit :=
  lock PlayerMutex ;;
  player <- read_player id ;;
  x <- lift (right_aligned om max_x (text player)) ;;
  show [Print TopPane (Some (y, x)) (text player) false] ;;
  unlock PlayerMutex.

(** main.rs 699-856: one request. *)
Definition request_arm (media_title : option string) (request : Repaint.t) : prog unit :=
  match request with
  | Repaint.Playlist clear_win scroll_to_beginning => list_arm clear_win scroll_to_beginning
  | Repaint.StatusBar what =>
      match what with
      | UpdateStatusBar.Clear => show [Erase StatusPane]
      | UpdateStatusBar.Message msg formatting =>
          show [Print StatusPane (Some (1, 0)) msg (is_blinking formatting)]
      | UpdateStatusBar.Time => time_arm
      end
  | Repaint.TopBar what =>
      match what with
      | UpdateTopBar.Clear => show [Erase TopPane]
      | UpdateTopBar.Metadata => title_arm media_title
      | UpdateTopBar.Speed => field_arm 0 speed_text
      | UpdateTopBar.Volume => field_arm 1 volume_text
      end
  end.

(** main.rs 691-857: the loop, one [recv] for each answer mpv would give to
    the lookup of line 811. *)
Fixpoint render_thread (titles : list (option string)) : prog unit :=
  match titles with
  | [] => Ret tt
  | media_title :: titles' =>
      Receive (fun request => request_arm media_title request ;; render_thread titles')
  end.

(** main.rs 684-857: the first request and the loop. *)
Definition main_thread (titles : list (option string)) : prog unit :=
  transmit_one repaint_list ;;
  render_thread titles.

(** The three loops at their heads, after [main] has sent its first
    request: the observer before an [event_listen], the input listener
    before a [getch] in mode [m], the render loop before a [recv]. *)
Definition threads (s : store) (m : mode) (results : list (option Event.t))
    (keys : list Z) (titles : list (option string)) : config :=
  mkConfig s (Running (observer_thread results)) (Running (input_thread keys m))
    (Running (render_thread titles)) false.

(** One iteration of a loop, as [System.step] counts them: the thread that
    runs it and its program, which returns the next mode of the listener. *)
Definition iteration (m : mode) (e : thread_event) : producer * prog mode :=
  match e with
  | Notify result =>
      (PropertyObserver,
       match result with
       | Some event => event_arm event ;; Ret m
       | None => Fail UnwrapErr
       end)
  | Key ch => (InputListener, key_arm m ch)
  | Redraw media_title =>
      (MainThread, Receive (fun request => request_arm media_title request ;; Ret m))
  end.

End Code.

(** The paints among the outputs, oldest first. *)
Definition painted (log : list (producer * output)) : list paint :=
  omap (fun e => match e.2 with Painted p => Some p | Acted _ => None end) log.

(** The system of [System] a store stands for. *)
Definition abstract (s : store) (m : mode) (exited : bool) : system :=
  mkSystem (st_player s) (st_canvas s) (st_channel s) m exited (painted (st_log s)).

(** A store with both mutexes free. *)
Abbreviation calm_store player canvas ch log :=
  (mkStore player canvas free free ch log) (only parsing).

(** The outputs [os] of thread [t], as the log records them. *)
Definition by_thread (t : producer) (os : list output) : list (producer * output) :=
  (fun o => (t, o)) <$> os.

(** How an arm of thread [t] ends when it returns [a] from a calm store:
    the two records it leaves, the requests it sent and what it did to the
    outside; both mutexes are free again. *)
Definition returns {A} (t : producer) (a : A) (player : Player) (canvas : PlaylistCanvas)
    (rs : list Repaint.t) (os : list output) (ch : chan_state)
    (log : list (producer * output)) : ending A * store :=
  (Returns a, calm_store player canvas (post t rs ch) (log ++ by_thread t os)).

(** How the program of a key ends for each result of the atomic handler:
    on [Ok] the program returns the next mode, or ends the process, and
    leaves the records, the requests and the actions of the handler; on a
    panic it panics with the same panic. *)
Definition key_ending (ctl : control) : ending mode :=
  match ctl with
  | Continue m => Returns m
  | InputListener.Exit => Exits
  end.

Definition refines_key (r : outcome result) (e : ending mode * store)
    (ch : chan_state) (log : list (producer * output)) : Prop :=
  match r with
  | Ok (ctl, player, canvas, acts) =>
      e = (key_ending ctl,
           calm_store player canvas (post InputListener (requests_of acts) ch)
             (log ++ by_thread InputListener (Acted <$> outward acts)))
  | Panic why => exists s, e = (Panics why, s)
  end.

(** The same for a request of the render loop. *)
Definition refines_request (player : Player) (r : outcome (PlaylistCanvas * list paint))
    (e : ending unit * store) (ch : chan_state) (log : list (producer * output))
  : Prop :=
  match r with
  | Ok (canvas, paints) =>
      e = returns MainThread tt player canvas [] (Painted <$> paints) ch log
  | Panic why => exists s, e = (Panics why, s)
  end.

(** What the pool makes of one atomic iteration: the inputs [ri], [ki],
    [ti] the iteration consumes, and the pool it leaves whatever inputs
    follow. *)
Definition step_realized (om : overflow_mode) (max_x h : Z) `{Mpv} `{FloatFormat}
    (s : store) (m : mode) (e : thread_event) : Prop :=
  exists ri ki ti,
    match System.step om max_x h (abstract s m false) e with
    | Ok sys1 =>
        (exists s1 m1, idle s1 /\ abstract s1 m1 false = sys1 /\
           forall rs ks ts,
             reaches (threads om max_x h s m (ri ++ rs) (ki ++ ks) (ti ++ ts)) (threads om max_x h s1 m1 rs ks ts)) \/
        (sys_exited sys1 = true /\
           forall rs ks ts, exists c1,
             reaches (threads om max_x h s m (ri ++ rs) (ki ++ ks) (ti ++ ts)) c1 /\
             abstract (cf_store c1) m (cf_exited c1) = sys1)
    | Panic why =>
        forall rs ks ts, exists c1 t,
          reaches (threads om max_x h s m (ri ++ rs) (ki ++ ks) (ti ++ ts)) c1 /\
          thread t c1 = Panicked why
    end.

(** ** Lemmas: the discipline of the arms *)

Lemma store_lines_locked h canvas' :
  holds_canvas h = false -> locked h h (store_lines canvas').
Proof. intros Hh. unfold store_lines. solve_locked. Qed.

Lemma store_canvas_locked h new_canvas :
  holds_canvas h = false -> locked h h (store_canvas new_canvas).
Proof. intros Hh. unfold store_canvas. solve_locked. Qed.

#[export] Hint Resolve store_lines_locked store_canvas_locked : locks.

Section Discipline.
Context (om : overflow_mode) (max_x h : Z) `{Mpv} `{FloatFormat}.

Lemma event_arm_arm event : arm (event_arm event).
Proof.
  unfold event_arm, duration_arm, metadata_arm, mute_arm, pause_arm, speed_arm,
    time_pos_arm, playlist_arm, volume_arm.
  solve_locked.
Qed.

Lemma command_arm_locked hd c : locked hd hd (command_arm c).
Proof. unfold command_arm. solve_locked. Qed.

Lemma browse_arm_arm ch : arm (browse_arm om h ch).
Proof.
  pose proof command_arm_locked.
  unfold browse_arm, up_arm, down_arm, ppage_arm, npage_arm, enter_arm, n_arm, o_arm,
    q_arm, r_arm, u_arm, z_arm.
  solve_locked.
Qed.

Lemma prompt_arm_arm ch search_string : arm (prompt_arm om ch search_string).
Proof. unfold prompt_arm, commit_arm. solve_locked. Qed.

Lemma key_arm_arm m ch : arm (key_arm om h m ch).
Proof. destruct m; [apply browse_arm_arm | apply prompt_arm_arm]. Qed.

Lemma request_arm_arm media_title request : arm (request_arm om max_x h media_title request).
Proof.
  unfold request_arm, list_arm, time_arm, title_arm, field_arm.
  solve_locked.
Qed.

Lemma observer_thread_arm results : arm (observer_thread results).
Proof.
  induction results as [|[event|] results IH]; [done| |done].
  cbn [observer_thread]. eapply locked_bind; [apply event_arm_arm | by intros].
Qed.

Lemma input_thread_arm keys m : arm (input_thread om h keys m).
Proof.
  revert m. induction keys as [|ch keys IH]; intros m; [done|].
  cbn [input_thread]. eapply locked_bind; [apply key_arm_arm | intros; apply IH].
Qed.

Lemma render_thread_arm titles : arm (render_thread om max_x h titles).
Proof.
  induction titles as [|media_title titles IH]; [done|].
  cbn [render_thread locked]. split; [done|]. intros request.
  eapply locked_bind; [apply request_arm_arm | by intros].
Qed.

Lemma main_thread_arm titles : arm (main_thread om max_x h titles).
Proof.
  unfold main_thread. eapply locked_bind; [done | intros; apply render_thread_arm].
Qed.

(** The observer and the render loop have no [exit]: only key [q] of the
    input listener ends the process (main.rs 534-538). *)
Lemma observer_thread_quiet results : quiet (observer_thread results).
Proof.
  induction results as [|[event|] results IH]; [done| |done].
  cbn [observer_thread]. apply quiet_bind; [|by intros].
  unfold event_arm, duration_arm, metadata_arm, mute_arm, pause_arm, speed_arm,
    time_pos_arm, playlist_arm, volume_arm.
  solve_quiet.
Qed.

Lemma main_thread_quiet titles : quiet (main_thread om max_x h titles).
Proof.
  unfold main_thread. apply quiet_bind; [done|]. intros _.
  induction titles as [|media_title titles IH]; [done|].
  cbn [render_thread quiet]. intros request. apply quiet_bind; [|by intros].
  unfold request_arm, list_arm, time_arm, title_arm, field_arm.
  solve_quiet.
Qed.

End Discipline.

(** ** Lemmas: an arm alone *)

(** Unfold the operations of an arm and of the store, and run the program
    as far as it is determined. *)
Ltac exec_cbn :=
  cbn [exec prog_bind lift lock unlock transmit_one emit_one read_player read_canvas
       player_get player_set canvas_get canvas_set perform show transmit_all
       store_lines store_canvas view lock_of set_lock acquire release write_player
       write_canvas transmit deliver emit and_then fst snd owner poisoned st_player
       st_canvas st_player_lock st_canvas_lock st_channel st_log id];
  unfold acquire, release, set_lock, write_player, write_canvas, transmit, deliver, emit;
  cbn [lock_of owner poisoned st_player st_canvas st_player_lock st_canvas_lock
       st_channel st_log top_line bottom_line selected_line set_top_line
       set_bottom_line set_selected_line].

Lemma post_nil t ch : post t [] ch = ch.
Proof. destruct ch. unfold post, send_all. cbn. by rewrite app_nil_r. Qed.

Lemma post_post t rs rs' ch : post t rs' (post t rs ch) = post t (rs ++ rs') ch.
Proof. unfold post, send_all. cbn. by rewrite fmap_app, app_assoc. Qed.

Lemma post_send t r ch :
  mkChan (delivered ch) (send t r (pending ch)) = post t [r] ch.
Proof. done. Qed.

Lemma by_thread_app t os os' : by_thread t (os ++ os') = by_thread t os ++ by_thread t os'.
Proof. apply fmap_app. Qed.

(** Bring the store an arm leaves to the form of [returns]. *)
Ltac settle :=
  unfold returns;
  rewrite ?post_send, ?post_post, ?post_nil, <- ?app_assoc, ?app_nil_r;
  cbn [app by_thread fmap list_fmap].

Lemma exec_perform t acts player canvas ch log :
  exec t (perform acts) (calm_store player canvas ch log) =
    returns t tt player canvas (requests_of acts) (Acted <$> outward acts) ch log.
Proof.
  revert ch log. induction acts as [|a acts IH]; intros ch log.
  - unfold returns. cbn. by rewrite post_nil, app_nil_r.
  - destruct a as [c|[r|ms]|]; exec_cbn; rewrite ?post_send, IH; unfold returns;
      cbn [requests_of outward omap fmap list_fmap by_thread];
      by rewrite ?post_post, <- ?app_assoc.
Qed.

Lemma outward_app acts acts' : outward (acts ++ acts') = outward acts ++ outward acts'.
Proof. apply omap_app. Qed.

Lemma outward_sends rs : outward (sends rs) = [].
Proof. by induction rs. Qed.

Lemma painted_app log log' : painted (log ++ log') = painted log ++ painted log'.
Proof. apply omap_app. Qed.

Lemma painted_Acted t acts : painted (by_thread t (Acted <$> acts)) = [].
Proof. by induction acts. Qed.

Lemma painted_Painted t paints : painted (by_thread t (Painted <$> paints)) = paints.
Proof. induction paints as [|p paints IH]; [done|]. cbn. by f_equal. Qed.

Section Alone.
Context (om : overflow_mode) (max_x h : Z) `{Mpv} `{FloatFormat}.

(** The observer: an arm alone stores and sends what [on_event] says. *)
Lemma event_arm_refines event player canvas ch log :
  exec PropertyObserver (event_arm event) (calm_store player canvas ch log) =
    returns PropertyObserver tt (on_event event player).1 canvas
      (on_event event player).2 [] ch log.
Proof.
  destruct event as [id data|]; [|by settle].
  unfold event_arm. case_id id; case_data data;
    unfold duration_arm, metadata_arm, mute_arm, pause_arm, speed_arm, time_pos_arm,
      playlist_arm, volume_arm; exec_cbn; try (by settle).
  destruct (negb _); exec_cbn; by settle.
Qed.

(** An arm that does not read [bottom_line] computes the same lines from
    its locals as [Viewport] from the canvas. *)
Lemma nav_step_locals playlist k top bottom selected :
  k <> Down ->
  nav_step om h playlist k (mkCanvas top bottom selected) =
    set_bottom_line bottom <$> nav_step om h playlist k (locals top selected).
Proof.
  intros Hk. destruct k; try done; cbn [nav_step]; unfold key_up, key_ppage, key_npage, locals;
    cbn [top_line bottom_line selected_line];
    repeat match goal with
    | |- context [if ?b then _ else _] => destruct b
    | |- context [mbind _ ?m] => destruct m; simpl_outcome
    end; done.
Qed.

(** Find the computation the program waits for and case on how it ends. *)
Ltac case_lift :=
  match goal with
  | |- context [lift ?m] =>
      let E := fresh "E" in destruct m eqn:E; simpl_outcome; exec_cbn
  end.

(** The four navigation arms alone. *)
Lemma nav_arm_refines k player canvas ch log :
  let arm := match k with
             | Up => up_arm | Down => down_arm om h
             | PageUp => ppage_arm om h | PageDown => npage_arm om h
             end in
  match nav_step om h (playlist player) k canvas with
  | Ok canvas' =>
      exec InputListener arm (calm_store player canvas ch log) =
        returns InputListener tt player canvas' [repaint_list] [] ch log
  | Panic why =>
      exists s', exec InputListener arm (calm_store player canvas ch log) = (Panics why, s')
  end.
Proof.
  destruct canvas as [top bottom selected].
  destruct k; [| pose proof (nav_step_bottom_line om h (playlist player) Down
                               (mkCanvas top bottom selected)) as Hb | |];
    try rewrite nav_step_locals by done;
    cbn [nav_step]; unfold up_arm, down_arm, ppage_arm, npage_arm; exec_cbn;
    try case_lift; try (by eexists); try (by settle).
  cbn [nav_step] in Hb. specialize (Hb _ E). destruct a. cbn in Hb. subst. by settle.
Qed.

(** Case on the canvas that centring returned. *)
Ltac case_stored :=
  match goal with
  | |- context [match ?x with Some _ => _ | None => _ end] => destruct x; exec_cbn
  end.

(** Close the case of an arm that has run to its end. *)
Ltac finish_arm :=
  simpl_outcome; cbn [refines_key refines_request];
  first
    [ by eexists
    | unfold returns;
      rewrite ?requests_of_app, ?requests_of_sends, ?outward_app, ?outward_sends;
      cbn [key_ending requests_of outward sends omap fmap list_fmap app by_thread
           fst snd];
      rewrite ?post_send, ?post_post, ?post_nil, <- ?app_assoc, ?app_nil_r;
      cbn [app]; reflexivity ].

(** Run an arm to each of its ends. *)
Ltac run_arm :=
  simpl_outcome; exec_cbn;
  repeat (first [ case_lift | case_stored
                | progress (rewrite ?exec_bind, ?exec_perform; unfold returns; exec_cbn) ];
          try finish_arm);
  try finish_arm.

(** Case analysis on the key of [browse_key] and [browse_arm], in the order
    of the arms. *)
Ltac case_arm_key ch :=
  repeat match goal with
  | |- context [ch =? ?k] => destruct (Z.eqb_spec ch k); [subst ch|]
  end.

Lemma browse_nav_refines k player canvas ch log :
  refines_key (canvas' ← nav_step om h (playlist player) k canvas;
               Ok (moved player canvas'))
    (exec InputListener
       (match k with
        | Up => up_arm | Down => down_arm om h
        | PageUp => ppage_arm om h | PageDown => npage_arm om h
        end ;; Ret Browsing) (calm_store player canvas ch log)) ch log.
Proof.
  pose proof (nav_arm_refines k player canvas ch log) as Hk. cbn zeta in Hk.
  rewrite exec_bind. destruct (nav_step _ _ _ _ _) as [canvas'|why].
  - rewrite Hk. unfold moved. cbn. finish_arm.
  - destruct Hk as [s' ->]. by eexists.
Qed.

Lemma command_arm_refines c player canvas ch log :
  refines_key (command c player canvas)
    (exec InputListener (command_arm c ;; Ret Browsing) (calm_store player canvas ch log))
    ch log.
Proof.
  unfold command, command_arm, expect. destruct (mpv_call c); exec_cbn; finish_arm.
Qed.

Lemma seek_refines seconds player canvas ch log :
  refines_key (Ok (Continue Browsing, player, canvas, seek seconds))
    (exec InputListener (perform (seek seconds) ;; Ret Browsing)
       (calm_store player canvas ch log)) ch log.
Proof. rewrite exec_bind, exec_perform. done. Qed.

Lemma n_arm_refines player canvas ch log :
  refines_key (r ← key_n om player canvas; Ok (Continue Browsing, r.1.1, r.1.2, sends r.2))
    (exec InputListener (n_arm om ;; Ret Browsing) (calm_store player canvas ch log))
    ch log.
Proof.
  unfold key_n, n_arm. exec_cbn. destruct (0 <? _); exec_cbn; [|finish_arm].
  cbn [playlist set_search_results].
  repeat (case_lift; [|finish_arm]).
  case_stored; finish_arm.
Qed.

Lemma jump_refines playlist player canvas ch log :
  refines_key (jump om playlist player canvas [])
    (exec InputListener
       (lock CanvasMutex ;; canvas0 <- read_canvas id ;;
        new_canvas <- lift (jump_to_current om playlist canvas0) ;;
        unlock CanvasMutex ;; store_canvas new_canvas ;; Ret Browsing)
       (calm_store player canvas ch log)) ch log.
Proof.
  unfold jump. exec_cbn. case_lift; [|finish_arm]. case_stored; finish_arm.
Qed.

Lemma browse_arm_refines ch player canvas chn log :
  refines_key (browse_key om h ch player canvas)
    (exec InputListener (browse_arm om h ch) (calm_store player canvas chn log)) chn log.
Proof.
  unfold browse_key, browse_arm. case_arm_key ch;
    try apply command_arm_refines; try apply seek_refines; try apply n_arm_refines.
  - apply (browse_nav_refines Up).
  - apply (browse_nav_refines Down).
  - apply (browse_nav_refines PageUp).
  - apply (browse_nav_refines PageDown).
  - unfold enter_arm. run_arm.
  - unfold o_arm, jump. run_arm.
  - run_arm.
  - run_arm.
  - unfold u_arm. run_arm.
  - unfold z_arm, command_arm, jump. run_arm.
  - run_arm.
Qed.

Lemma prompt_arm_refines ch search_string player canvas chn log :
  refines_key (prompt_key om ch search_string player canvas)
    (exec InputListener (prompt_arm om ch search_string) (calm_store player canvas chn log))
    chn log.
Proof.
  unfold prompt_key, search_key, prompt_arm. case_arm_key ch.
  - run_arm.
  - unfold search_commit, commit_arm. exec_cbn. destruct (String.eqb _ _); [run_arm|].
    exec_cbn. destruct (0 <? _); run_arm.
  - run_arm.
  - run_arm.
Qed.

(** One request alone: the program of the request paints what [render]
    says and leaves the canvas it says. *)
Lemma request_arm_refines media_title request player canvas ch log :
  refines_request player (render om max_x h media_title request player canvas)
    (exec MainThread (request_arm om max_x h media_title request)
       (calm_store player canvas ch log)) ch log.
Proof.
  destruct canvas as [top bottom selected]. unfold render, request_arm.
  destruct request as [clear_win scroll|[| |msg formatting]|[| | |]];
    unfold list_arm, render_playlist_canvas, time_arm, title_arm, field_arm;
    [|run_arm..].
  destruct clear_win, scroll; run_arm;
    match goal with |- context [if ?b then _ else _] => destruct b end; run_arm.
Qed.

(** One key alone: the program of the key does what [on_key] says. *)
Lemma key_arm_refines m ch player canvas chn log :
  refines_key (on_key om h m ch player canvas)
    (exec InputListener (key_arm om h m ch) (calm_store player canvas chn log)) chn log.
Proof. destruct m; [apply browse_arm_refines | apply prompt_arm_refines]. Qed.

End Alone.

(** ** Lemmas: atomic iterations in the pool *)

Section Realized.
Context (om : overflow_mode) (max_x h : Z) `{Mpv} `{FloatFormat}.

Lemma notify_realized result player canvas ch log m :
  step_realized om max_x h (calm_store player canvas ch log) m (Notify result).
Proof.
  exists [result], [], [].
  unfold System.step, abstract, notify; cbn [sys_exited]. destruct result as [event|];
    simpl_outcome.
  - left. eexists _, m. split; [|split]; [| |intros rs ks ts].
    3: { eapply (exec_reaches (event_arm event) (fun _ => observer_thread rs)
                   PropertyObserver); [reflexivity | reflexivity |].
         unfold threads. cbn [cf_store app]. rewrite event_arm_refines. reflexivity. }
    + done.
    + cbn. by rewrite app_nil_r.
  - intros rs ks ts. eexists _, PropertyObserver. split; [by exists [PropertyObserver]|done].
Qed.

Lemma key_realized key player canvas ch log m :
  step_realized om max_x h (calm_store player canvas ch log) m (Key key).
Proof.
  exists [], [key], []. unfold System.step, abstract, System.key.
  cbn [sys_exited sys_player sys_canvas sys_channel sys_mode sys_screen st_player
       st_canvas st_channel st_log].
  pose proof (key_arm_refines om h m key player canvas ch log) as Hk.
  destruct (on_key _ _ _ _ _ _) as [[[[ctl player'] canvas'] acts]|why];
    cbn [refines_key] in Hk; simpl_outcome; cbn [fst snd].
  - assert (forall rs ks ts c1,
              ended InputListener (input_thread om h ks) (key_ending ctl,
                calm_store player' canvas' (post InputListener (requests_of acts) ch)
                  (log ++ by_thread InputListener (Acted <$> outward acts)))
                (threads om max_x h (calm_store player canvas ch log) m rs (key :: ks) ts)
                = Some c1 ->
              reaches (threads om max_x h (calm_store player canvas ch log) m rs (key :: ks) ts)
                c1) as Hgo.
    { intros rs ks ts c1 Hend.
      eapply (exec_reaches (key_arm om h m key) (input_thread om h ks) InputListener);
        [reflexivity | reflexivity |].
      unfold threads. cbn [cf_store]. by rewrite Hk. }
    destruct ctl as [m1|]; [left | right].
    + eexists _, m1. split; [|split]; [| |intros rs ks ts; by apply Hgo].
      * done.
      * cbn. by rewrite painted_app, painted_Acted, app_nil_r.
    + split; [done|]. intros rs ks ts. eexists. split; [by apply Hgo|].
      cbn. by rewrite painted_app, painted_Acted, app_nil_r.
  - destruct Hk as [s' Hk]. intros rs ks ts. eexists _, InputListener. split.
    + eapply (exec_reaches (key_arm om h m key) (input_thread om h ks) InputListener);
        [reflexivity | reflexivity |].
      unfold threads. cbn [cf_store]. by rewrite Hk.
    + done.
Qed.

Lemma redraw_realized media_title player canvas ch log m :
  step_realized om max_x h (calm_store player canvas ch log) m (Redraw media_title).
Proof.
  unfold step_realized, System.step, abstract, redraw.
  cbn [sys_exited sys_player sys_canvas sys_channel sys_mode sys_screen st_player
       st_canvas st_channel st_log].
  destruct (recv (pending ch)) as [[msg rest]|] eqn:Hr.
  - exists [], [], [media_title].
    pose proof (request_arm_refines om max_x h media_title msg.2 player canvas
                  (mkChan (delivered ch ++ [msg]) rest) log) as Hk.
    assert (forall rs ks ts e c1,
              exec MainThread (request_arm om max_x h media_title msg.2)
                (calm_store player canvas (mkChan (delivered ch ++ [msg]) rest) log) = e ->
              ended MainThread (fun _ => render_thread om max_x h ts) e
                (threads om max_x h (calm_store player canvas ch log) m rs ks
                   (media_title :: ts)) = Some c1 ->
              reaches (threads om max_x h (calm_store player canvas ch log) m rs ks
                         (media_title :: ts)) c1) as Hgo.
    { intros rs ks ts e c1 He Hend.
      eapply (exec_reaches (Receive (fun request => request_arm om max_x h media_title request))
                (fun _ => render_thread om max_x h ts) MainThread);
        [reflexivity | reflexivity |].
      unfold threads. cbn [cf_store exec st_channel]. rewrite Hr. unfold deliver.
      cbn [st_player st_canvas st_player_lock st_canvas_lock st_channel st_log].
      by rewrite He. }
    destruct (render _ _ _ _ _ _ _) as [[canvas' paints]|why];
      cbn [refines_request] in Hk; simpl_outcome.
    + left. eexists _, m. split; [|split]; [| |intros rs ks ts; by eapply Hgo].
      * done.
      * cbn. by rewrite post_nil, painted_app, painted_Painted.
    + destruct Hk as [s' Hk]. intros rs ks ts. eexists _, MainThread.
      split; [by eapply Hgo | done].
  - exists [], [], []. left. eexists _, m. split; [|split]; [| |intros; apply reaches_refl].
    + done.
    + done.
Qed.

Lemma event_realized e player canvas ch log m :
  step_realized om max_x h (calm_store player canvas ch log) m e.
Proof.
  destruct e; [apply notify_realized | apply key_realized | apply redraw_realized].
Qed.

Lemma run_exited s es : sys_exited s = true -> System.run om max_x h s es = Ok s.
Proof.
  intros He. induction es as [|e es IH]; [done|].
  cbn [System.run]. unfold System.step. by rewrite He.
Qed.

(** What the pool makes of a schedule of atomic iterations. *)
Lemma run_realized es s m :
  idle s ->
  exists results keys titles,
    match System.run om max_x h (abstract s m false) es with
    | Ok sys' =>
        exists c', reaches (threads om max_x h s m results keys titles) c' /\
          exists m', abstract (cf_store c') m' (cf_exited c') = sys'
    | Panic why =>
        exists c' t, reaches (threads om max_x h s m results keys titles) c' /\
          thread t c' = Panicked why
    end.
Proof.
  revert s m. induction es as [|e es IH]; intros s m Hs.
  { exists [], [], []. cbn. eexists. split; [apply reaches_refl|]. by exists m. }
  destruct s as [player canvas pl cl ch log]. destruct Hs as [Hp Hc]. cbn in Hp, Hc. subst.
  destruct (event_realized e player canvas ch log m) as (ri & ki & ti & Hstep).
  cbn [System.run]. destruct (System.step _ _ _) as [sys1|why]; simpl_outcome.
  - destruct Hstep as [(s1 & m1 & Hs1 & <- & Hreach)|[He Hreach]].
    + destruct (IH s1 m1 Hs1) as (rs & ks & ts & Hrest).
      exists (ri ++ rs), (ki ++ ks), (ti ++ ts).
      destruct (System.run _ _ _) as [sys'|why].
      * destruct Hrest as (c' & Hc' & Habs). exists c'. split; [|done].
        by eapply reaches_trans.
      * destruct Hrest as (c' & t & Hc' & Ht). exists c', t. split; [|done].
        by eapply reaches_trans.
    + exists (ri ++ []), (ki ++ []), (ti ++ []). rewrite run_exited by done.
      destruct (Hreach [] [] []) as (c1 & Hc1 & Habs). exists c1. split; [done|]. by exists m.
  - exists (ri ++ []), (ki ++ []), (ti ++ []). apply Hstep.
Qed.

End Realized.

(** ** Theorems *)

(** C2. Refinement: an iteration alone is the atomic iteration.  Take a
    store with both mutexes free and the system of [System] it stands for.
    Whatever [System.step] makes of an event (a notification, a key, a
    redraw), the program of that iteration, run by its thread with no other
    thread running, makes the same: when the step returns a system the
    program returns with both mutexes free on a store that stands for that
    system (or ends the process, for key [q], or stays blocked in [recv] on
    an empty channel); when the step panics the program panics with the same
    panic. *)
Theorem iteration_refines om max_x h `{Mpv} `{FloatFormat} player canvas ch log m e :
  let s := calm_store player canvas ch log in
  let alone := exec (iteration om max_x h m e).1 (iteration om max_x h m e).2 s in
  match System.step om max_x h (abstract s m false) e with
  | Ok sys' =>
      (exists m' s', alone = (Returns m', s') /\ idle s' /\ abstract s' m' false = sys') \/
      (exists s', alone = (Exits, s') /\ abstract s' m true = sys') \/
      (alone = (Blocks, s) /\ sys' = abstract s m false /\ pending ch = [])
  | Panic why => exists s', alone = (Panics why, s')
  end.
Proof.
  intros s alone. subst s alone. unfold System.step, abstract. cbn [sys_exited].
  destruct e as [[event|]|key|media_title]; cbn [iteration fst snd].
  - unfold notify. cbn [sys_player sys_canvas sys_channel sys_mode sys_screen].
    simpl_outcome. left. rewrite exec_bind, event_arm_refines. unfold returns.
    cbn [and_then fst snd exec]. eexists _, _. split; [reflexivity|]. split; [done|].
    cbn. by rewrite app_nil_r.
  - by eexists.
  - unfold System.key. cbn [sys_player sys_canvas sys_channel sys_mode sys_screen].
    pose proof (key_arm_refines om h m key player canvas ch log) as Hk.
    destruct (on_key _ _ _ _ _ _) as [[[[ctl player'] canvas'] acts]|why];
      cbn [refines_key] in Hk; simpl_outcome; [|done].
    rewrite Hk. cbn [fst snd]. destruct ctl as [m'|]; cbn [key_ending]; [left|right; left].
    + eexists _, _. split; [reflexivity|]. split; [done|].
      cbn. by rewrite painted_app, painted_Acted, app_nil_r.
    + eexists. split; [reflexivity|]. cbn. by rewrite painted_app, painted_Acted, app_nil_r.
  - unfold redraw. cbn [sys_player sys_canvas sys_channel sys_mode sys_screen exec st_channel].
    destruct (recv (pending ch)) as [[msg rest]|] eqn:Hr.
    + pose proof (request_arm_refines om max_x h media_title msg.2 player canvas
                    (mkChan (delivered ch ++ [msg]) rest) log) as Hk.
      rewrite exec_bind. unfold deliver. cbn [st_player st_canvas st_player_lock
        st_canvas_lock st_channel st_log].
      destruct (render _ _ _ _ _ _ _) as [[canvas' paints]|why];
        cbn [refines_request] in Hk; simpl_outcome.
      * left. rewrite Hk. unfold returns. cbn [and_then fst snd exec].
        eexists _, _. split; [reflexivity|]. split; [done|].
        cbn. by rewrite post_nil, painted_app, painted_Painted.
      * destruct Hk as [s' ->]. by eexists.
    + right; right. split; [done|]. split; [done|]. by destruct (pending ch).
Qed.

(** C3. Every run of atomic iterations is a run of the threads.  Take
    any schedule of iterations of [System] from a store with both mutexes
    free.  There are notifications, keys and answers of mpv, and a schedule
    of single steps of the three threads on them, such that: when the
    atomic run returns a system, the threads reach a pool whose store and
    exit flag stand for that system; when the atomic run panics, the threads
    reach a pool in which a thread has panicked with the same panic.  So
    every state and every panic that [System] exhibits is one of the
    program at the grain of its locks. *)
Theorem atomic_runs_realized om max_x h `{Mpv} `{FloatFormat} player canvas ch log m es :
  let s := calm_store player canvas ch log in
  exists results keys titles schedule,
    match System.run om max_x h (abstract s m false) es with
    | Ok sys' =>
        exists c',
          pool_run schedule (threads om max_x h s m results keys titles) = Some c' /\
          exists m', abstract (cf_store c') m' (cf_exited c') = sys'
    | Panic why =>
        exists c' t,
          pool_run schedule (threads om max_x h s m results keys titles) = Some c' /\
          thread t c' = Panicked why
    end.
Proof.
  intros s.
  destruct (run_realized om max_x h es s m) as (results & keys & titles & Hrun); [done|].
  exists results, keys, titles.
  destruct (System.run _ _ _ _ _) as [sys'|why].
  - destruct Hrun as (c' & [schedule Hc'] & Habs). by exists schedule, c'.
  - destruct Hrun as (c' & t & [schedule Hc'] & Ht). by exists schedule, c', t.
Qed.

(** C4. The three threads never deadlock on their mutexes.  Start the
    observer on any results of [event_listen], the input listener on any
    keys and the main thread on any answers of mpv, on a store with both
    mutexes free; follow any schedule.  In the pool reached, if the process
    has not ended and a thread is running that is not waiting for a request
    on the empty channel, then some thread can take a step.  Every nested
    acquisition of the source takes the player mutex before the canvas mutex
    (main.rs 346-364, 393-414, 487-505, 515-522, 579-596, 707-732). *)
Theorem threads_no_deadlock om max_x h `{Mpv} `{FloatFormat} s results keys titles
    schedule c t p :
  idle s ->
  pool_run schedule
    (pool s (observer_thread results) (input_thread om h keys Browsing)
       (main_thread om max_x h titles)) = Some c ->
  cf_exited c = false -> thread t c = Running p -> ~ waiting t c ->
  exists t' c', pool_step t' c = Some c'.
Proof.
  intros Hs Hrun He Hp Hw. apply (no_deadlock c t p); try done.
  eapply run_disciplined; [|done].
  apply pool_disciplined; [done | apply observer_thread_arm | apply input_thread_arm
                          | apply main_thread_arm].
Qed.

(** C7. The lock typing is preserved.  [Locking.locked] types what is left
    of a thread's program by the mutexes the thread holds: a mutex is
    requested in the order player before canvas and never twice, a record is
    accessed only under its mutex, the thread blocks on the channel and ends
    only with no mutex held.  The three threads are typed at their start, and
    every pool they reach under any schedule is typed: each thread that runs
    is typed from the mutexes the store says it owns, and a thread that has
    ended or panicked owns none. *)
Theorem threads_disciplined om max_x h `{Mpv} `{FloatFormat} s results keys titles
    schedule c :
  idle s ->
  pool_run schedule
    (pool s (observer_thread results) (input_thread om h keys Browsing)
       (main_thread om max_x h titles)) = Some c ->
  forall t,
    match thread t c with
    | Running p => locked (held_by t (cf_store c)) nothing p
    | Finished | Panicked _ => held_by t (cf_store c) = nothing
    end.
Proof.
  intros Hs Hrun. change (disciplined c). eapply run_disciplined; [|done].
  apply pool_disciplined; [done | apply observer_thread_arm | apply input_thread_arm
                          | apply main_thread_arm].
Qed.

(** C13. Mutual exclusion.  In every pool the three threads reach, under
    any schedule, two threads are never both inside an access to the same
    record, and the thread that reads or writes the player or the canvas owns
    its mutex: every access of the source is made through a guard. *)
Theorem threads_exclusive om max_x h `{Mpv} `{FloatFormat} s results keys titles
    schedule c m t t' p p' :
  idle s ->
  pool_run schedule
    (pool s (observer_thread results) (input_thread om h keys Browsing)
       (main_thread om max_x h titles)) = Some c ->
  thread t c = Running p -> thread t' c = Running p' ->
  accesses m p -> accesses m p' ->
  t = t' /\ owner (lock_of m (cf_store c)) = Some t.
Proof.
  intros Hs Hrun. apply exclusive_access.
  eapply run_disciplined; [|done].
  apply pool_disciplined; [done | apply observer_thread_arm | apply input_thread_arm
                          | apply main_thread_arm].
Qed.




(** C21. The listener dies alone.  With mpv gone, the first key that sends
    a command (here [p], main.rs 530-532) panics the input listener at its
    [expect], outside every guard: the store is as it was, no mutex is
    poisoned, the observer and the render loop go on.  From then on no key
    is read, and under any schedule the process ends only if the main thread
    panics: [q] can no longer end it. *)
Theorem listener_dies_alone om max_x h `{FloatFormat} s results keys titles :
  idle s ->
  let c := pool s (observer_thread results)
             (@input_thread om h mpv_down (KEY_P :: keys) Browsing)
             (main_thread om max_x h titles) in
  exists c1,
    pool_run [InputListener] c = Some c1 /\
    cf_input c1 = Panicked UnwrapErr /\ cf_store c1 = s /\ cf_exited c1 = false /\
    forall schedule c', pool_run schedule c1 = Some c' ->
      cf_input c' = Panicked UnwrapErr /\
      (cf_exited c' = true -> exists why, cf_main c' = Panicked why).
Proof.
  intros [Hp Hc] c. eexists. split; [reflexivity|].
  split; [done|]. split.
  { cbn. unfold unwind, unwind_lock. destruct s as [? ? pl cl ? ?]. cbn in *. by subst. }
  split; [done|]. intros schedule c' Hrun. split.
  - by apply (run_panicked _ _ _ InputListener UnwrapErr Hrun).
  - apply (run_stays _ _ _ Hrun). split; [|done].
    intros t p. destruct t; cbn; intros [= <-];
      [apply observer_thread_quiet | apply main_thread_quiet].
Qed.

(** C15. Every critical section ends.  In every state the three threads
    reach, a thread that waits for a mutex gets its turn by steps of the two
    other threads alone: there is a schedule that does not name the waiting
    thread after which its [lock()] returns (with the guard, or with the
    error of a poisoned mutex), unless the process ends first.  No thread
    holds a mutex while it waits for input, and none needs a step of the
    waiting thread to leave its critical section. *)
Theorem threads_waiter_served om max_x h `{Mpv} `{FloatFormat} s results keys titles
    schedule c t m k :
  idle s ->
  pool_run schedule
    (pool s (observer_thread results) (input_thread om h keys Browsing)
       (main_thread om max_x h titles)) = Some c ->
  cf_exited c = false -> thread t c = Running (Lock m k) ->
  exists schedule' c',
    (t ∉ schedule') /\ pool_run schedule' c = Some c' /\
    thread t c' = Running (Lock m k) /\
    (cf_exited c' = true \/ is_Some (pool_step t c')).
Proof.
  intros Hs Hrun. apply waiter_served.
  eapply run_disciplined; [|done].
  apply pool_disciplined; [done | apply observer_thread_arm | apply input_thread_arm
                          | apply main_thread_arm].
Qed.

(** ** Witnesses *)

Lemma threads_no_deadlock_witness :
  let player := mkPlayer f64_zero false false None (sample_playlist 100) ([], 0)
                  f64_zero f64_zero f64_zero in
  let s := calm_store player (mkCanvas 0 20 19) chan_init [] in
  let c := pool s (observer_thread [])
             (@input_thread Checked 20 (mpv_up []) [KEY_DOWN] Browsing)
             (@main_thread Checked 80 20 sample_format [None]) in
  let c1 := default c (pool_run ([InputListener] ++ replicate 8 MainThread) c) in
  pool_step MainThread c1 = None /\ exists t' c', pool_step t' c1 = Some c'.
Proof.
  intros player s c c1. split; [reflexivity|].
  eapply (@threads_no_deadlock Checked 80 20 (mpv_up []) sample_format
            s [] [KEY_DOWN] [None] ([InputListener] ++ replicate 8 MainThread) c1
            MainThread);
    [done | reflexivity | reflexivity | reflexivity |].
  intros (k & Hk & _). by cbn in Hk.
Defined.

Lemma threads_exclusive_witness :
  let player := mkPlayer f64_zero false false None (sample_playlist 100) ([], 0)
                  f64_zero f64_zero f64_zero in
  let s := calm_store player (mkCanvas 0 20 19) chan_init [] in
  let c := pool s (observer_thread [])
             (@input_thread Checked 20 (mpv_up []) [KEY_UP] Browsing)
             (@main_thread Checked 80 20 sample_format [None]) in
  let c1 := default c (pool_run [InputListener] c) in
    InputListener = InputListener /\
    owner (lock_of CanvasMutex (cf_store c1)) = Some InputListener.
Proof.
  intros player s c c1.
  eapply (@threads_exclusive Checked 80 20 (mpv_up []) sample_format
            s [] [KEY_UP] [None] [InputListener] c1 CanvasMutex InputListener InputListener);
    [done | reflexivity | reflexivity | reflexivity | exact I | exact I].
Defined.

Lemma listener_dies_alone_witness :
  let player := mkPlayer f64_zero false false None [] ([], 0) f64_zero f64_zero f64_zero in
  let s := calm_store player (mkCanvas 0 20 0) chan_init [] in
  let c := pool s (observer_thread [])
             (@input_thread Checked 20 mpv_down [KEY_P; KEY_Q] Browsing)
             (@main_thread Checked 80 20 sample_format [None]) in
  exists c1,
    pool_run [InputListener] c = Some c1 /\
    cf_input c1 = Panicked UnwrapErr /\ cf_store c1 = s /\ cf_exited c1 = false /\
    forall schedule c', pool_run schedule c1 = Some c' ->
      cf_input c' = Panicked UnwrapErr /\
      (cf_exited c' = true -> exists why, cf_main c' = Panicked why).
Proof.
  intros player s.
  by apply (@listener_dies_alone Checked 80 20 sample_format s [] [KEY_Q] [None]).
Defined.

Lemma threads_disciplined_witness :
  let player := mkPlayer f64_zero false false None [] ([], 0) f64_zero f64_zero f64_zero in
  let s := calm_store player (mkCanvas 0 20 0) chan_init [] in
  let c := pool s (observer_thread [])
             (@input_thread Checked 20 (mpv_up []) [KEY_DOWN] Browsing)
             (@main_thread Checked 80 20 sample_format [None]) in
  let c1 := default c (pool_run (replicate 12 InputListener) c) in
  held_by InputListener (cf_store c1) = nothing.
Proof.
  intros player s c c1.
  apply (@threads_disciplined Checked 80 20 (mpv_up []) sample_format s [] [KEY_DOWN]
           [None] (replicate 12 InputListener) c1 (conj eq_refl eq_refl) eq_refl
           InputListener).
Defined.


Lemma threads_waiter_served_witness :
  let player := mkPlayer f64_zero false false None (sample_playlist 100) ([], 0)
                  f64_zero f64_zero f64_zero in
  let s := calm_store player (mkCanvas 0 20 19) chan_init [] in
  let c := pool s (observer_thread [])
             (@input_thread Checked 20 (mpv_up []) [KEY_DOWN] Browsing)
             (@main_thread Checked 80 20 sample_format [None]) in
  let c1 := default c (pool_run ([InputListener] ++ replicate 8 MainThread) c) in
  pool_step MainThread c1 = None /\
  exists p, thread MainThread c1 = Running p /\
    exists schedule' c',
      (MainThread ∉ schedule') /\ pool_run schedule' c1 = Some c' /\
      thread MainThread c' = Running p /\
      (cf_exited c' = true \/ is_Some (pool_step MainThread c')).
Proof.
  intros player s c c1. split; [reflexivity|]. eexists. split; [reflexivity|].
  eapply (@threads_waiter_served Checked 80 20 (mpv_up []) sample_format
            s [] [KEY_DOWN] [None] ([InputListener] ++ replicate 8 MainThread) c1
            MainThread PlayerMutex);
    [done | reflexivity | reflexivity | reflexivity].
Defined.
